(** * Movement-and-transmission update engine of the swine farm model

    A shallow embedding of the two Python add-ons of the repository,

    - [movement_12fatpens_swIAVs.py]  (classes [TradeMovementsReader] and
      [Metapopulation], full-pairwise adjacency, uniform biosecurity draw),
    - [movement_12fatpens_outrans.py] (classes [FarmerMovementsReader] and
      [Metapopulation], line adjacency, PERT biosecurity draw),

    followed by the properties of the specification that are settled on it.

    Conventions of the embedding.

    - Python [int] is [Z].  Python [float] is idealised as an exact rational
      ([Qc], canonical rationals with Leibniz equality): rounding is not
      modelled, but division by zero is, and raises [ZeroDivisionError] as
      Python's [/] and [//] do.
    - An exception is a value of [exn]; fallible pure code returns [result],
      code that mutates the populations or draws random numbers runs in the
      state-and-exception monad [M] over a [World].
    - The populations ([self.get_populations()]) are a dictionary from pen id
      to herd, a [gmap Z Herd]; a missing key raises [KeyError].
    - A dictionary that the code iterates over (the movement schedule) is an
      insertion-ordered association list, as a Python [dict] is.
    - Every call of a random generator reads the next cell of a tape of
      rationals; [random.random()] and [np.random.random()] return the cell
      itself, [np.random.uniform(lo, hi)] returns [lo + (hi - lo) * cell].
      A generator that checks its parameters ([random_gamma], the PERT
      sample) refuses them with [ValueError] as numpy and scipy do.
    - The animals carry no agent identifier.  The list of a pen gives its
      animals; the place of the animals that have arrived in a pen
      ([add_atoms]) is not the one the real pen gives them, and the
      properties state the animals of such a pen up to permutation.
*)

From Stdlib Require Import ZArith QArith Qcanon Qround Lia.
From stdpp Require Import base option list strings gmap.

Open Scope Z_scope.

(* ===================================================================== *)
(** * Part I: the embedding                                               *)
(* ===================================================================== *)

(** ** Python primitives *)

Inductive exn : Type :=
  | SemanticException
  | KeyError
  | ZeroDivisionError
  | ValueError
  | AttributeError
  | FileNotFoundError.

Inductive result (A : Type) : Type :=
  | Ok (a : A)
  | Raise (e : exn).
Arguments Ok {A} a.
Arguments Raise {A} e.

#[global] Instance result_ret : MRet result := fun A a => Ok a.
#[global] Instance result_bind : MBind result := fun A B f r =>
  match r with
  | Ok a => f a
  | Raise e => Raise e
  end.
#[global] Instance result_fmap : FMap result := fun A B f r =>
  match r with
  | Ok a => Ok (f a)
  | Raise e => Raise e
  end.

Definition is_Ok {A} (r : result A) : bool :=
  match r with Ok _ => true | Raise _ => false end.

(** [int] to [float]. *)
Definition float_of_int (z : Z) : Qc := Q2Qc (inject_Z z).

(** [x / y] on numbers: true division, [ZeroDivisionError] on a zero
    divisor. *)
Definition py_truediv (x y : Qc) : result Qc :=
  if bool_decide (y = 0%Qc) then Raise ZeroDivisionError else Ok (x / y)%Qc.

(** [x // y] on integers and on [timedelta]s (a count of microseconds):
    floor division, [ZeroDivisionError] on a zero divisor. *)
Definition py_floordiv (x y : Z) : result Z :=
  if y =? 0 then Raise ZeroDivisionError else Ok (x / y).

(** [round(x)]: to the nearest integer, ties to the even one. *)
Definition py_round (x : Qc) : Z :=
  let f := Qfloor x in
  let r := (x - float_of_int f)%Qc in
  if bool_decide (r < Q2Qc (1 # 2))%Qc then f
  else if bool_decide (Q2Qc (1 # 2) < r)%Qc then f + 1
  else if Z.even f then f else f + 1.

(** [range(lo, hi)]. *)
Definition py_range (lo hi : Z) : list Z := seqZ lo (hi - lo).

(** An insertion-ordered dictionary with integer keys. *)
Definition dict (V : Type) : Type := list (Z * V).

Fixpoint dict_get {V} (k : Z) (d : dict V) : option V :=
  match d with
  | [] => None
  | (k', v) :: d' => if k' =? k then Some v else dict_get k d'
  end.

(** [k in d] *)
Definition dict_mem {V} (k : Z) (d : dict V) : bool :=
  match dict_get k d with Some _ => true | None => false end.

(** [d[k] = v]: an existing key keeps its place, a new one goes last. *)
Fixpoint dict_set {V} (k : Z) (v : V) (d : dict V) : dict V :=
  match d with
  | [] => [(k, v)]
  | (k', v') :: d' => if k' =? k then (k, v) :: d' else (k', v') :: dict_set k v d'
  end.

(** [d[k]] *)
Definition dict_item {V} (k : Z) (d : dict V) : result V :=
  match dict_get k d with Some v => Ok v | None => Raise KeyError end.

(* ===================================================================== *)
(** ** Preprocessor: [TradeMovementsReader] / [FarmerMovementsReader]     *)
(* ===================================================================== *)

(** One parsed row of the CSV file: [dup.parse(row['date'])] as a count of
    microseconds, [int(row['source'])], [int(row['dest'])],
    [float(row['duration'])]. *)
Record Row : Type := mkRow {
  row_date : Z;
  row_source : Z;
  row_dest : Z;
  row_duration : Qc
}.

(** [{step: {source_id: [[dest_id, dur], ...], ...}, ...}] *)
Definition Schedule : Type := dict (dict (list (Z * Qc))).

(** [self.input_files]: [None], or a mapping of names to paths. *)
Definition InputFiles : Type := option (gmap string string).

(** The files that can be opened, by path, each already parsed into rows. *)
Definition FileSystem : Type := gmap string (list Row).

(** [self.simulation.shared_data], of which only the key ['moves'] is used. *)
Record SharedData : Type := mkShared { shared_moves : option Schedule }.

Definition init_preprocessor (input_files : InputFiles) : result unit :=
  match input_files with
  | None => Raise SemanticException
  | Some files =>
      if bool_decide (files !! "trade_file"%string = None)
      then Raise SemanticException
      else Ok tt
  end.

(** The body of the loop [for row in csvreader] of [restructure_moves]. *)
Definition restructure_row (origin step_duration : Z) (moves : Schedule) (row : Row)
  : result Schedule :=
  let week := row_date row in
  if week <? origin then Ok moves
  else
    step ← py_floordiv (week - origin) step_duration;
    let moves := if dict_mem step moves then moves else dict_set step [] moves in
    let '(src, dest, dur) := (row_source row, row_dest row, row_duration row) in
    by_source ← dict_item step moves;
    let by_source :=
      if dict_mem src by_source then by_source else dict_set src [] by_source in
    entries ← dict_item src by_source;
    Ok (dict_set step (dict_set src (entries ++ [(dest, dur)]) by_source) moves).

Fixpoint restructure_rows (origin step_duration : Z) (moves : Schedule) (rows : list Row)
  : result Schedule :=
  match rows with
  | [] => Ok moves
  | row :: rows' =>
      moves' ← restructure_row origin step_duration moves row;
      restructure_rows origin step_duration moves' rows'
  end.

Definition restructure_moves (origin step_duration : Z) (rows : list Row)
  : result Schedule :=
  restructure_rows origin step_duration [] rows.

(** [open(self.input_files.trade_file)] followed by [restructure_moves]. *)
Definition read_trade_file (fs : FileSystem) (input_files : InputFiles)
  : result (list Row) :=
  match input_files with
  | None => Raise AttributeError
  | Some files =>
      match files !! "trade_file"%string with
      | None => Raise AttributeError
      | Some path =>
          match fs !! path with
          | None => Raise FileNotFoundError
          | Some rows => Ok rows
          end
      end
  end.

Definition run_preprocessor (fs : FileSystem) (input_files : InputFiles)
    (origin step_duration : Z) (shared : SharedData) : result SharedData :=
  match shared_moves shared with
  | None =>
      rows ← read_trade_file fs input_files;
      moves ← restructure_moves origin step_duration rows;
      Ok (mkShared (Some moves))
  | Some _ => Ok shared
  end.

(** The life cycle the host gives a preprocessor: [init_preprocessor] when
    it is set up, [run_preprocessor] afterwards, before the first step. *)
Definition preprocess (fs : FileSystem) (input_files : InputFiles)
    (origin step_duration : Z) (shared : SharedData) : result SharedData :=
  _ ← init_preprocessor input_files;
  run_preprocessor fs input_files origin step_duration shared.

(* ===================================================================== *)
(** ** Populations                                                        *)
(* ===================================================================== *)

(** The states of the state machines [age_group] and [health_state]. *)
Inductive AgeGroup : Type := age_A | age_G | age_F | age_Jnb | age_Jn | age_Jf.
Inductive HealthState : Type := hs_S | hs_E | hs_I | hs_M | hs_R.

#[global] Instance AgeGroup_eq_dec : EqDecision AgeGroup.
Proof. solve_decision. Defined.
#[global] Instance HealthState_eq_dec : EqDecision HealthState.
Proof. solve_decision. Defined.

(** An animal. *)
Record Atom : Type := mkAtom {
  age_group : AgeGroup;
  health_state : HealthState
}.

(** [pig.is_in_state('I')] and the like, on the health states. *)
Definition is_in_state (pig : Atom) (s : HealthState) : bool :=
  bool_decide (health_state pig = s).

(** The state variables of a herd that the add-ons write. *)
Record StateVars : Type := mkStateVars {
  trans_btwn_pens_frm_movement : Qc;
  nb_of_sampled_I_Jf : Z;
  nb_new_farrowing_sows : Z
}.

(** A pen with its animals.  The list gives the animals of the pen and,
    for the pens a process starts from, the order in which the pen yields
    them. *)
Record Herd : Type := mkHerd {
  atoms : list Atom;
  statevars : StateVars
}.

Definition set_trans (v : Qc) (h : Herd) : Herd :=
  mkHerd (atoms h)
    (mkStateVars v (nb_of_sampled_I_Jf (statevars h)) (nb_new_farrowing_sows (statevars h))).

Definition set_nb_of_sampled_I_Jf (v : Z) (h : Herd) : Herd :=
  mkHerd (atoms h)
    (mkStateVars (trans_btwn_pens_frm_movement (statevars h)) v
       (nb_new_farrowing_sows (statevars h))).

Definition set_atoms (l : list Atom) (h : Herd) : Herd := mkHerd l (statevars h).

(** The aggregates of a herd, counted from its members. *)
Definition count_atoms (P : Atom → bool) (h : Herd) : Z :=
  Z.of_nat (length (List.filter P (atoms h))).

Definition total_herd (h : Herd) : Z := Z.of_nat (length (atoms h)).
Definition total_I (h : Herd) : Z := count_atoms (λ a, is_in_state a hs_I) h.
Definition total_Jnb (h : Herd) : Z :=
  count_atoms (λ a, bool_decide (age_group a = age_Jnb)) h.

(** [herd.select_atoms('health_state', s)] *)
Definition select_atoms_health (s : HealthState) (h : Herd) : list Atom :=
  List.filter (λ a, is_in_state a s) (atoms h).

(** [herd.add_atoms(l)].  The pen of emulsion yields its animals by agent
    identifier, which the animals of the embedding do not carry: the list
    has the animals that arrive after the others, and their place in it is
    not their place in the real pen.  An arrival therefore fixes the
    animals of the pen and not their order: what the processes read from a
    pen after an arrival, its totals and the selection of an age group, is
    the same for every order of the list up to the order of the selection
    (lemmas [count_atoms_perm] and [select_atoms_age_perm]), and the
    properties state the animals of such a pen up to permutation. *)
Definition add_atoms (l : list Atom) (h : Herd) : Herd := set_atoms (atoms h ++ l) h.

(** The prototypes that the add-ons name. *)
Inductive Prototype : Type :=
  | newborn_E | newborn_S | newborn_M | infected_outside_farm.

(** Modelled from the spec: the prototypes are declared in the model's YAML
    file, which is not among the sources.  A newborn prototype makes a
    piglet of the newborn group, infected ([E]), susceptible ([S]) or with
    maternal immunity ([M]); [infected_outside_farm] moves an animal to the
    state it has when infected from outside, [E]. *)
Definition prototype_health (p : Prototype) : HealthState :=
  match p with
  | newborn_E => hs_E
  | newborn_S => hs_S
  | newborn_M => hs_M
  | infected_outside_farm => hs_E
  end.

(** [herd.new_atom(sublevel='animals', prototype=p)]: makes the animal, and
    leaves the herd as it is. *)
Definition new_atom (p : Prototype) : Atom := mkAtom age_Jnb (prototype_health p).

(** [pig.apply_prototype(name=p, prototype=p, execute_actions=True)] *)
Definition apply_prototype (p : Prototype) (pig : Atom) : Atom :=
  mkAtom (age_group pig) (prototype_health p).

(** [self.model.parameters] *)
Record Parameters : Type := mkParameters {
  nb_herds : Z;
  K_herd : Qc;
  vert_trans : Qc;
  mean_pba : Qc;
  sd_pba : Qc;
  max_bp_trans : Qc;
  min_bp_trans : Qc;
  mean_bp_trans : Qc;
  between_herd_trans : Qc;
  neighboring_herd_trans : Qc;
  biosec_remove_risky_move : Z;
  proba_encounter : Qc;
  proba_trans : Qc;
  proba_ext_I : Qc;
  proba_success_biosec_ml : Qc;
  proba_success_biosec_opt : Qc;
  proba_success_biosec_pes : Qc
}.

(* ===================================================================== *)
(** ** The monad of the processes                                         *)
(* ===================================================================== *)

(** What a process reads and writes: the populations, and the tape of
    random numbers with the position of its next cell. *)
Record World : Type := mkWorld {
  herds : gmap Z Herd;
  rng_tape : nat → Qc;
  rng_pos : nat
}.

Definition M (A : Type) : Type := World → result (A * World).

#[global] Instance M_ret : MRet M := fun A a w => Ok (a, w).
#[global] Instance M_bind : MBind M := fun A B f m w =>
  match m w with
  | Ok (a, w') => f a w'
  | Raise e => Raise e
  end.

Definition lift {A} (r : result A) : M A := fun w =>
  match r with
  | Ok a => Ok (a, w)
  | Raise e => Raise e
  end.

(** [herds[i]] *)
Definition get_herd (i : Z) : M Herd := fun w =>
  match herds w !! i with
  | Some h => Ok (h, w)
  | None => Raise KeyError
  end.

(** A write to an attribute of [herds[i]]. *)
Definition update_herd (i : Z) (f : Herd → Herd) : M unit := fun w =>
  match herds w !! i with
  | Some h => Ok (tt, mkWorld (<[i := f h]> (herds w)) (rng_tape w) (rng_pos w))
  | None => Raise KeyError
  end.

(** The next cell of the tape. *)
Definition random_draw : M Qc := fun w =>
  Ok (rng_tape w (rng_pos w), mkWorld (herds w) (rng_tape w) (S (rng_pos w))).

(** [random.random()], [np.random.random()], [np.random.rand()] *)
Definition random_random : M Qc := random_draw.

(** [np.random.uniform(lo, hi)] *)
Definition np_random_uniform (lo hi : Qc) : M Qc :=
  u ← random_draw; mret (lo + (hi - lo) * u)%Qc.

(** [random.gauss(mu, sigma)]: the cell is the standard normal deviate. *)
Definition random_gauss (mu sigma : Qc) : M Qc :=
  z ← random_draw; mret (mu + z * sigma)%Qc.

(** [random_gamma(shape, scale)] of emulsion, which calls
    [np.random.gamma(shape, scale)]: numpy refuses a negative shape or a
    negative scale with [ValueError]; otherwise the cell is the sample. *)
Definition random_gamma (shape scale : Qc) : M Qc :=
  if bool_decide (shape < 0)%Qc || bool_decide (scale < 0)%Qc
  then lift (Raise ValueError)
  else random_draw.

(** [pert(mini, mode, maxi).rvs(size=1)] of betapert, a distribution of
    scipy: the parameters are checked when the sample is drawn, and
    refused with [ValueError] unless [mini < mode < maxi]; otherwise the
    cell is the sample. *)
Definition pert_rvs (mini mode maxi : Qc) : M Qc :=
  if bool_decide (mini < mode)%Qc && bool_decide (mode < maxi)%Qc
  then random_draw
  else lift (Raise ValueError).

(** A [for] loop that carries a value from one round to the next. *)
Fixpoint foldM {A B} (body : B → A → M B) (b : B) (l : list A) : M B :=
  match l with
  | [] => mret b
  | x :: l' => b' ← body b x; foldM body b' l'
  end.

(** A [for] loop: [for x in l: body(x)]. *)
Definition for_each {A} (l : list A) (body : A → M unit) : M unit :=
  foldM (λ _ x, body x) tt l.

(** A list comprehension whose expression has effects. *)
Fixpoint mapM {A B} (f : A → M B) (l : list A) : M (list B) :=
  match l with
  | [] => mret []
  | x :: l' => y ← f x; ys ← mapM f l'; mret (y :: ys)
  end.

(* ===================================================================== *)
(** ** [Metapopulation.farmer_movement] / [animal_farmer_movement]        *)
(* ===================================================================== *)

(** The two files share the body of this process; the blocks below follow
    it in order.  The excerpts between them (the transfers by age group,
    the random testing and the sale of the excess growers) are not
    embedded. *)

(** *** Production of the newborns *)

(** The [if]/[elif]/[else] that chooses the prototype of a litter.  The
    draw [random.random()] is made only for a sow in state [I] or [E]. *)
Definition newborn_prototype (p : Parameters) (sow : Atom) : M Prototype :=
  infected ←
    (if is_in_state sow hs_I || is_in_state sow hs_E
     then u ← random_random; mret (bool_decide (u < vert_trans p)%Qc)
     else mret false);
  mret (if infected : bool then newborn_E
        else if is_in_state sow hs_S then newborn_S
        else newborn_M).

(** The litter of a sow: what the body of the loop makes under its guard,
    [[herds[2].new_atom(...) for _ in range(pba)]]. *)
Definition litter (p : Parameters) (sow : Atom) : M (list Atom) :=
  proto ← newborn_prototype p sow;
  let mean_pba := py_round (mean_pba p) in
  let sd_pba := py_round (sd_pba p) in
  g ← random_gauss (float_of_int mean_pba) (float_of_int sd_pba);
  let pba := py_round g in
  mret (replicate (Z.to_nat pba) (new_atom proto)).

(** One round of [for sow in farrowing_sows], on the list [newborn]. *)
Definition newborn_round (p : Parameters) (newborn : list Atom) (sow : Atom)
  : M (list Atom) :=
  pen ← get_herd 2;
  if bool_decide (float_of_int (total_Jnb pen) < K_herd p)%Qc then
    l ← litter p sow;
    mret (newborn ++ l)
  else mret newborn.

(** The loop alone: the list [newborn] it builds. *)
Definition newborn_loop (p : Parameters) (farrowing_sows : list Atom) : M (list Atom) :=
  foldM (newborn_round p) [] farrowing_sows.

(** The loop and the [add_atoms] that follows it. *)
Definition produce_newborns (p : Parameters) (farrowing_sows : list Atom) : M unit :=
  newborn ← newborn_loop p farrowing_sows;
  if negb (length newborn =? 0)%nat then update_herd 2 (add_atoms newborn) else mret tt.

(** *** Transfer of the growers to the fattening pens *)

(** The number of parts [n]: [np.floor(len(growers) / 12)], brought into
    1..12. *)
Definition nb_parts {A} (growers : list A) : Z :=
  let len := Z.of_nat (length growers) in
  if 0 <? len then
    let n := len / 12 in
    if n =? 0 then 1 else if 12 <? n then 12 else n
  else 1.

(** [ary[st:end]] for [0 <= st]. *)
Definition slice {A} (st en : nat) (ary : list A) : list A :=
  take (en - st) (drop st ary).

(** [np.cumsum] *)
Fixpoint cumsum_from (acc : nat) (l : list nat) : list nat :=
  match l with
  | [] => []
  | x :: l' => (acc + x)%nat :: cumsum_from (acc + x) l'
  end.
Definition cumsum (l : list nat) : list nat := cumsum_from 0 l.

(** The sizes of the parts [np.array_split] cuts: the first
    [Ntotal % Nsections] parts have one element more than the others. *)
Definition section_sizes (Ntotal Nsections : nat) : list nat :=
  let Neach_section := (Ntotal / Nsections)%nat in
  let extras := (Ntotal `mod` Nsections)%nat in
  replicate extras (Neach_section + 1)%nat
    ++ replicate (Nsections - extras) Neach_section.

(** [np.array_split(ary, sections)] of numpy, for a number of sections:
    the parts lie between the cumulated sizes; [ValueError] when the number
    is not positive. *)
Definition array_split {A} (ary : list A) (sections : Z) : result (list (list A)) :=
  let Ntotal := length ary in
  if sections <=? 0 then Raise ValueError
  else
    let Nsections := Z.to_nat sections in
    let div_points := cumsum (0%nat :: section_sizes Ntotal Nsections) in
    Ok (map (λ i, slice (div_points !!! i) (div_points !!! S i) ary) (seq 0 Nsections)).

(** [enumerate(l, start)] *)
Fixpoint enumerate_from {A} (start : Z) (l : list A) : list (Z * A) :=
  match l with
  | [] => []
  | x :: l' => (start, x) :: enumerate_from (start + 1) l'
  end.
Definition enumerate {A} (l : list A) : list (Z * A) := enumerate_from 0 l.

Definition transfer_to_fattening_pens (growers : list Atom) : M unit :=
  let n := nb_parts growers in
  pens ← lift (array_split growers n);
  for_each (enumerate pens) (λ '(i, pen), update_herd (i + 4) (add_atoms pen)).

(** *** Movement of the farmers *)

(** [herds[i].statevars.trans_btwn_pens_frm_movement += v] *)
Definition add_trans (i : Z) (v : Qc) : M unit :=
  update_herd i (λ h, set_trans (trans_btwn_pens_frm_movement (statevars h) + v)%Qc h).

(** The value given to [trans_I_from_source] for one movement; [totals] is
    the pair of the running sums [total_I] and [total_herd]. *)
Definition source_pressure (p : Parameters) (source dest : Z) (dur : Qc) : M Qc :=
  src ← get_herd source;
  if (0 <? total_herd src) && negb (dest =? 16) && negb (dest =? 17) then
    let dur := (dur / float_of_int 10080)%Qc in
    let dur :=
      if (4 <=? source) && (source <=? 15) && ((1 <=? dest) && (dest <=? 3))
         && (biosec_remove_risky_move p =? 1)
      then 0%Qc
      else if (((source =? 1) && (dest =? 2))
               || ((source =? 3) && ((1 <=? dest) && (dest <=? 2))))
              && (biosec_remove_risky_move p =? 1)
      then 0%Qc
      else dur in
    if negb (source =? 4) then
      lift (py_truediv
              (dur * between_herd_trans p * float_of_int (total_I src))%Qc
              (float_of_int (total_herd src)))
    else
      totals ← foldM (λ totals i,
                        h ← get_herd i;
                        mret (totals.1 + total_I h, totals.2 + total_herd h))
                     (0, 0) (py_range 4 16);
      let total_I' := totals.1 in
      let total_herd' := if totals.2 =? 0 then 1 else totals.2 in
      lift (py_truediv
              (dur * between_herd_trans p * float_of_int total_I')%Qc
              (float_of_int total_herd'))
  else mret 0%Qc.

(** The body of [for dest, dur in moves[step][source]]. *)
Definition movement_edge (p : Parameters) (source dest : Z) (dur : Qc) : M unit :=
  if negb (source =? dest) then
    sd_bp_trans ← lift (py_truediv (max_bp_trans p - min_bp_trans p)%Qc (float_of_int 4));
    ratio ← lift (py_truediv (mean_bp_trans p) sd_bp_trans);
    let shape_bp_trans := (ratio * ratio)%Qc in
    scale_bp_trans ← lift (py_truediv (sd_bp_trans * sd_bp_trans)%Qc (mean_bp_trans p));
    bp_trans ← random_gamma shape_bp_trans scale_bp_trans;
    trans_I_from_source ← source_pressure p source dest dur;
    _ ← add_trans dest trans_I_from_source;
    if dest =? 4
    then for_each (py_range 5 16) (λ i, add_trans dest trans_I_from_source)
    else mret tt
  else mret tt.

(** From the reset of the rates to the end of the process. *)
Definition farmer_moves (p : Parameters) (moves : Schedule) (step : Z) : M unit :=
  _ ← for_each (py_range 0 (nb_herds p)) (λ i, update_herd i (set_trans 0%Qc));
  match dict_get step moves with
  | Some by_source =>
      for_each by_source (λ '(source, edges),
        for_each edges (λ '(dest, dur), movement_edge p source dest dur))
  | None => mret tt
  end.

(* ===================================================================== *)
(** ** [sample_I_from_fatteners]                                          *)
(* ===================================================================== *)

Definition set_nb_sampled (v : Z) : M unit := update_herd 4 (set_nb_of_sampled_I_Jf v).

(** [sum(1 for i in range(12) if herds[i + 4].total_I > 0)] *)
Definition count_infectious_pens : M Z :=
  foldM (λ acc i, h ← get_herd (i + 4);
                  mret (if 0 <? total_I h then acc + 1 else acc))
        0 (py_range 0 12).

(** The reset of [herds[4].statevars.nb_of_sampled_I_Jf] and the [+=] that
    follows it, as the full-pairwise file has them. *)
Definition sample_infectious_pens : M unit :=
  _ ← set_nb_sampled 0;
  h ← get_herd 4;
  let old := nb_of_sampled_I_Jf (statevars h) in
  c ← count_infectious_pens;
  set_nb_sampled (old + c).

(** [neighboring_herd_trans * total_I / total_herd] *)
Definition pressure_ratio (p : Parameters) (total_I' total_herd' : Z) : M Qc :=
  lift (py_truediv (neighboring_herd_trans p * float_of_int total_I')%Qc
                   (float_of_int total_herd')).

Module SwIAVs.

(** The sums of [total_I] and [total_herd] over the fattening pens other
    than [i]. *)
Definition other_pens_totals (i : Z) : M (Z * Z) :=
  foldM (λ totals j,
           if negb (j =? i) then
             h ← get_herd j;
             mret (totals.1 + total_I h, totals.2 + total_herd h)
           else mret totals)
        (0, 0) (py_range 4 16).

(** The body of [for i in range(4, 16)]. *)
Definition pairwise_round (p : Parameters) (i : Z) : M unit :=
  totals ← other_pens_totals i;
  let total_I' := totals.1 in
  let total_herd' := totals.2 in
  portion_I ←
    (if negb (total_herd' =? 0)
     then lift (py_truediv (float_of_int total_I') (float_of_int total_herd'))
     else mret 0%Qc);
  update_herd i (set_trans (neighboring_herd_trans p * portion_I)%Qc).

Definition sample_I_from_fatteners (p : Parameters) : M unit :=
  _ ← sample_infectious_pens;
  for_each (py_range 4 16) (pairwise_round p).

End SwIAVs.

(** The line variant, of [movement_12fatpens_outrans.py].  In that file
    the function stands at the first column, after the part of
    [animal_farmer_movement] that has lost its indentation; it is embedded
    as the function of [self] that its text is. *)
Module Outrans.

(** A pen at an end of its line has one neighbour, two pens away. *)
Definition one_sided_term (p : Parameters) (neighbour : Z) : M Qc :=
  h ← get_herd neighbour;
  pressure_ratio p (total_I h) (total_herd h).

(** A pen inside its line pools the two neighbours. *)
Definition two_sided_term (p : Parameters) (i : Z) : M Qc :=
  a ← get_herd (i - 2);
  b ← get_herd (i + 2);
  pressure_ratio p (total_I a + total_I b) (total_herd a + total_herd b).

(** What one round adds to [trans_between_pens]: the [if]/[elif] chain on
    [i]. *)
Definition line_term (p : Parameters) (i : Z) : M Qc :=
  if i =? 4 then one_sided_term p (i + 2)
  else if i =? 5 then one_sided_term p (i + 2)
  else if i =? 14 then one_sided_term p (i - 2)
  else if i =? 15 then one_sided_term p (i - 2)
  else two_sided_term p i.

(** The body of [for i in range(4, 16)], on [trans_between_pens]. *)
Definition line_round (p : Parameters) (trans_between_pens : Qc) (i : Z) : M Qc :=
  t ← line_term p i;
  let trans_between_pens := (trans_between_pens + t)%Qc in
  _ ← add_trans i trans_between_pens;
  mret trans_between_pens.

(** The loop [for i in range(4, 16)] with its running total
    [trans_between_pens], which is set to 0 before the loop and never
    again. *)
Definition line_adjacency (p : Parameters) : M unit :=
  _ ← foldM (line_round p) 0%Qc (py_range 4 16);
  mret tt.

(** [herds.statevars]: [herds] is what [get_populations()] returns, the
    mapping of the pens, which the same function indexes as [herds[i]]; a
    mapping has no attribute [statevars], and reading it raises
    [AttributeError].  The sibling file writes [herds[4].statevars]. *)
Definition herds_statevars : M StateVars := lift (Raise AttributeError).

(** The function as the file has it: the reset
    [herds.statevars.nb_of_sampled_I_Jf = 0], the count
    [herds.statevars.nb_of_sampled_I_Jf += sum(...)], then the loop. *)
Definition sample_I_from_fatteners (p : Parameters) : M unit :=
  _ ← herds_statevars;
  sv ← herds_statevars;
  let old := nb_of_sampled_I_Jf sv in
  c ← count_infectious_pens;
  let _ := old + c in
  line_adjacency p.

End Outrans.

(* ===================================================================== *)
(** ** [external_pathway]                                                 *)
(* ===================================================================== *)

(** The body of [for pig in susceptible], given the draw of [P2]. *)
Definition expose (draw_P2 : M Qc) (p : Parameters) (pig : Atom) : M Atom :=
  p_enc ← np_random_uniform 0%Qc (proba_encounter p);
  p_trans ← np_random_uniform 0%Qc (proba_trans p);
  p_ext_I ← np_random_uniform 0%Qc (proba_ext_I p);
  let P1 := (p_enc * p_trans * p_ext_I)%Qc in
  P2 ← draw_P2;
  let R_contact := (P1 * (1 - P2))%Qc in
  u ← random_random;
  if bool_decide (u < R_contact)%Qc
  then mret (apply_prototype infected_outside_farm pig)
  else mret pig.

(** [for h in range(16)]: the susceptible animals of each pen are exposed
    in turn, and changed in place. *)
Definition external_pathway_with (draw_P2 : M Qc) (p : Parameters) : M unit :=
  for_each (py_range 0 16) (λ h,
    herd ← get_herd h;
    atoms' ← mapM (λ pig, if is_in_state pig hs_S then expose draw_P2 p pig else mret pig)
                  (atoms herd);
    update_herd h (set_atoms atoms')).

(** The two draws of [P2]. *)
Definition uniform_P2 (p : Parameters) : M Qc :=
  np_random_uniform (proba_success_biosec_pes p) (proba_success_biosec_opt p).
Definition pert_P2 (p : Parameters) : M Qc :=
  pert_rvs (proba_success_biosec_pes p) (proba_success_biosec_ml p)
           (proba_success_biosec_opt p).

Definition swIAVs_external_pathway (p : Parameters) : M unit :=
  external_pathway_with (uniform_P2 p) p.
Definition outrans_external_pathway (p : Parameters) : M unit :=
  external_pathway_with (pert_P2 p) p.

(* ===================================================================== *)
(** ** The rest of [farmer_movement]: transfers and random testing        *)
(* ===================================================================== *)

(** [herd.select_atoms('age_group', g)] *)
Definition select_atoms_age (g : AgeGroup) (h : Herd) : list Atom :=
  List.filter (λ a, bool_decide (age_group a = g)) (atoms h).

(** [herd.remove_atoms(herd.select_atoms('age_group', g))]: the animals
    selected are those of the group, and they are the ones removed. *)
Definition remove_atoms_age (g : AgeGroup) (h : Herd) : Herd :=
  set_atoms (List.filter (λ a, negb (bool_decide (age_group a = g))) (atoms h)) h.

Definition set_nb_new_farrowing_sows (v : Z) (h : Herd) : Herd :=
  mkHerd (atoms h)
    (mkStateVars (trans_btwn_pens_frm_movement (statevars h))
       (nb_of_sampled_I_Jf (statevars h)) v).

(** Select the animals of a group in pen [src], remove them from it, add
    them to pen [dst]. *)
Definition move_age_group (g : AgeGroup) (src dst : Z) : M (list Atom) :=
  h ← get_herd src;
  let selected := select_atoms_age g h in
  _ ← update_herd src (remove_atoms_age g);
  _ ← update_herd dst (add_atoms selected);
  mret selected.

(** The first lines of the process: gestating sows from pen 0 to pen 1,
    farrowing sows from pen 1 to pen 2, their number recorded in pen 1.
    Returns [farrowing_sows]. *)
Definition transfer_sows : M (list Atom) :=
  _ ← move_age_group age_G 0 1;
  h ← get_herd 1;
  let farrowing_sows := select_atoms_age age_F h in
  _ ← update_herd 1 (set_nb_new_farrowing_sows (Z.of_nat (length farrowing_sows)));
  _ ← update_herd 1 (remove_atoms_age age_F);
  _ ← update_herd 2 (add_atoms farrowing_sows);
  mret farrowing_sows.

(** After the newborns: sows back from pen 2 to pen 0, weaned piglets from
    pen 2 to pen 3, growers out of pen 3.  Returns [growers]. *)
Definition transfer_young : M (list Atom) :=
  _ ← move_age_group age_A 2 0;
  _ ← move_age_group age_Jn 2 3;
  h ← get_herd 3;
  let growers := select_atoms_age age_Jf h in
  _ ← update_herd 3 (remove_atoms_age age_Jf);
  mret growers.

(** A list comprehension with a condition that has effects:
    [[x for x in l if keep(x)]]. *)
Fixpoint filterM {A} (keep : A → M bool) (l : list A) : M (list A) :=
  match l with
  | [] => mret []
  | x :: l' =>
      b ← keep x;
      ys ← filterM keep l';
      mret (if b : bool then x :: ys else ys)
  end.

(** [not (pig.is_in_state(s) and np.random.rand() < proba)]: the draw is
    made only for an animal in state [s]. *)
Definition survives_test (s : HealthState) (proba : Qc) (pig : Atom) : M bool :=
  if is_in_state pig s
  then u ← random_random; mret (negb (bool_decide (u < proba)%Qc))
  else mret true.

(** The random testing of the growers, for the infectious and then for the
    exposed; the two probabilities are [proba_removal_if_I] and
    [proba_removal_if_E]. *)
Definition random_testing (proba_removal_if_I proba_removal_if_E : Qc)
    (growers : list Atom) : M (list Atom) :=
  growers ← filterM (survives_test hs_I proba_removal_if_I) growers;
  filterM (survives_test hs_E proba_removal_if_E) growers.

(* ===================================================================== *)
(** ** [third_trans_pathway] (full-pairwise file)                         *)
(* ===================================================================== *)

(** The state variable [trans_frm_3rd_path] of the pens is kept in a map of
    its own, by pen; a write to it looks the pen up first. *)
Definition set_trans_frm_3rd_path (i : Z) (v : Qc) (rates : gmap Z Qc) : M (gmap Z Qc) :=
  _ ← get_herd i;
  mret (<[i := v]> rates).

(** One round of [for j in range(5)], on the triple [total_I],
    [total_herd], [portion_I]. *)
Definition third_path_round (i : Z) (st : Z * Z * Qc) (j : Z) : M (Z * Z * Qc) :=
  if negb (i =? j) then
    h ← get_herd j;
    let total_I' := st.1.1 + total_I h in
    let total_herd' := total_herd h in
    portion_I ←
      (if negb (total_herd' =? 0)
       then lift (py_truediv (float_of_int total_I') (float_of_int total_herd'))
       else mret st.2);
    mret (total_I', total_herd', portion_I)
  else mret st.

(** The inner loop: [portion_I] for the area [i]. *)
Definition third_path_portion (i : Z) : M Qc :=
  st ← foldM (third_path_round i) (0, 0, 0%Qc) (py_range 0 5);
  mret st.2.

(** The body of [for i in range(5)]: area 4 stands for pens 4 to 15. *)
Definition third_path_area (third_path_trans : Qc) (rates : gmap Z Qc) (i : Z)
  : M (gmap Z Qc) :=
  portion_I ← third_path_portion i;
  if i =? 4
  then foldM (λ rates k, set_trans_frm_3rd_path k (third_path_trans * portion_I)%Qc rates)
             rates (py_range 4 16)
  else set_trans_frm_3rd_path i (third_path_trans * portion_I)%Qc rates.

Definition third_trans_pathway (third_path_trans : Qc) (rates : gmap Z Qc)
  : M (gmap Z Qc) :=
  foldM (third_path_area third_path_trans) rates (py_range 0 5).

(* ===================================================================== *)
(** ** Vocabulary of the properties                                       *)
(* ===================================================================== *)

(** The populations a process leaves, when it returns. *)
Definition herds_after {A} (m : M A) (w : World) : result (gmap Z Herd) :=
  match m w with
  | Ok (_, w') => Ok (herds w')
  | Raise e => Raise e
  end.

(** The rate of pen [i], zero for a pen that does not exist. *)
Definition trans_of (hs : gmap Z Herd) (i : Z) : Qc :=
  match hs !! i with
  | Some h => trans_btwn_pens_frm_movement (statevars h)
  | None => 0%Qc
  end.

(** The entries of the schedule under a step and a source. *)
Definition schedule_entries (m : Schedule) (step source : Z) : option (list (Z * Qc)) :=
  dict_get step m ≫= dict_get source.

(** The rows of the file that belong under a step and a source: not before
    the origin, of that step and of that source. *)
Definition belongs (origin step_duration step source : Z) (r : Row) : bool :=
  (origin <=? row_date r)
  && ((row_date r - origin) / step_duration =? step)
  && (row_source r =? source).

Definition rows_of (origin step_duration step source : Z) (rows : list Row)
  : list (Z * Qc) :=
  map (λ r, (row_dest r, row_duration r))
      (List.filter (belongs origin step_duration step source) rows).

(** A loop in which every sow has her litter, whatever the pen holds. *)
Definition all_litters (p : Parameters) (sows : list Atom) : M (list Atom) :=
  foldM (λ newborn sow, l ← litter p sow; mret (newborn ++ l)) [] sows.

(** The pens [lo] to [hi] exist. *)
Definition has_pens (lo hi : Z) (hs : gmap Z Herd) : Prop :=
  ∀ i, lo ≤ i ≤ hi → is_Some (hs !! i).

(** A check of [has_pens] that computes. *)
Definition has_pens_check (lo hi : Z) (hs : gmap Z Herd) : bool :=
  forallb (λ i, bool_decide (is_Some (hs !! i))) (py_range lo (hi + 1)).

(** A farm of 18 pens, given the animals and the rate of each. *)
Definition farm_of (pens : list (list Atom * Qc)) : gmap Z Herd :=
  list_to_map (enumerate (map (λ '(l, t), mkHerd l (mkStateVars t 0 0)) pens)).

Definition world_of (pens : list (list Atom * Qc)) (tape : nat → Qc) : World :=
  mkWorld (farm_of pens) tape 0.

(** [n] animals of a pen, [k] of them infectious. *)
Definition pigs (g : AgeGroup) (n k : nat) : list Atom :=
  replicate k (mkAtom g hs_I) ++ replicate (n - k) (mkAtom g hs_S).

(** What is seen of pen [i] after a process: [see] of the herd. *)
Definition pen_after {A B} (i : Z) (see : Herd → B) (m : M A) (w : World) : result B :=
  match m w with
  | Ok (_, w') =>
      match herds w' !! i with
      | Some h => Ok (see h)
      | None => Raise KeyError
      end
  | Raise e => Raise e
  end.

(** The value a computation returns. *)
Definition value_of {A} (m : M A) (w : World) : result A :=
  match m w with
  | Ok (a, _) => Ok a
  | Raise e => Raise e
  end.

(** A farm for the examples: pen 3 holds two weaned piglets, one of them
    infectious; pens 4 to 15 hold three fatteners each, one infectious in
    pen 6; the other pens are empty.  All rates are zero. *)
Definition example_farm : list (list Atom * Qc) :=
  [([], 0%Qc); ([], 0%Qc); ([], 0%Qc); (pigs age_Jn 2 1, 0%Qc);
   (pigs age_Jf 3 0, 0%Qc); (pigs age_Jf 3 0, 0%Qc); (pigs age_Jf 3 1, 0%Qc);
   (pigs age_Jf 3 0, 0%Qc); (pigs age_Jf 3 0, 0%Qc); (pigs age_Jf 3 0, 0%Qc);
   (pigs age_Jf 3 0, 0%Qc); (pigs age_Jf 3 0, 0%Qc); (pigs age_Jf 3 0, 0%Qc);
   (pigs age_Jf 3 0, 0%Qc); (pigs age_Jf 3 0, 0%Qc); (pigs age_Jf 3 0, 0%Qc);
   ([], 0%Qc); ([], 0%Qc)].

(** A farm whose 23 fatteners are in pens 4 and 5, one of them infectious:
    the fattening pens 6 to 15 are empty. *)
Definition sparse_farm : list (list Atom * Qc) :=
  [([], 0%Qc); ([], 0%Qc); ([], 0%Qc); (pigs age_Jn 2 1, 0%Qc);
   (pigs age_Jf 12 1, 0%Qc); (pigs age_Jf 11 0, 0%Qc)]
  ++ replicate 12 ([], 0%Qc).

(** The rate of a herd, as a fraction. *)
Definition rate (h : Herd) : Q := this (trans_btwn_pens_frm_movement (statevars h)).

(** Parameters for the examples: 18 pens, a cap of 10 newborns, litters of
    exactly 12, rates of transmission 1, biosecurity as given. *)
Definition example_parameters (biosec : Z) : Parameters :=
  {| nb_herds := 18;
     K_herd := float_of_int 10;
     vert_trans := Q2Qc (1 # 2);
     mean_pba := float_of_int 12;
     sd_pba := 0%Qc;
     max_bp_trans := float_of_int 2;
     min_bp_trans := float_of_int 1;
     mean_bp_trans := float_of_int 1;
     between_herd_trans := float_of_int 1;
     neighboring_herd_trans := float_of_int 1;
     biosec_remove_risky_move := biosec;
     proba_encounter := float_of_int 1;
     proba_trans := float_of_int 1;
     proba_ext_I := float_of_int 1;
     proba_success_biosec_ml := float_of_int 1;
     proba_success_biosec_opt := float_of_int 1;
     proba_success_biosec_pes := float_of_int 1 |}.

(** A computation that reads the world and leaves it as it is. *)
Definition read_only {A} (m : M A) : Prop :=
  ∀ w a w', m w = Ok (a, w') → w' = w.

(** A computation that writes to no pen but [d]. *)
Definition writes_only {A} (d : Z) (m : M A) : Prop :=
  ∀ w a w', m w = Ok (a, w') → ∀ j, j ≠ d → herds w' !! j = herds w !! j.

(** A herd without its rate: what a process that only writes rates leaves
    untouched. *)
Definition forget_trans (h : Herd) : Herd := set_trans 0%Qc h.

(** The risky moves of the specification: from a fattening pen (4 to 15)
    to pens 1 to 3, from pen 1 to pen 2, or from pen 3 to pen 1 or 2. *)
Definition risky_move (source dest : Z) : bool :=
  ((4 <=? source) && (source <=? 15) && (1 <=? dest) && (dest <=? 3))
  || ((source =? 1) && (dest =? 2))
  || ((source =? 3) && (1 <=? dest) && (dest <=? 2)).

(** The aggregates of pen [i] of a farm. *)
Definition total_I_at (hs : gmap Z Herd) (i : Z) : Z :=
  match hs !! i with Some h => total_I h | None => 0 end.
Definition total_herd_at (hs : gmap Z Herd) (i : Z) : Z :=
  match hs !! i with Some h => total_herd h | None => 0 end.

(** The number of fattening pens, 4 to 15, with an infectious animal. *)
Definition infectious_pens (hs : gmap Z Herd) : Z :=
  Z.of_nat (length (List.filter (λ i, 0 <? total_I_at hs i) (py_range 4 16))).

(** Two farms that differ at most in the rates of their pens. *)
Definition only_rates_differ (hs hs' : gmap Z Herd) : Prop :=
  ∀ i, forget_trans <$> hs' !! i = forget_trans <$> hs !! i.

(** Two farms with the same animals in the same pens. *)
Definition same_animals (hs hs' : gmap Z Herd) : Prop :=
  ∀ i, atoms <$> hs' !! i = atoms <$> hs !! i.

(** The counter [nb_of_sampled_I_Jf] of pen [i]. *)
Definition nb_sampled_at (hs : gmap Z Herd) (i : Z) : Z :=
  match hs !! i with Some h => nb_of_sampled_I_Jf (statevars h) | None => 0 end.

(** The denominator of the term that the line variant computes at pen [k],
    and the term itself: one neighbour at the ends of a line, the two
    neighbours pooled inside it. *)
Definition line_denominator (hs : gmap Z Herd) (k : Z) : Z :=
  if (k =? 4) || (k =? 5) then total_herd_at hs (k + 2)
  else if (k =? 14) || (k =? 15) then total_herd_at hs (k - 2)
  else total_herd_at hs (k - 2) + total_herd_at hs (k + 2).

Definition line_numerator (hs : gmap Z Herd) (k : Z) : Z :=
  if (k =? 4) || (k =? 5) then total_I_at hs (k + 2)
  else if (k =? 14) || (k =? 15) then total_I_at hs (k - 2)
  else total_I_at hs (k - 2) + total_I_at hs (k + 2).

Definition line_term_value (p : Parameters) (hs : gmap Z Herd) (k : Z) : Qc :=
  (neighboring_herd_trans p * float_of_int (line_numerator hs k)
   / float_of_int (line_denominator hs k))%Qc.

(** A check that computes: no term of pens 4 to 15 has an empty
    denominator. *)
Definition line_denominators_check (hs : gmap Z Herd) : bool :=
  forallb (λ k, negb (line_denominator hs k =? 0)) (py_range 4 16).

(** The sum of a list of numbers, and the running total of the terms of
    pens 4 to [i]. *)
Definition sum_Qc (l : list Qc) : Qc := foldr Qcplus 0%Qc l.

Definition running_total (term : Z → Qc) (i : Z) : Qc :=
  sum_Qc (map term (py_range 4 (i + 1))).

(** The sum of the terms of a list of pens up to pen [j], the pen
    included. *)
Fixpoint prefix_sum (term : Z → Qc) (l : list Z) (j : Z) : Qc :=
  match l with
  | [] => 0%Qc
  | k :: l' => (term k + (if k =? j then 0 else prefix_sum term l' j))%Qc
  end.

(** The pressure on pen [i] as the specification words it for the line
    variant: from each neighbour of its line, two pens away, that
    neighbour's share of infectious animals, times the rate. *)
Definition neighbour_share (p : Parameters) (hs : gmap Z Herd) (j : Z) : Qc :=
  (neighboring_herd_trans p * float_of_int (total_I_at hs j)
   / float_of_int (total_herd_at hs j))%Qc.

Definition claimed_line_pressure (p : Parameters) (hs : gmap Z Herd) (i : Z) : Qc :=
  ((if 4 <=? i - 2 then neighbour_share p hs (i - 2) else 0)
   + (if i + 2 <=? 15 then neighbour_share p hs (i + 2) else 0))%Qc.

(** A draw that always gives [v], on the tape [tape], and touches no pen. *)
Definition always_draws (v : Qc) (tape : nat → Qc) (draw : M Qc) : Prop :=
  ∀ hs pos, ∃ pos', draw (mkWorld hs tape pos) = Ok (v, mkWorld hs tape pos').

(** [clamp(x, lo, hi)] *)
Definition clamp (x lo hi : Z) : Z := Z.max lo (Z.min hi x).

(** How many of the parts are not empty. *)
Definition nonempty_parts {A} (pens : list (list A)) : Z :=
  Z.of_nat (length (List.filter (λ pen, negb (length pen =? 0)%nat) pens)).

(** The part that goes to pen [j] when the parts are handed out from pen
    [start + 4] on. *)
Definition part_of_pen {A} (start : Z) (pens : list (list A)) (j : Z) : option (list A) :=
  if start + 4 <=? j then pens !! Z.to_nat (j - start - 4) else None.

(** The keys of a dictionary, in order, and the sum of a measure over its
    values. *)
Definition dict_keys {V} (d : dict V) : list Z := map fst d.

Definition dict_sum {V} (f : V → nat) (d : dict V) : nat := sum_list (map (λ kv, f kv.2) d).

(** The number of movements a schedule holds. *)
Definition schedule_size (m : Schedule) : nat :=
  dict_sum (dict_sum (λ l : list (Z * Qc), length l)) m.

(** A schedule is well formed: no step twice, under a step no source
    twice, and no step or source without a movement. *)
Definition schedule_wf (m : Schedule) : Prop :=
  NoDup (dict_keys m)
  ∧ Forall (λ kv : Z * dict (list (Z * Qc)),
              NoDup (dict_keys kv.2) ∧ kv.2 ≠ []
              ∧ Forall (λ sl : Z * list (Z * Qc), sl.2 ≠ []) kv.2) m.

(** The rows of a file that are not before the origin. *)
Definition retained (origin : Z) (rows : list Row) : list Row :=
  List.filter (λ r, origin <=? row_date r) rows.

(** The sum of a list of integers. *)
Definition sum_Z (l : list Z) : Z := foldr Z.add 0 l.

(** The infectious animals and the animals of the fattening pens 4 to 15
    taken together. *)
Definition pooled_I (hs : gmap Z Herd) : Z := sum_Z (map (total_I_at hs) (py_range 4 16)).
Definition pooled_herd (hs : gmap Z Herd) : Z :=
  sum_Z (map (total_herd_at hs) (py_range 4 16)).

(** The contribution of a movement from [source] to [dest], read off the
    animals of a farm: nothing from an empty pen or to a dressing room (16,
    17); otherwise the share of the week, unless the move is risky and
    biosecurity is on, times the rate, times the share of infectious
    animals of the source, where pen 4 stands for pens 4 to 15 together. *)
Definition pressure_value (p : Parameters) (hs : gmap Z Herd) (source dest : Z) (dur : Qc)
  : Qc :=
  if (0 <? total_herd_at hs source) && negb (dest =? 16) && negb (dest =? 17) then
    let share_of_week :=
      if risky_move source dest && (biosec_remove_risky_move p =? 1)
      then 0%Qc else (dur / float_of_int 10080)%Qc in
    if source =? 4 then
      (share_of_week * between_herd_trans p * float_of_int (pooled_I hs)
       / float_of_int (if pooled_herd hs =? 0 then 1 else pooled_herd hs))%Qc
    else
      (share_of_week * between_herd_trans p * float_of_int (total_I_at hs source)
       / float_of_int (total_herd_at hs source))%Qc
  else 0%Qc.

(** What a movement adds to the rate of pen [j]: nothing when it goes from
    a pen to itself or to another pen than [j]; its contribution when it
    goes to [j], counted twelve times when [j] is pen 4. *)
Definition edge_contribution (p : Parameters) (hs : gmap Z Herd) (j : Z)
    (e : Z * Z * Qc) : Qc :=
  if (e.1.1 =? e.1.2) || negb (e.1.2 =? j) then 0%Qc
  else if j =? 4 then (float_of_int 12 * pressure_value p hs e.1.1 e.1.2 e.2)%Qc
  else pressure_value p hs e.1.1 e.1.2 e.2.

(** The movements of a step, in the order in which the process takes
    them, each as (source, destination, duration). *)
Definition step_edges (moves : Schedule) (step : Z) : list (Z * Z * Qc) :=
  match dict_get step moves with
  | Some by_source =>
      flat_map (λ se : Z * list (Z * Qc), map (λ dd : Z * Qc, (se.1, dd.1, dd.2)) se.2)
               by_source
  | None => []
  end.

(** The parameters of the gamma draw can be computed and are accepted:
    no division by zero, and a scale that is not negative. *)
Definition gamma_parameters_ok (p : Parameters) : Prop :=
  max_bp_trans p ≠ min_bp_trans p ∧ (0 < mean_bp_trans p)%Qc.

(** The movements of a step are between pens 0 to 17. *)
Definition step_in_range (moves : Schedule) (step : Z) : Prop :=
  match dict_get step moves with
  | Some by_source =>
      Forall (λ se : Z * list (Z * Qc),
                0 ≤ se.1 ≤ 17 ∧ Forall (λ dd : Z * Qc, 0 ≤ dd.1 ≤ 17) se.2) by_source
  | None => True
  end.

(** The infectious animals and the animals of the fattening pens other
    than pen [i], and the rate that the full-pairwise variant gives pen
    [i]: the rate of transmission times their share of infectious animals,
    zero when these pens are all empty. *)
Definition others_I (hs : gmap Z Herd) (i : Z) : Z :=
  sum_Z (map (total_I_at hs) (List.filter (λ j, negb (j =? i)) (py_range 4 16))).
Definition others_herd (hs : gmap Z Herd) (i : Z) : Z :=
  sum_Z (map (total_herd_at hs) (List.filter (λ j, negb (j =? i)) (py_range 4 16))).

Definition pairwise_value (p : Parameters) (hs : gmap Z Herd) (i : Z) : Qc :=
  (neighboring_herd_trans p
   * (if others_herd hs i =? 0 then 0
      else float_of_int (others_I hs i) / float_of_int (others_herd hs i)))%Qc.

(** The areas other than [i] among pens 0 to 4, the last of a list of pens
    that is not empty, and the portion that the third pathway computes for
    area [i]: the infectious animals of the other areas, over the animals
    of the last of them that is not empty; zero when all are empty. *)
Definition other_areas (i : Z) : list Z :=
  List.filter (λ j, negb (i =? j)) (py_range 0 5).

Definition last_nonempty (hs : gmap Z Herd) (l : list Z) : option Z :=
  last (List.filter (λ j, negb (total_herd_at hs j =? 0)) l).

Definition third_portion (hs : gmap Z Herd) (i : Z) : Qc :=
  match last_nonempty hs (other_areas i) with
  | Some j =>
      (float_of_int (sum_Z (map (total_I_at hs) (other_areas i)))
       / float_of_int (total_herd_at hs j))%Qc
  | None => 0%Qc
  end.

(** A draw that always returns and touches no pen. *)
Definition draws_only (draw : M Qc) : Prop :=
  ∀ w, ∃ v w', draw w = Ok (v, w') ∧ herds w' = herds w.

(** What the external pathway can make of an animal: leave it, or, when it
    is susceptible, infect it from outside.  And of a pen: the same state
    variables, and animal by animal, in order, one of the two. *)
Definition exposed_from (a a' : Atom) : Prop :=
  a' = a ∨ (health_state a = hs_S ∧ a' = apply_prototype infected_outside_farm a).

Definition pen_exposed_from (h h' : Herd) : Prop :=
  statevars h' = statevars h ∧ Forall2 exposed_from (atoms h) (atoms h').

(** The animals of pen [i] of a farm, none for a pen that does not exist. *)
Definition atoms_at (hs : gmap Z Herd) (i : Z) : list Atom :=
  match hs !! i with Some h => atoms h | None => [] end.

(** The counter [nb_new_farrowing_sows] of pen [i]. *)
Definition nb_new_farrowing_sows_at (hs : gmap Z Herd) (i : Z) : Z :=
  match hs !! i with Some h => nb_new_farrowing_sows (statevars h) | None => 0 end.

(** No animal of a list is of the group [g]; all are. *)
Definition none_of_age (g : AgeGroup) (l : list Atom) : Prop :=
  Forall (λ a, age_group a ≠ g) l.
Definition all_of_age (g : AgeGroup) (l : list Atom) : Prop :=
  Forall (λ a, age_group a = g) l.

(** The animals of a list in state [s], counted; an animal that neither
    test looks at; a tape of draws from [0, 1), as [np.random.rand()]
    gives them. *)
Definition in_state_count (s : HealthState) (l : list Atom) : nat :=
  length (List.filter (λ a, is_in_state a s) l).
Definition untested (a : Atom) : bool :=
  negb (is_in_state a hs_I) && negb (is_in_state a hs_E).
Definition unit_interval_tape (w : World) : Prop :=
  ∀ n, (0 ≤ rng_tape w n)%Qc ∧ (rng_tape w n < 1)%Qc.

(** What the loop over the farrowing sows allows a newborn [a] of a sow to
    be, on a tape of draws: made from [newborn_E] when the sow is
    infectious or exposed and a draw fell under [vert_trans], from
    [newborn_S] when the sow is susceptible, from [newborn_M] when she is
    not. *)
Definition born_to (p : Parameters) (tape : nat → Qc) (sow a : Atom) : Prop :=
  (a = new_atom newborn_E
   ∧ is_in_state sow hs_I || is_in_state sow hs_E = true
   ∧ ∃ k, (tape k < vert_trans p)%Qc)
  ∨ (a = new_atom newborn_S ∧ is_in_state sow hs_S = true)
  ∨ (a = new_atom newborn_M ∧ is_in_state sow hs_S = false).

(* ===================================================================== *)
(** * Part II: properties                                                 *)
(* ===================================================================== *)

(** ** Dictionaries *)

Lemma dict_get_set_eq {V} (k : Z) (v : V) (d : dict V) :
  dict_get k (dict_set k v d) = Some v.
Proof.
  induction d as [|[k' v'] d IH]; simpl.
  - by rewrite Z.eqb_refl.
  - destruct (k' =? k) eqn:E; simpl; rewrite ?Z.eqb_refl, ?E; auto.
Qed.

Lemma dict_get_set_ne {V} (k k' : Z) (v : V) (d : dict V) :
  k ≠ k' → dict_get k' (dict_set k v d) = dict_get k' d.
Proof.
  intros Hne. induction d as [|[k0 v0] d IH]; simpl.
  - destruct (k =? k') eqn:E; [lia | done].
  - destruct (k0 =? k) eqn:E; simpl.
    + assert (k0 = k) by lia; subst.
      destruct (k =? k') eqn:E'; [lia | done].
    + destruct (k0 =? k'); auto.
Qed.

Lemma dict_mem_false {V} (k : Z) (d : dict V) :
  dict_mem k d = false → dict_get k d = None.
Proof. unfold dict_mem. by destruct (dict_get k d). Qed.

Lemma dict_mem_true {V} (k : Z) (d : dict V) :
  dict_mem k d = true → ∃ v, dict_get k d = Some v.
Proof. unfold dict_mem. destruct (dict_get k d); [eauto | done]. Qed.

(** ** The preprocessor *)

(** C9. [init_preprocessor] raises [SemanticException] exactly when the
    input files are absent or have no ['trade_file'] entry, and raises
    nothing else; in the life cycle of the preprocessor the exception comes
    out of the set-up, in place of any schedule. *)
Theorem init_preprocessor_raises_iff (input_files : InputFiles) :
  (init_preprocessor input_files = Raise SemanticException
   ↔ input_files = None
     ∨ ∃ files, input_files = Some files ∧ files !! "trade_file"%string = None)
  ∧ (init_preprocessor input_files = Raise SemanticException
     ∨ init_preprocessor input_files = Ok tt)
  ∧ ∀ fs origin step_duration shared,
      preprocess fs input_files origin step_duration shared
      = match init_preprocessor input_files with
        | Raise e => Raise e
        | Ok _ => run_preprocessor fs input_files origin step_duration shared
        end.
Proof.
  split; [|split].
  - unfold init_preprocessor. destruct input_files as [files|].
    + case_bool_decide as Hk; split.
      * intros _. right. eauto.
      * done.
      * done.
      * intros [? | (files' & [= <-] & Hnone)]; [done | congruence].
    + split; [auto | done].
  - unfold init_preprocessor. destruct input_files as [files|]; [|auto].
    case_bool_decide; auto.
  - intros. unfold preprocess.
    destruct (init_preprocessor input_files) as [[]|e]; reflexivity.
Qed.

(** One row: it is appended under its step and its source when it is not
    before the origin, and nothing else changes. *)
Lemma restructure_row_entries (origin step_duration : Z) (moves : Schedule) (r : Row) :
  step_duration ≠ 0 →
  ∃ moves', restructure_row origin step_duration moves r = Ok moves'
    ∧ ∀ step source,
        schedule_entries moves' step source
        = if belongs origin step_duration step source r
          then Some (default [] (schedule_entries moves step source)
                       ++ [(row_dest r, row_duration r)])
          else schedule_entries moves step source.
Proof.
  intros Hsd. unfold restructure_row, belongs.
  destruct (row_date r <? origin) eqn:Hdate.
  { exists moves. split; [done|]. intros step source.
    replace (origin <=? row_date r) with false by lia. done. }
  unfold py_floordiv. replace (step_duration =? 0) with false by lia. simpl.
  set (k0 := (row_date r - origin) / step_duration).
  set (moves1 := if dict_mem k0 moves then moves else dict_set k0 [] moves).
  assert (Hget1 : ∃ by_source, dict_get k0 moves1 = Some by_source
            ∧ ∀ s, dict_get s by_source = dict_get k0 moves ≫= dict_get s).
  { subst moves1. destruct (dict_mem k0 moves) eqn:Hmem.
    - apply dict_mem_true in Hmem as [v Hv]. exists v. rewrite Hv. done.
    - exists []. rewrite dict_get_set_eq. apply dict_mem_false in Hmem.
      rewrite Hmem. done. }
  destruct Hget1 as (by_source & Hget1 & Hinner).
  assert (Hother : ∀ k, k0 ≠ k → dict_get k moves1 = dict_get k moves).
  { intros k Hk. subst moves1. destruct (dict_mem k0 moves); [done|].
    by apply dict_get_set_ne. }
  assert (dict_item k0 moves1 = Ok by_source) as ->
    by (unfold dict_item; by rewrite Hget1).
  simpl.
  set (s0 := row_source r).
  set (by_source1 := if dict_mem s0 by_source then by_source
                     else dict_set s0 [] by_source).
  assert (Hget2 : dict_get s0 by_source1
                  = Some (default [] (dict_get k0 moves ≫= dict_get s0))).
  { subst by_source1. destruct (dict_mem s0 by_source) eqn:Hmem.
    - apply dict_mem_true in Hmem as [v Hv]. rewrite Hv.
      rewrite <- Hinner, Hv. done.
    - rewrite dict_get_set_eq. apply dict_mem_false in Hmem.
      rewrite <- Hinner, Hmem. done. }
  assert (Hother2 : ∀ s, s0 ≠ s → dict_get s by_source1 = dict_get s by_source).
  { intros s Hs. subst by_source1. destruct (dict_mem s0 by_source); [done|].
    by apply dict_get_set_ne. }
  assert (dict_item s0 by_source1
          = Ok (default [] (dict_get k0 moves ≫= dict_get s0))) as ->
    by (unfold dict_item; by rewrite Hget2).
  simpl.
  eexists. split; [reflexivity|].
  intros step source. unfold schedule_entries.
  replace (origin <=? row_date r) with true by lia. simpl.
  destruct (decide (k0 = step)) as [<-|Hk].
  - rewrite Z.eqb_refl, dict_get_set_eq. simpl.
    destruct (decide (s0 = source)) as [<-|Hs].
    + rewrite Z.eqb_refl, dict_get_set_eq. done.
    + replace (s0 =? source) with false by lia.
      rewrite dict_get_set_ne, Hother2, Hinner by done. done.
  - replace (k0 =? step) with false by lia. simpl.
    rewrite dict_get_set_ne, Hother by done. done.
Qed.

Lemma restructure_rows_entries (origin step_duration : Z) (rows : list Row) :
  step_duration ≠ 0 →
  ∀ moves, ∃ moves', restructure_rows origin step_duration moves rows = Ok moves'
    ∧ ∀ step source,
        schedule_entries moves' step source
        = match rows_of origin step_duration step source rows with
          | [] => schedule_entries moves step source
          | new => Some (default [] (schedule_entries moves step source) ++ new)
          end.
Proof.
  intros Hsd. induction rows as [|r rows IH]; intros moves; simpl.
  - exists moves. done.
  - destruct (restructure_row_entries origin step_duration moves r Hsd)
      as (moves1 & -> & H1). simpl.
    destruct (IH moves1) as (moves2 & -> & H2).
    exists moves2. split; [done|]. intros step source.
    rewrite H2, H1. unfold rows_of. simpl.
    destruct (belongs origin step_duration step source r); simpl.
    + destruct (map _ (List.filter _ rows)) as [|x l]; [done|].
      by rewrite <- app_assoc.
    + done.
Qed.

(** C7. The schedule built from the rows of the file, for a step duration
    that is not zero: under each step and source are the (destination,
    duration) pairs of the rows dated on or after the origin whose step
    [floor((date - origin) / step_duration)] and source are these, all of
    them and in the order of the file, repeated rows repeated; there is
    no entry where no row belongs. *)
Theorem restructure_moves_schedule (origin step_duration : Z) (rows : list Row) :
  step_duration ≠ 0 →
  ∃ moves, restructure_moves origin step_duration rows = Ok moves
    ∧ ∀ step source,
        schedule_entries moves step source
        = match rows_of origin step_duration step source rows with
          | [] => None
          | entries => Some entries
          end.
Proof.
  intros Hsd.
  destruct (restructure_rows_entries origin step_duration rows Hsd [])
    as (moves & Hrun & Hentries).
  exists moves. split; [exact Hrun|].
  intros step source. rewrite Hentries. done.
Qed.

(** ** Splitting the growers *)

Lemma slices_reshape {A} (szs : list nat) (a : nat) (l : list A) :
  map (λ i, slice ((a :: cumsum_from a szs) !!! i)
                  ((a :: cumsum_from a szs) !!! S i) l)
      (seq 0 (length szs))
  = reshape szs (drop a l).
Proof.
  revert a. induction szs as [|s szs IH]; intros a; [done|].
  cbn [length seq map reshape cumsum_from]. f_equal.
  - unfold slice. simpl. f_equal. lia.
  - rewrite <- fmap_S_seq, drop_drop, <- IH.
    rewrite <- list_fmap_compose. reflexivity.
Qed.

Lemma length_section_sizes (T N : nat) :
  (0 < N)%nat → length (section_sizes T N) = N.
Proof.
  intros HN. unfold section_sizes.
  rewrite length_app, !length_replicate.
  pose proof (Nat.mod_upper_bound T N). lia.
Qed.

Lemma sum_list_app (l k : list nat) : sum_list (l ++ k) = (sum_list l + sum_list k)%nat.
Proof. induction l; simpl; lia. Qed.

Lemma sum_section_sizes (T N : nat) :
  (0 < N)%nat → sum_list (section_sizes T N) = T.
Proof.
  intros HN. unfold section_sizes.
  rewrite sum_list_app, !sum_list_replicate.
  pose proof (Nat.mod_upper_bound T N ltac:(lia)) as Hlt.
  pose proof (Nat.div_mod_eq T N) as Hdm.
  set (q := (T / N)%nat) in *. set (e := (T `mod` N)%nat) in *.
  clearbody q e.
  rewrite Nat.mul_sub_distr_r.
  assert (e * q ≤ N * q)%nat by nia. lia.
Qed.

Lemma Forall_section_sizes (T N : nat) :
  Forall (λ s, s = (T / N)%nat ∨ s = (T / N + 1)%nat) (section_sizes T N).
Proof.
  unfold section_sizes. apply Forall_app. split; apply Forall_replicate; auto.
Qed.

Lemma lengths_reshape {A} (szs : list nat) (l : list A) :
  (sum_list szs ≤ length l)%nat → length <$> reshape szs l = szs.
Proof.
  revert l. induction szs as [|s szs IH]; intros l Hle; simpl in *; [done|].
  rewrite length_take, IH by (rewrite length_drop; lia).
  f_equal. lia.
Qed.

Lemma concat_reshape {A} (szs : list nat) (l : list A) :
  sum_list szs = length l → concat (reshape szs l) = l.
Proof.
  revert l. induction szs as [|s szs IH]; intros l Hsum; simpl in *.
  - symmetry in Hsum. by apply length_zero_iff_nil in Hsum.
  - rewrite IH by (rewrite length_drop; lia). apply take_drop.
Qed.

(** [array_split] cuts the list at the sizes of [section_sizes]. *)
Lemma array_split_reshape {A} (ary : list A) (sections : Z) :
  0 < sections →
  array_split ary sections
  = Ok (reshape (section_sizes (length ary) (Z.to_nat sections)) ary).
Proof.
  intros Hpos. unfold array_split.
  replace (sections <=? 0) with false by lia. f_equal.
  pose proof (slices_reshape (section_sizes (length ary) (Z.to_nat sections)) 0 ary) as H.
  rewrite length_section_sizes in H by lia. exact H.
Qed.

Lemma nb_parts_range {A} (growers : list A) : 1 ≤ nb_parts growers ≤ 12.
Proof.
  unfold nb_parts. destruct (0 <? _) eqn:H0; [|lia].
  destruct (_ =? 0) eqn:H1; [lia|].
  destruct (12 <? _) eqn:H2; [lia|].
  pose proof (Z.div_pos (Z.of_nat (length growers)) 12). lia.
Qed.

Lemma nb_parts_clamp {A} (growers : list A) :
  nb_parts growers = clamp (Z.of_nat (length growers) / 12) 1 12.
Proof.
  unfold nb_parts, clamp.
  pose proof (Z.div_pos (Z.of_nat (length growers)) 12 ltac:(lia) ltac:(lia)).
  destruct (0 <? _) eqn:H0.
  - destruct (_ =? 0) eqn:H1; [lia|]. destruct (12 <? _) eqn:H2; lia.
  - assert (length growers = 0%nat) as -> by lia. reflexivity.
Qed.

Lemma nb_parts_le_length {A} (growers : list A) :
  growers ≠ [] → nb_parts growers ≤ Z.of_nat (length growers).
Proof.
  intros Hne. assert (0 < length growers)%nat.
  { destruct growers; [done | simpl; lia]. }
  unfold nb_parts. replace (0 <? _) with true by lia.
  pose proof (Z.div_le_upper_bound (Z.of_nat (length growers)) 12
                (Z.of_nat (length growers))).
  destruct (_ =? 0) eqn:H1; [lia|]. destruct (12 <? _) eqn:H2; lia.
Qed.

(** ** Running the monad *)

Lemma bind_Ok {A B} (m : M A) (f : A → M B) (w w' : World) (a : A) :
  m w = Ok (a, w') → (m ≫= f) w = f a w'.
Proof. intros H. unfold mbind, M_bind. by rewrite H. Qed.

Lemma bind_Raise {A B} (m : M A) (f : A → M B) (w : World) (e : exn) :
  m w = Raise e → (m ≫= f) w = Raise e.
Proof. intros H. unfold mbind, M_bind. by rewrite H. Qed.

Lemma get_herd_Some (i : Z) (w : World) (h : Herd) :
  herds w !! i = Some h → get_herd i w = Ok (h, w).
Proof. intros H. unfold get_herd. by rewrite H. Qed.

Lemma update_herd_Some (i : Z) (f : Herd → Herd) (w : World) (h : Herd) :
  herds w !! i = Some h →
  update_herd i f w = Ok (tt, mkWorld (<[i := f h]> (herds w)) (rng_tape w) (rng_pos w)).
Proof. intros H. unfold update_herd. by rewrite H. Qed.

Lemma has_pens_check_sound (lo hi : Z) (hs : gmap Z Herd) :
  has_pens_check lo hi hs = true → has_pens lo hi hs.
Proof.
  unfold has_pens_check, py_range. intros H i Hi.
  rewrite forallb_forall in H.
  specialize (H i). rewrite bool_decide_eq_true in H. apply H.
  apply list_elem_of_In, elem_of_seqZ. lia.
Qed.

Lemma has_pens_insert (lo hi i : Z) (h : Herd) (hs : gmap Z Herd) :
  has_pens lo hi hs → has_pens lo hi (<[i := h]> hs).
Proof.
  intros H j Hj. destruct (decide (i = j)) as [->|Hne].
  - rewrite lookup_insert_eq. eauto.
  - rewrite lookup_insert_ne by done. auto.
Qed.

(** ** The order inside a pen *)

Lemma filter_Permutation (P : Atom → bool) (l l' : list Atom) :
  l ≡ₚ l' → List.filter P l ≡ₚ List.filter P l'.
Proof.
  induction 1 as [|a l l' _ IH|a b l|l1 l2 l3 _ IH1 _ IH2]; cbn.
  - done.
  - destruct (P a); by rewrite IH.
  - destruct (P a), (P b); by try apply perm_swap.
  - by etrans.
Qed.

(** The totals of a pen do not depend on the order of its animals, and
    the selection of an age group depends on it by its own order only. *)
Lemma count_atoms_perm (P : Atom → bool) (h h' : Herd) :
  atoms h ≡ₚ atoms h' → count_atoms P h = count_atoms P h'.
Proof.
  intros H. unfold count_atoms. f_equal.
  apply Permutation_length. by apply filter_Permutation.
Qed.

Lemma total_herd_perm (h h' : Herd) :
  atoms h ≡ₚ atoms h' → total_herd h = total_herd h'.
Proof. intros H. unfold total_herd. f_equal. by apply Permutation_length. Qed.

Lemma select_atoms_age_perm (g : AgeGroup) (h h' : Herd) :
  atoms h ≡ₚ atoms h' → select_atoms_age g h ≡ₚ select_atoms_age g h'.
Proof. apply filter_Permutation. Qed.

Lemma add_atoms_perm (l l' : list Atom) (h h' : Herd) :
  l ≡ₚ l' → atoms h ≡ₚ atoms h' →
  atoms (add_atoms l h) ≡ₚ atoms (add_atoms l' h').
Proof. intros Hl Hh. unfold add_atoms. cbn. by rewrite Hl, Hh. Qed.

(** ** Transfer to the fattening pens *)

Lemma transfer_loop (pens : list (list Atom)) :
  ∀ (start : Z) (w : World),
    has_pens (start + 4) (start + 3 + Z.of_nat (length pens)) (herds w) →
    ∃ hs', for_each (enumerate_from start pens)
             (λ '(i, pen), update_herd (i + 4) (add_atoms pen)) w
           = Ok (tt, mkWorld hs' (rng_tape w) (rng_pos w))
      ∧ ∀ j, hs' !! j = match part_of_pen start pens j with
                        | Some pen => add_atoms pen <$> herds w !! j
                        | None => herds w !! j
                        end.
Proof.
  induction pens as [|pen pens IH]; intros start w Hpens.
  - exists (herds w). split; [by destruct w|].
    intros j. unfold part_of_pen. destruct (_ <=? _); by rewrite ?lookup_nil.
  - destruct (Hpens (start + 4)) as [h Hh]; [simpl; lia|].
    unfold for_each. cbn [enumerate_from foldM].
    erewrite bind_Ok by (by apply update_herd_Some).
    set (w1 := mkWorld _ _ _).
    destruct (IH (start + 1) w1) as (hs' & Hrun & Hlook).
    { subst w1. simpl. apply has_pens_insert.
      intros j Hj. apply Hpens. simpl. lia. }
    exists hs'. split; [exact Hrun|].
    intros j. rewrite Hlook. subst w1. unfold part_of_pen. simpl.
    destruct (decide (j = start + 4)) as [->|Hne].
    + replace (start + 1 + 4 <=? start + 4) with false by lia.
      replace (start + 4 <=? start + 4) with true by lia.
      replace (Z.to_nat (start + 4 - start - 4)) with 0%nat by lia.
      simpl. rewrite lookup_insert_eq, Hh. done.
    + rewrite lookup_insert_ne by done.
      destruct (start + 4 <=? j) eqn:Hle.
      * replace (start + 1 + 4 <=? j) with true by lia.
        replace (Z.to_nat (j - start - 4)) with (S (Z.to_nat (j - (start + 1) - 4))) by lia.
        done.
      * replace (start + 1 + 4 <=? j) with false by lia. done.
Qed.

Lemma nonempty_parts_all {A} (pens : list (list A)) :
  Forall (λ pen, (0 < length pen)%nat) pens →
  nonempty_parts pens = Z.of_nat (length pens).
Proof.
  unfold nonempty_parts. intros H. f_equal.
  induction H as [|pen pens Hpen _ IH]; simpl; [done|].
  destruct (length pen) eqn:E; [lia|]. simpl. by rewrite IH.
Qed.

(** C6 (amended). The pool is cut into [n = clamp(floor(P / 12), 1, 12)]
    parts, whose concatenation is the pool itself (contiguous, in pool
    order, nobody twice and nobody lost) and whose sizes are
    [floor(P / n)] or one more; none is empty when the pool is not, and the
    single part of an empty pool is empty; part [k] is added to pen
    [4 + k], which then holds the animals it held and those of the part,
    and the other pens are as they were. *)
Theorem grower_redistribution (growers : list Atom) (w : World) :
  has_pens 4 15 (herds w) →
  ∃ pens hs',
    array_split growers (nb_parts growers) = Ok pens
    ∧ nb_parts growers = clamp (Z.of_nat (length growers) / 12) 1 12
    ∧ Z.of_nat (length pens) = nb_parts growers
    ∧ concat pens = growers
    ∧ Forall (λ pen,
        length pen = (length growers / Z.to_nat (nb_parts growers))%nat
        ∨ length pen = (length growers / Z.to_nat (nb_parts growers) + 1)%nat) pens
    ∧ nonempty_parts pens = (if bool_decide (growers = []) then 0 else nb_parts growers)
    ∧ herds_after (transfer_to_fattening_pens growers) w = Ok hs'
    ∧ ∀ j, match part_of_pen 0 pens j with
           | Some pen =>
               ∃ h h', herds w !! j = Some h ∧ hs' !! j = Some h'
                       ∧ statevars h' = statevars h
                       ∧ atoms h' ≡ₚ atoms h ++ pen
           | None => hs' !! j = herds w !! j
           end.
Proof.
  intros Hpens.
  pose proof (nb_parts_range growers) as Hn.
  set (n := nb_parts growers) in *.
  set (szs := section_sizes (length growers) (Z.to_nat n)).
  assert (Hsplit : array_split growers n = Ok (reshape szs growers))
    by (apply array_split_reshape; lia).
  assert (Hlen : length (reshape szs growers) = Z.to_nat n).
  { rewrite length_reshape. apply length_section_sizes. lia. }
  assert (Hsum : sum_list szs = length growers)
    by (apply sum_section_sizes; lia).
  assert (Hsizes : length <$> reshape szs growers = szs)
    by (apply lengths_reshape; lia).
  destruct (transfer_loop (reshape szs growers) 0 w) as (hs' & Hrun & Hlook).
  { intros j Hj. apply Hpens. lia. }
  exists (reshape szs growers), hs'.
  split; [exact Hsplit|]. split; [apply nb_parts_clamp|].
  split; [lia|]. split; [by apply concat_reshape|].
  split; [|split; [|split]].
  - pose proof (Forall_section_sizes (length growers) (Z.to_nat n)) as HF.
    fold szs in HF. rewrite <- Hsizes in HF.
    by apply Forall_fmap in HF.
  - case_bool_decide as Hnil.
    + subst growers. reflexivity.
    + rewrite nonempty_parts_all; [lia|].
      pose proof (nb_parts_le_length growers Hnil) as Hle. fold n in Hle.
      pose proof (Forall_section_sizes (length growers) (Z.to_nat n)) as HF.
      fold szs in HF. rewrite <- Hsizes in HF. apply Forall_fmap in HF.
      assert (1 ≤ length growers / Z.to_nat n)%nat.
      { apply Nat.div_le_lower_bound; lia. }
      eapply Forall_impl; [exact HF|]. simpl. intros pen [-> | ->]; lia.
  - unfold herds_after, transfer_to_fattening_pens. fold n.
    erewrite bind_Ok by (unfold lift; rewrite Hsplit; reflexivity).
    unfold enumerate. by rewrite Hrun.
  - intros j. specialize (Hlook j).
    destruct (part_of_pen 0 (reshape szs growers) j) as [pen|] eqn:Hpart;
      [|exact Hlook].
    assert (Hj : 4 ≤ j ≤ 15).
    { unfold part_of_pen in Hpart. destruct (0 + 4 <=? j) eqn:E; [|done].
      apply lookup_lt_Some in Hpart. rewrite Hlen in Hpart. lia. }
    destruct (Hpens j Hj) as [h Hh]. rewrite Hh in Hlook.
    exists h, (add_atoms pen h). done.
Qed.

(** The same at a farm with empty pens and a pool of 25 growers. *)
Lemma grower_redistribution_witness :
  has_pens 4 15 (herds (world_of (replicate 18 ([], 0%Qc)) (λ _, 0%Qc)))
  ∧ ∃ pens hs',
    array_split (pigs age_Jf 25 3) (nb_parts (pigs age_Jf 25 3)) = Ok pens
    ∧ nb_parts (pigs age_Jf 25 3)
      = clamp (Z.of_nat (length (pigs age_Jf 25 3)) / 12) 1 12
    ∧ Z.of_nat (length pens) = nb_parts (pigs age_Jf 25 3)
    ∧ concat pens = pigs age_Jf 25 3
    ∧ Forall (λ pen,
        length pen
        = (length (pigs age_Jf 25 3) / Z.to_nat (nb_parts (pigs age_Jf 25 3)))%nat
        ∨ length pen
          = (length (pigs age_Jf 25 3) / Z.to_nat (nb_parts (pigs age_Jf 25 3)) + 1)%nat)
        pens
    ∧ nonempty_parts pens
      = (if bool_decide (pigs age_Jf 25 3 = []) then 0 else nb_parts (pigs age_Jf 25 3))
    ∧ herds_after (transfer_to_fattening_pens (pigs age_Jf 25 3))
        (world_of (replicate 18 ([], 0%Qc)) (λ _, 0%Qc)) = Ok hs'
    ∧ ∀ j, match part_of_pen 0 pens j with
           | Some pen =>
               ∃ h h',
                 herds (world_of (replicate 18 ([], 0%Qc)) (λ _, 0%Qc)) !! j = Some h
                 ∧ hs' !! j = Some h'
                 ∧ statevars h' = statevars h
                 ∧ atoms h' ≡ₚ atoms h ++ pen
           | None =>
               hs' !! j = herds (world_of (replicate 18 ([], 0%Qc)) (λ _, 0%Qc)) !! j
           end.
Proof.
  assert (H : has_pens 4 15 (herds (world_of (replicate 18 ([], 0%Qc)) (λ _, 0%Qc))))
    by (apply has_pens_check_sound; vm_compute; reflexivity).
  split; [exact H|].
  exact (grower_redistribution _ _ H).
Defined.

(** C6, as the claim has it, fails for the empty pool: its single part is
    empty, so no pen receives a part that is not, where the clamp is 1. *)
Lemma empty_pool_fills_no_pen :
  ∃ pens : list (list Atom),
    array_split [] (nb_parts (@nil Atom)) = Ok pens
    ∧ pens = [[]]
    ∧ nonempty_parts pens = 0
    ∧ clamp (Z.of_nat (length (@nil Atom)) / 12) 1 12 = 1
    ∧ nonempty_parts pens ≠ clamp (Z.of_nat (length (@nil Atom)) / 12) 1 12.
Proof. exists [[]]. do 4 (split; [reflexivity|]). vm_compute. discriminate. Qed.

(** ** Production of the newborns *)

(** A litter is always made, of newborn piglets, and leaves the pens as
    they are. *)
Lemma litter_run (p : Parameters) (sow : Atom) (w : World) :
  ∃ l w', litter p sow w = Ok (l, w')
    ∧ herds w' = herds w
    ∧ Forall (λ a, age_group a = age_Jnb) l.
Proof.
  unfold litter, newborn_prototype, random_gauss, random_random, random_draw.
  unfold mbind, M_bind, mret, M_ret.
  destruct (is_in_state sow hs_I || is_in_state sow hs_E);
    (eexists _, _; split; [reflexivity|]; split; [reflexivity|]);
    apply Forall_replicate; reflexivity.
Qed.

Lemma all_litters_run (p : Parameters) (sows : list Atom) :
  ∀ (acc : list Atom) (w : World),
    Forall (λ a, age_group a = age_Jnb) acc →
    ∃ newborn w',
      foldM (λ newborn sow, l ← litter p sow; mret (newborn ++ l)) acc sows w
      = Ok (newborn, w')
      ∧ herds w' = herds w
      ∧ Forall (λ a, age_group a = age_Jnb) newborn.
Proof.
  induction sows as [|sow sows IH]; intros acc w Hacc; simpl.
  - exists acc, w. done.
  - destruct (litter_run p sow w) as (l & w1 & Hl & Hh & HF).
    erewrite bind_Ok by (erewrite bind_Ok by exact Hl; reflexivity).
    destruct (IH (acc ++ l) w1) as (nb & w2 & Hrun & Hh2 & HF2).
    { apply Forall_app. done. }
    exists nb, w2. rewrite Hrun. split; [done|]. split; [congruence | done].
Qed.

(** Under the cap at the start of the loop, the loop is the one in which
    every sow has her litter. *)
Lemma newborn_loop_under_cap (p : Parameters) (pen : Herd) (sows : list Atom) :
  (float_of_int (total_Jnb pen) < K_herd p)%Qc →
  ∀ (acc : list Atom) (w : World),
    herds w !! 2 = Some pen →
    foldM (newborn_round p) acc sows w
    = foldM (λ newborn sow, l ← litter p sow; mret (newborn ++ l)) acc sows w.
Proof.
  intros Hcap. induction sows as [|sow sows IH]; intros acc w Hpen; simpl; [done|].
  destruct (litter_run p sow w) as (l & w1 & Hl & Hh & _).
  assert (Hround : newborn_round p acc sow w = Ok (acc ++ l, w1)).
  { unfold newborn_round. erewrite bind_Ok by (by apply get_herd_Some).
    rewrite bool_decide_eq_true_2 by done.
    erewrite bind_Ok by exact Hl. reflexivity. }
  erewrite bind_Ok by exact Hround.
  erewrite (bind_Ok (litter p sow ≫= _)) by (erewrite bind_Ok by exact Hl; reflexivity).
  apply IH. congruence.
Qed.

(** At the cap or above it, the loop makes nothing and draws nothing. *)
Lemma newborn_loop_at_cap (p : Parameters) (pen : Herd) (sows : list Atom) :
  ¬ (float_of_int (total_Jnb pen) < K_herd p)%Qc →
  ∀ (acc : list Atom) (w : World),
    herds w !! 2 = Some pen →
    foldM (newborn_round p) acc sows w = Ok (acc, w).
Proof.
  intros Hcap. induction sows as [|sow sows IH]; intros acc w Hpen; simpl; [done|].
  assert (Hround : newborn_round p acc sow w = Ok (acc, w)).
  { unfold newborn_round. erewrite bind_Ok by (by apply get_herd_Some).
    rewrite bool_decide_eq_false_2 by done. reflexivity. }
  erewrite bind_Ok by exact Hround. by apply IH.
Qed.

Lemma total_Jnb_add_atoms (newborn : list Atom) (pen : Herd) :
  Forall (λ a, age_group a = age_Jnb) newborn →
  total_Jnb (add_atoms newborn pen) = total_Jnb pen + Z.of_nat (length newborn).
Proof.
  intros HF. unfold total_Jnb, count_atoms, add_atoms. simpl.
  rewrite List.filter_app, length_app, Nat2Z.inj_add. f_equal. f_equal.
  induction HF as [|a l Ha _ IH]; simpl; [done|].
  rewrite bool_decide_eq_true_2 by done. simpl. by rewrite IH.
Qed.

(** Two sows farrow into a pen without newborns under a cap of 10: both
    have a litter of 12, and the pen ends with 24 newborns. *)
Lemma newborn_overshoot :
  farm_of (replicate 18 ([], 0%Qc)) !! 2 = Some (mkHerd [] (mkStateVars 0%Qc 0 0))
  ∧ (float_of_int (total_Jnb (mkHerd [] (mkStateVars 0%Qc 0 0)))
     < K_herd (example_parameters 0))%Qc
  ∧ pen_after 2 total_Jnb
      (produce_newborns (example_parameters 0) (pigs age_F 2 0))
      (world_of (replicate 18 ([], 0%Qc)) (λ _, 0%Qc))
    = Ok 24
  ∧ (K_herd (example_parameters 0) < float_of_int 24)%Qc.
Proof. repeat split; vm_compute; reflexivity. Qed.

(** C4. The loop over the farrowing sows leaves every pen as it was, so the
    count of newborns that the cap is compared with is, at every sow, the
    one of the start of the loop: under the cap every sow has her litter,
    at the cap or above it none has; the newborns made are added after the
    loop, all at once, and the count can then exceed the cap. *)
Theorem newborn_cap_checked_at_loop_start
    (p : Parameters) (sows : list Atom) (w : World) (pen : Herd) :
  herds w !! 2 = Some pen →
  ∃ newborn w',
    newborn_loop p sows w = Ok (newborn, w')
    ∧ herds w' = herds w
    ∧ ((float_of_int (total_Jnb pen) < K_herd p)%Qc →
       newborn_loop p sows w = all_litters p sows w)
    ∧ (¬ (float_of_int (total_Jnb pen) < K_herd p)%Qc → newborn = [] ∧ w' = w)
    ∧ (∃ hs' pen',
         herds_after (produce_newborns p sows) w = Ok hs'
         ∧ (∀ j, j ≠ 2 → hs' !! j = herds w !! j)
         ∧ hs' !! 2 = Some pen'
         ∧ total_Jnb pen' = total_Jnb pen + Z.of_nat (length newborn))
    ∧ (∃ p0 sows0 w0 pen0 n,
         herds w0 !! 2 = Some pen0
         ∧ (float_of_int (total_Jnb pen0) < K_herd p0)%Qc
         ∧ pen_after 2 total_Jnb (produce_newborns p0 sows0) w0 = Ok n
         ∧ (K_herd p0 < float_of_int n)%Qc).
Proof.
  intros Hpen.
  assert (Hloop : ∃ newborn w',
            newborn_loop p sows w = Ok (newborn, w')
            ∧ herds w' = herds w
            ∧ Forall (λ a, age_group a = age_Jnb) newborn
            ∧ (¬ (float_of_int (total_Jnb pen) < K_herd p)%Qc → newborn = [] ∧ w' = w)).
  { unfold newborn_loop.
    destruct (decide (float_of_int (total_Jnb pen) < K_herd p)%Qc) as [Hcap|Hcap].
    - rewrite (newborn_loop_under_cap p pen sows Hcap [] w Hpen).
      destruct (all_litters_run p sows [] w) as (nb & w' & Hrun & Hh & HF); [done|].
      exists nb, w'. done.
    - rewrite (newborn_loop_at_cap p pen sows Hcap [] w Hpen).
      exists [], w. done. }
  destruct Hloop as (newborn & w' & Hrun & Hh & HF & Hcapped).
  exists newborn, w'. split; [exact Hrun|]. split; [exact Hh|].
  split; [|split; [exact Hcapped|split]].
  - intros Hcap. unfold newborn_loop, all_litters.
    by apply newborn_loop_under_cap with pen.
  - unfold herds_after, produce_newborns.
    erewrite bind_Ok by exact Hrun.
    destruct newborn as [|a newborn].
    + exists (herds w), pen. simpl. rewrite Hh.
      split; [done|]. split; [done|]. split; [done|]. lia.
    + cbn [length Nat.eqb negb].
      erewrite update_herd_Some by (rewrite Hh; exact Hpen).
      eexists _, _. split; [reflexivity|]. cbn [herds]. rewrite Hh.
      split; [|split].
      * intros j Hj. by rewrite lookup_insert_ne.
      * apply lookup_insert_eq.
      * by apply total_Jnb_add_atoms.
  - destruct newborn_overshoot as (H1 & H2 & H3 & H4).
    exists (example_parameters 0), (pigs age_F 2 0),
      (world_of (replicate 18 ([], 0%Qc)) (λ _, 0%Qc)),
      (mkHerd [] (mkStateVars 0%Qc 0 0)), 24.
    split; [exact H1|]. split; [exact H2|]. split; [exact H3 | exact H4].
Qed.

(** The same at the farm of [newborn_overshoot]. *)
Lemma newborn_cap_checked_at_loop_start_witness :
  herds (world_of (replicate 18 ([], 0%Qc)) (λ _, 0%Qc)) !! 2
  = Some (mkHerd [] (mkStateVars 0%Qc 0 0))
  ∧ ∃ newborn w',
      newborn_loop (example_parameters 0) (pigs age_F 2 0)
        (world_of (replicate 18 ([], 0%Qc)) (λ _, 0%Qc)) = Ok (newborn, w')
      ∧ length newborn = 24%nat.
Proof.
  assert (H : herds (world_of (replicate 18 ([], 0%Qc)) (λ _, 0%Qc)) !! 2
              = Some (mkHerd [] (mkStateVars 0%Qc 0 0)))
    by (vm_compute; reflexivity).
  split; [exact H|].
  destruct (newborn_cap_checked_at_loop_start (example_parameters 0) (pigs age_F 2 0)
              _ _ H) as (newborn & w' & Hrun & _ & _ & _ & _ & _).
  exists newborn, w'. split; [exact Hrun|].
  revert Hrun. vm_compute. intros [= <- _]. reflexivity.
Defined.

(** The rows of a small file, the first before the origin 10, two of them
    the same; steps of 7. *)
Lemma restructure_moves_schedule_witness :
  7 ≠ 0
  ∧ ∃ moves,
      restructure_moves 10 7
        [mkRow 3 1 2 0%Qc; mkRow 10 1 2 1%Qc; mkRow 18 3 4 1%Qc;
         mkRow 12 1 5 0%Qc; mkRow 18 3 4 1%Qc] = Ok moves
      ∧ ∀ step source,
          schedule_entries moves step source
          = match rows_of 10 7 step source
                    [mkRow 3 1 2 0%Qc; mkRow 10 1 2 1%Qc; mkRow 18 3 4 1%Qc;
                     mkRow 12 1 5 0%Qc; mkRow 18 3 4 1%Qc] with
            | [] => None
            | entries => Some entries
            end.
Proof.
  assert (H : 7 ≠ 0) by lia.
  split; [exact H|].
  exact (restructure_moves_schedule 10 7 _ H).
Defined.

(** ** More on running the monad *)

Lemma bind_Ok_inv {A B} (m : M A) (f : A → M B) (w w' : World) (b : B) :
  (m ≫= f) w = Ok (b, w') → ∃ a w1, m w = Ok (a, w1) ∧ f a w1 = Ok (b, w').
Proof.
  unfold mbind, M_bind. destruct (m w) as [[a w1]|e]; [eauto | done].
Qed.

Lemma read_only_ret {A} (a : A) : read_only (mret a).
Proof. intros w a' w' [= _ <-]. done. Qed.

Lemma read_only_bind {A B} (m : M A) (f : A → M B) :
  read_only m → (∀ a, read_only (f a)) → read_only (m ≫= f).
Proof.
  intros Hm Hf w b w' Hrun.
  apply bind_Ok_inv in Hrun as (a & w1 & H1 & H2).
  apply Hm in H1 as ->. by apply Hf in H2.
Qed.

Lemma read_only_get_herd (i : Z) : read_only (get_herd i).
Proof. intros w h w'. unfold get_herd. destruct (herds w !! i); by intros [= _ <-]. Qed.

Lemma read_only_lift {A} (r : result A) : read_only (lift r).
Proof. intros w a w'. unfold lift. destruct r; by intros [= _ <-]. Qed.

Lemma read_only_foldM {A B} (body : B → A → M B) (l : list A) :
  (∀ b x, read_only (body b x)) → ∀ b, read_only (foldM body b l).
Proof.
  intros Hbody. induction l as [|x l IH]; intros b; simpl.
  - apply read_only_ret.
  - apply read_only_bind; auto.
Qed.

(** A loop of reads over pens that exist returns. *)
Lemma foldM_reads {B} (g : B → Herd → B) (key : Z → Z) (l : list Z) :
  ∀ (b : B) (w : World),
    (∀ i, i ∈ l → is_Some (herds w !! key i)) →
    ∃ b', foldM (λ acc i, h ← get_herd (key i); mret (g acc h)) b l w = Ok (b', w).
Proof.
  induction l as [|x l IH]; intros b w Hl; simpl.
  - by exists b.
  - destruct (Hl x) as [h Hh]; [by left|].
    erewrite bind_Ok
      by (erewrite bind_Ok by (by apply get_herd_Some); reflexivity).
    apply IH. intros i Hi. apply Hl. by right.
Qed.

Lemma elem_of_py_range (i lo hi : Z) : i ∈ py_range lo hi ↔ lo ≤ i < hi.
Proof. unfold py_range. rewrite elem_of_seqZ. lia. Qed.

(** ** Numbers *)

Lemma float_of_int_0_iff (z : Z) : float_of_int z = 0%Qc ↔ z = 0.
Proof.
  unfold float_of_int. split; [|by intros ->].
  intros H. apply (f_equal this) in H. simpl in H.
  pose proof (Qred_correct (inject_Z z)) as Hred.
  rewrite H in Hred. unfold Qeq in Hred. simpl in Hred. lia.
Qed.

Lemma py_truediv_nonzero (x y : Qc) :
  y ≠ 0%Qc → py_truediv x y = Ok (x / y)%Qc.
Proof. intros H. unfold py_truediv. by rewrite bool_decide_eq_false_2. Qed.

Lemma py_truediv_Ok_inv (x y v : Qc) :
  py_truediv x y = Ok v → y ≠ 0%Qc ∧ v = (x / y)%Qc.
Proof. unfold py_truediv. case_bool_decide; [done | by intros [= <-]]. Qed.

(** ** Movement of the farmers *)

Lemma read_only_source_pressure (p : Parameters) (source dest : Z) (dur : Qc) :
  read_only (source_pressure p source dest dur).
Proof.
  unfold source_pressure.
  apply read_only_bind; [apply read_only_get_herd|]. intros src.
  destruct (_ && _ && _); [|apply read_only_ret].
  cbv zeta. destruct (negb _); [apply read_only_lift|].
  apply read_only_bind; [|intros; apply read_only_lift].
  apply read_only_foldM. intros b x.
  apply read_only_bind; [apply read_only_get_herd|]. intros; apply read_only_ret.
Qed.

Lemma writes_only_read_only {A} (d : Z) (m : M A) : read_only m → writes_only d m.
Proof. intros H w a w' Hrun j _. by rewrite (H _ _ _ Hrun). Qed.

Lemma writes_only_bind {A B} (d : Z) (m : M A) (f : A → M B) :
  writes_only d m → (∀ a, writes_only d (f a)) → writes_only d (m ≫= f).
Proof.
  intros Hm Hf w b w' Hrun j Hj.
  apply bind_Ok_inv in Hrun as (a & w1 & H1 & H2).
  rewrite (Hf _ _ _ _ H2 j Hj). by apply (Hm _ _ _ H1).
Qed.

Lemma writes_only_foldM {A B} (d : Z) (body : B → A → M B) (l : list A) :
  (∀ b x, writes_only d (body b x)) → ∀ b, writes_only d (foldM body b l).
Proof.
  intros Hbody. induction l as [|x l IH]; intros b; simpl.
  - apply writes_only_read_only, read_only_ret.
  - apply writes_only_bind; auto.
Qed.

Lemma writes_only_update_herd (d : Z) (f : Herd → Herd) : writes_only d (update_herd d f).
Proof.
  intros w a w'. unfold update_herd. destruct (herds w !! d); [|done].
  intros [= _ <-] j Hj. simpl. by rewrite lookup_insert_ne.
Qed.

Lemma writes_only_random_draw (d : Z) : writes_only d random_draw.
Proof. intros w a w' [= _ <-] j _. done. Qed.

Lemma writes_only_random_gamma (d : Z) (shape scale : Qc) :
  writes_only d (random_gamma shape scale).
Proof.
  unfold random_gamma. destruct (_ || _).
  - apply writes_only_read_only, read_only_lift.
  - apply writes_only_random_draw.
Qed.

(** ** The gamma draw of a movement *)

Lemma Qc_square_nonneg (x : Qc) : (0 ≤ x * x)%Qc.
Proof.
  destruct (Qclt_le_dec x 0) as [Hneg|Hpos].
  - assert (H : (0 ≤ - x)%Qc).
    { apply Qclt_le_weak in Hneg. apply Qcopp_le_compat in Hneg.
      by replace (- 0)%Qc with 0%Qc in Hneg by ring. }
    replace (x * x)%Qc with (- x * - x)%Qc by ring.
    replace 0%Qc with (0 * - x)%Qc at 1 by ring.
    by apply Qcmult_le_compat_r.
  - replace 0%Qc with (0 * x)%Qc at 1 by ring.
    by apply Qcmult_le_compat_r.
Qed.

(** A draw with a shape and a scale that are not negative is made. *)
Lemma random_gamma_run (shape scale : Qc) (w : World) :
  (0 ≤ shape)%Qc → (0 ≤ scale)%Qc →
  random_gamma shape scale w
  = Ok (rng_tape w (rng_pos w), mkWorld (herds w) (rng_tape w) (S (rng_pos w))).
Proof.
  intros Hshape Hscale. unfold random_gamma.
  rewrite (bool_decide_eq_false_2 (shape < 0)%Qc) by by apply Qcle_not_lt.
  rewrite (bool_decide_eq_false_2 (scale < 0)%Qc) by by apply Qcle_not_lt.
  reflexivity.
Qed.

(** With a range of [bp_trans] that is not empty and a positive mean, the
    standard deviation is not zero and the scale of the draw is not
    negative. *)
Lemma gamma_parameters_usable (p : Parameters) :
  max_bp_trans p ≠ min_bp_trans p → (0 < mean_bp_trans p)%Qc →
  ((max_bp_trans p - min_bp_trans p) / float_of_int 4)%Qc ≠ 0%Qc
  ∧ mean_bp_trans p ≠ 0%Qc
  ∧ ∀ sd : Qc, (0 ≤ sd * sd / mean_bp_trans p)%Qc.
Proof.
  intros Hbp Hmean.
  assert (Hne : mean_bp_trans p ≠ 0%Qc).
  { intros H0. rewrite H0 in Hmean. by apply Qclt_not_eq in Hmean. }
  split; [|split; [exact Hne|]].
  - intros H0. apply Hbp.
    assert (float_of_int 4 ≠ 0%Qc) as H4 by (rewrite float_of_int_0_iff; lia).
    assert ((max_bp_trans p - min_bp_trans p)%Qc = 0%Qc) as Hdiff.
    { rewrite <- (Qcmult_div_r (max_bp_trans p - min_bp_trans p) _ H4).
      rewrite H0. ring. }
    rewrite <- (Qcplus_0_l (min_bp_trans p)), <- Hdiff. ring.
  - intros sd. apply Qcnot_lt_le. intros Hlt.
    apply (Qcmult_lt_compat_r _ _ _ Hmean) in Hlt.
    replace (sd * sd / mean_bp_trans p * mean_bp_trans p)%Qc with (sd * sd)%Qc in Hlt
      by (field; exact Hne).
    replace (0 * mean_bp_trans p)%Qc with 0%Qc in Hlt by ring.
    by apply Qclt_not_le in Hlt; apply Hlt, Qc_square_nonneg.
Qed.

(** With a negative mean the scale of the draw is negative: a movement
    that is not from a pen to itself is refused, whatever the pens. *)
Lemma movement_edge_negative_mean
    (p : Parameters) (source dest : Z) (dur : Qc) (w : World) :
  max_bp_trans p ≠ min_bp_trans p → (mean_bp_trans p < 0)%Qc → source ≠ dest →
  movement_edge p source dest dur w = Raise ValueError.
Proof.
  intros Hbp Hneg Hne.
  assert (Hmean : mean_bp_trans p ≠ 0%Qc).
  { intros H0. rewrite H0 in Hneg. by apply Qclt_not_eq in Hneg. }
  set (sd := ((max_bp_trans p - min_bp_trans p) / float_of_int 4)%Qc).
  assert (Hsd : sd ≠ 0%Qc).
  { intros H0. apply Hbp.
    assert (float_of_int 4 ≠ 0%Qc) as H4 by (rewrite float_of_int_0_iff; lia).
    assert ((max_bp_trans p - min_bp_trans p)%Qc = 0%Qc) as Hdiff.
    { rewrite <- (Qcmult_div_r (max_bp_trans p - min_bp_trans p) _ H4).
      fold sd. rewrite H0. ring. }
    rewrite <- (Qcplus_0_l (min_bp_trans p)), <- Hdiff. ring. }
  assert (Hscale : (sd * sd / mean_bp_trans p < 0)%Qc).
  { apply Qcnot_le_lt. intros Hge.
    assert (Hopp : (0 < - mean_bp_trans p)%Qc).
    { apply Qclt_minus_iff in Hneg.
      by replace (0 + - mean_bp_trans p)%Qc with (- mean_bp_trans p)%Qc in Hneg
        by ring. }
    pose proof (Qcmult_le_compat_r _ _ _ Hge (Qclt_le_weak _ _ Hopp)) as Hle.
    replace (0 * - mean_bp_trans p)%Qc with 0%Qc in Hle by ring.
    replace (sd * sd / mean_bp_trans p * - mean_bp_trans p)%Qc
      with (- (sd * sd))%Qc in Hle by (field; exact Hmean).
    assert (Hzero : (sd * sd)%Qc = 0%Qc).
    { apply Qcle_antisym; [|apply Qc_square_nonneg].
      apply Qcopp_le_compat in Hle.
      replace (- - (sd * sd))%Qc with (sd * sd)%Qc in Hle by ring.
      by replace (- 0)%Qc with 0%Qc in Hle by ring. }
    by apply Qcmult_integral in Hzero as [?|?]. }
  unfold movement_edge. replace (source =? dest) with false by lia. cbn [negb].
  erewrite bind_Ok
    by (unfold lift; rewrite py_truediv_nonzero;
        [reflexivity | rewrite float_of_int_0_iff; lia]).
  fold sd.
  erewrite bind_Ok by (unfold lift; rewrite py_truediv_nonzero by exact Hsd; reflexivity).
  cbv zeta.
  erewrite bind_Ok by (unfold lift; rewrite py_truediv_nonzero by exact Hmean; reflexivity).
  apply bind_Raise. unfold random_gamma.
  rewrite (bool_decide_eq_true_2 (sd * sd / mean_bp_trans p < 0)%Qc) by exact Hscale.
  by rewrite orb_true_r.
Qed.

(** A movement writes to its destination, and to no other pen. *)
Lemma movement_edge_writes_only_dest (p : Parameters) (source dest : Z) (dur : Qc) :
  writes_only dest (movement_edge p source dest dur).
Proof.
  unfold movement_edge.
  destruct (negb _); [|apply writes_only_read_only, read_only_ret].
  apply writes_only_bind; [apply writes_only_read_only, read_only_lift|]. intros sd.
  apply writes_only_bind; [apply writes_only_read_only, read_only_lift|]. intros ratio.
  cbv zeta.
  apply writes_only_bind; [apply writes_only_read_only, read_only_lift|]. intros scale.
  apply writes_only_bind; [apply writes_only_random_gamma|]. intros bp.
  apply writes_only_bind;
    [apply writes_only_read_only, read_only_source_pressure|]. intros v.
  apply writes_only_bind; [apply writes_only_update_herd|]. intros _.
  destruct (dest =? 4); [|apply writes_only_read_only, read_only_ret].
  apply writes_only_foldM. intros _ _. apply writes_only_update_herd.
Qed.

(** C1 (the code at a movement into pen 4). A farmer spends a week's
    minutes moving from pen 3, where one animal of two is infectious, to
    pen 4, with a rate of transmission of 1: the contribution is 1/2; the
    rate of pen 4 rises by twelve times that, to 6, and the rates of pens 5
    to 15 stay at 0. *)
Theorem movement_into_pen_4_adds_twelve_times_to_pen_4 :
  this <$> value_of (source_pressure (example_parameters 0) 3 4 (float_of_int 10080))
             (world_of example_farm (λ _, 0%Qc))
  = Ok (1 # 2)%Q
  ∧ map (λ i, pen_after i rate
                (movement_edge (example_parameters 0) 3 4 (float_of_int 10080))
                (world_of example_farm (λ _, 0%Qc)))
        (py_range 4 16)
    = [Ok (6 # 1)%Q; Ok 0%Q; Ok 0%Q; Ok 0%Q; Ok 0%Q; Ok 0%Q;
       Ok 0%Q; Ok 0%Q; Ok 0%Q; Ok 0%Q; Ok 0%Q; Ok 0%Q].
Proof. split; vm_compute; reflexivity. Qed.

(** The duration that the two biosecurity tests leave to a risky move. *)
Lemma risky_duration (p : Parameters) (source dest : Z) (dur : Qc) :
  biosec_remove_risky_move p = 1 →
  risky_move source dest = true →
  (if (4 <=? source) && (source <=? 15) && ((1 <=? dest) && (dest <=? 3))
      && (biosec_remove_risky_move p =? 1)
   then 0%Qc
   else if (((source =? 1) && (dest =? 2))
            || ((source =? 3) && ((1 <=? dest) && (dest <=? 2))))
           && (biosec_remove_risky_move p =? 1)
   then 0%Qc
   else dur) = 0%Qc.
Proof.
  intros -> H. unfold risky_move in H. change (1 =? 1) with true.
  destruct (4 <=? source), (source <=? 15), (1 <=? dest), (dest <=? 3),
    (source =? 1), (dest =? 2), (source =? 3), (dest <=? 2);
    simpl in *; done.
Qed.

Lemma Qc_zero_contribution (b i h : Qc) : (0 * b * i / h = 0)%Qc.
Proof. unfold Qcdiv. ring. Qed.

(** The contribution of a risky move is zero when biosecurity is on. *)
Lemma source_pressure_risky (p : Parameters) (source dest : Z) (dur v : Qc) (w w' : World) :
  biosec_remove_risky_move p = 1 →
  risky_move source dest = true →
  source_pressure p source dest dur w = Ok (v, w') →
  v = 0%Qc.
Proof.
  intros Hflag Hrisky Hrun. unfold source_pressure in Hrun.
  apply bind_Ok_inv in Hrun as (src & w1 & _ & Hrun).
  destruct (_ && _ && _); [|by injection Hrun as <- _].
  cbv zeta in Hrun. rewrite (risky_duration p source dest _ Hflag Hrisky) in Hrun.
  destruct (negb _).
  - unfold lift in Hrun.
    destruct (py_truediv _ _) as [x|] eqn:Hdiv; [|done].
    injection Hrun as <- _.
    apply py_truediv_Ok_inv in Hdiv as [_ ->]. apply Qc_zero_contribution.
  - apply bind_Ok_inv in Hrun as (totals & w2 & _ & Hrun).
    unfold lift in Hrun.
    destruct (py_truediv _ _) as [x|] eqn:Hdiv; [|done].
    injection Hrun as <- _.
    apply py_truediv_Ok_inv in Hdiv as [_ ->]. apply Qc_zero_contribution.
Qed.

Lemma set_trans_same (h : Herd) :
  set_trans (trans_btwn_pens_frm_movement (statevars h) + 0)%Qc h = h.
Proof. rewrite Qcplus_0_r. by destruct h as [l []]. Qed.

(** The contribution of a movement is always computed, whatever the
    animals in the pens: no division by zero on this path. *)
Lemma source_pressure_total (p : Parameters) (source dest : Z) (dur : Qc) (w : World) :
  has_pens 4 15 (herds w) →
  is_Some (herds w !! source) →
  ∃ v, source_pressure p source dest dur w = Ok (v, w).
Proof.
  intros Hpens [src Hsrc]. unfold source_pressure.
  erewrite bind_Ok by (by apply get_herd_Some).
  destruct (0 <? total_herd src) eqn:Hpos; [|eexists; reflexivity].
  destruct (negb (dest =? 16)); [|eexists; reflexivity].
  destruct (negb (dest =? 17)); [|eexists; reflexivity].
  cbn [andb]. cbv zeta. destruct (negb _).
  - unfold lift. rewrite py_truediv_nonzero; [eexists; reflexivity|].
    rewrite float_of_int_0_iff. lia.
  - destruct (foldM_reads (λ totals h, (totals.1 + total_I h, totals.2 + total_herd h))
                id (py_range 4 16) (0, 0) w) as [totals Htotals].
    { intros i Hi. apply elem_of_py_range in Hi. apply Hpens. unfold id. lia. }
    unfold id in Htotals. erewrite bind_Ok by exact Htotals.
    unfold lift. rewrite py_truediv_nonzero; [eexists; reflexivity|].
    rewrite float_of_int_0_iff. destruct (totals.2 =? 0) eqn:E; lia.
Qed.

(** C5. With the biosecurity flag on, a risky move (from a fattening pen to
    pens 1 to 3, from pen 1 to pen 2, from pen 3 to pen 1 or 2) contributes
    exactly 0, whatever its duration and the animals of the source: the
    value computed for it is 0 and the movement leaves every pen, and so
    every rate, as it was; and the movement is processed, not refused,
    when the pens exist and the gamma draw is made: a range of [bp_trans]
    that is not empty and a positive mean (a negative mean gives a
    negative scale, which the draw refuses). *)
Theorem risky_move_contributes_nothing
    (p : Parameters) (source dest : Z) (dur : Qc) (w : World) :
  biosec_remove_risky_move p = 1 →
  risky_move source dest = true →
  has_pens 1 15 (herds w) →
  max_bp_trans p ≠ min_bp_trans p →
  (0 < mean_bp_trans p)%Qc →
  value_of (source_pressure p source dest dur) w = Ok 0%Qc
  ∧ ∃ w', movement_edge p source dest dur w = Ok (tt, w')
          ∧ herds w' = herds w
          ∧ ∀ i, trans_of (herds w') i = trans_of (herds w) i.
Proof.
  intros Hflag Hrisky Hpens Hbp Hpos.
  destruct (gamma_parameters_usable p Hbp Hpos) as (Hsd & Hmean & Hscale).
  assert (Hids : 1 ≤ source ≤ 15 ∧ 1 ≤ dest ≤ 3 ∧ source ≠ dest).
  { unfold risky_move in Hrisky. lia. }
  destruct Hids as (Hs & Hd & Hne).
  destruct (source_pressure_total p source dest dur w) as [v Hv].
  { intros i Hi. apply Hpens. lia. }
  { apply Hpens. lia. }
  pose proof (source_pressure_risky _ _ _ _ _ _ _ Hflag Hrisky Hv) as ->.
  split; [unfold value_of; by rewrite Hv|].
  destruct (Hpens dest) as [h Hh]; [lia|].
  exists (mkWorld (herds w) (rng_tape w) (S (rng_pos w))).
  split; [|split; [reflexivity | reflexivity]].
  unfold movement_edge. replace (source =? dest) with false by lia. cbn [negb].
  erewrite bind_Ok
    by (unfold lift; rewrite py_truediv_nonzero;
        [reflexivity | rewrite float_of_int_0_iff; lia]).
  erewrite bind_Ok by (unfold lift; rewrite py_truediv_nonzero by exact Hsd; reflexivity).
  cbv zeta.
  erewrite bind_Ok by (unfold lift; rewrite py_truediv_nonzero by exact Hmean; reflexivity).
  erewrite bind_Ok by (apply random_gamma_run; [apply Qc_square_nonneg | apply Hscale]).
  assert (Hv' : source_pressure p source dest dur
                  (mkWorld (herds w) (rng_tape w) (S (rng_pos w)))
                = Ok (0%Qc, mkWorld (herds w) (rng_tape w) (S (rng_pos w)))).
  { destruct (source_pressure_total p source dest dur
                (mkWorld (herds w) (rng_tape w) (S (rng_pos w)))) as [v Hv2].
    - intros i Hi. apply Hpens. lia.
    - apply Hpens. lia.
    - by rewrite (source_pressure_risky _ _ _ _ _ _ _ Hflag Hrisky Hv2) in Hv2. }
  erewrite bind_Ok by exact Hv'.
  unfold add_trans.
  erewrite bind_Ok by (apply update_herd_Some; exact Hh).
  replace (dest =? 4) with false by lia.
  cbn [herds rng_tape rng_pos]. rewrite set_trans_same, insert_id by exact Hh.
  reflexivity.
Qed.

(** The same for a week's minutes from the fattening pen 6, which holds an
    infectious animal, to the farrowing pen 2. *)
Lemma risky_move_contributes_nothing_witness :
  biosec_remove_risky_move (example_parameters 1) = 1
  ∧ risky_move 6 2 = true
  ∧ value_of (source_pressure (example_parameters 1) 6 2 (float_of_int 10080))
      (world_of example_farm (λ _, 0%Qc)) = Ok 0%Qc
  ∧ ∃ w', movement_edge (example_parameters 1) 6 2 (float_of_int 10080)
            (world_of example_farm (λ _, 0%Qc)) = Ok (tt, w')
          ∧ herds w' = herds (world_of example_farm (λ _, 0%Qc))
          ∧ ∀ i, trans_of (herds w') i
                 = trans_of (herds (world_of example_farm (λ _, 0%Qc))) i.
Proof.
  assert (H1 : biosec_remove_risky_move (example_parameters 1) = 1) by reflexivity.
  assert (H2 : risky_move 6 2 = true) by reflexivity.
  assert (H3 : has_pens 1 15 (herds (world_of example_farm (λ _, 0%Qc))))
    by (apply has_pens_check_sound; vm_compute; reflexivity).
  assert (H4 : max_bp_trans (example_parameters 1) ≠ min_bp_trans (example_parameters 1))
    by (apply (bool_decide_eq_false_1 _); vm_compute; reflexivity).
  assert (H5 : (0 < mean_bp_trans (example_parameters 1))%Qc)
    by (vm_compute; reflexivity).
  split; [exact H1|]. split; [exact H2|].
  exact (risky_move_contributes_nothing (example_parameters 1) 6 2 (float_of_int 10080)
           (world_of example_farm (λ _, 0%Qc)) H1 H2 H3 H4 H5).
Defined.

(** Without the flag the same move does contribute: 1/3 to pen 2. *)
Example risky_move_without_biosecurity :
  pen_after 2 rate (movement_edge (example_parameters 0) 6 2 (float_of_int 10080))
    (world_of example_farm (λ _, 0%Qc)) = Ok (1 # 3)%Q.
Proof. vm_compute. reflexivity. Qed.

(** ** Farms that differ in rates or counters only *)

Lemma only_rates_differ_refl (hs : gmap Z Herd) : only_rates_differ hs hs.
Proof. done. Qed.

Lemma only_rates_differ_trans (hs1 hs2 hs3 : gmap Z Herd) :
  only_rates_differ hs1 hs2 → only_rates_differ hs2 hs3 → only_rates_differ hs1 hs3.
Proof. intros H12 H23 i. by rewrite H23. Qed.

Lemma only_rates_differ_insert (hs : gmap Z Herd) (i : Z) (h : Herd) (v : Qc) :
  hs !! i = Some h → only_rates_differ hs (<[i := set_trans v h]> hs).
Proof.
  intros Hh j. destruct (decide (i = j)) as [<-|Hne].
  - rewrite lookup_insert_eq, Hh. done.
  - by rewrite lookup_insert_ne.
Qed.

Lemma only_rates_differ_same_animals (hs hs' : gmap Z Herd) :
  only_rates_differ hs hs' → same_animals hs hs'.
Proof.
  intros H i. specialize (H i).
  destruct (hs' !! i) as [h'|], (hs !! i) as [h|]; simpl in *; try done.
  by injection H as ->.
Qed.

Lemma only_rates_differ_nb (hs hs' : gmap Z Herd) (i : Z) :
  only_rates_differ hs hs' → nb_sampled_at hs' i = nb_sampled_at hs i.
Proof.
  intros H. specialize (H i). unfold nb_sampled_at.
  destruct (hs' !! i) as [h'|], (hs !! i) as [h|]; simpl in *; try done.
  by injection H as _ ->.
Qed.

Lemma same_animals_insert (hs : gmap Z Herd) (i : Z) (h h' : Herd) :
  hs !! i = Some h → atoms h' = atoms h → same_animals hs (<[i := h']> hs).
Proof.
  intros Hh Ha j. destruct (decide (i = j)) as [<-|Hne].
  - rewrite lookup_insert_eq, Hh. simpl. by rewrite Ha.
  - by rewrite lookup_insert_ne.
Qed.

Lemma same_animals_trans (hs1 hs2 hs3 : gmap Z Herd) :
  same_animals hs1 hs2 → same_animals hs2 hs3 → same_animals hs1 hs3.
Proof. intros H12 H23 i. by rewrite H23. Qed.

Lemma same_animals_has_pens (lo hi : Z) (hs hs' : gmap Z Herd) :
  same_animals hs hs' → has_pens lo hi hs → has_pens lo hi hs'.
Proof.
  intros H Hpens i Hi. destruct (Hpens i Hi) as [h Hh].
  specialize (H i). rewrite Hh in H. destruct (hs' !! i); [eauto | done].
Qed.

Lemma same_animals_total_I (hs hs' : gmap Z Herd) (i : Z) :
  same_animals hs hs' → total_I_at hs' i = total_I_at hs i.
Proof.
  intros H. specialize (H i). unfold total_I_at, total_I, count_atoms.
  destruct (hs' !! i) as [h'|], (hs !! i) as [h|]; simpl in *; try done.
  by injection H as ->.
Qed.

Lemma same_animals_total_herd (hs hs' : gmap Z Herd) (i : Z) :
  same_animals hs hs' → total_herd_at hs' i = total_herd_at hs i.
Proof.
  intros H. specialize (H i). unfold total_herd_at, total_herd.
  destruct (hs' !! i) as [h'|], (hs !! i) as [h|]; simpl in *; try done.
  by injection H as ->.
Qed.

Lemma same_animals_infectious_pens (hs hs' : gmap Z Herd) :
  same_animals hs hs' → infectious_pens hs' = infectious_pens hs.
Proof.
  intros H. unfold infectious_pens. do 2 f_equal.
  apply List.filter_ext. intros i. by rewrite (same_animals_total_I hs hs').
Qed.

Lemma same_animals_line_term_value (p : Parameters) (hs hs' : gmap Z Herd) (k : Z) :
  same_animals hs hs' → line_term_value p hs' k = line_term_value p hs k.
Proof.
  intros H. unfold line_term_value, line_numerator, line_denominator.
  by rewrite !(same_animals_total_I hs hs'), !(same_animals_total_herd hs hs').
Qed.

Lemma same_animals_line_denominator (hs hs' : gmap Z Herd) (k : Z) :
  same_animals hs hs' → line_denominator hs' k = line_denominator hs k.
Proof.
  intros H. unfold line_denominator.
  by rewrite !(same_animals_total_herd hs hs').
Qed.

(** ** Counting the infectious pens *)

Lemma count_loop (l : list Z) :
  ∀ (acc : Z) (w : World),
    (∀ i, i ∈ l → is_Some (herds w !! (i + 4))) →
    foldM (λ acc i, h ← get_herd (i + 4);
                    mret (if 0 <? total_I h then acc + 1 else acc)) acc l w
    = Ok (acc + Z.of_nat (length (List.filter
                                    (λ i, 0 <? total_I_at (herds w) (i + 4)) l)), w).
Proof.
  induction l as [|x l IH]; intros acc w Hl; simpl.
  - by rewrite Z.add_0_r.
  - destruct (Hl x) as [h Hh]; [by left|].
    erewrite bind_Ok
      by (erewrite bind_Ok by (by apply get_herd_Some); reflexivity).
    rewrite IH by (intros i Hi; apply Hl; by right).
    unfold total_I_at at 2. rewrite Hh.
    destruct (0 <? total_I h); simpl; do 2 f_equal; lia.
Qed.

Lemma length_filter_map {A B} (f : B → bool) (g : A → B) (l : list A) :
  length (List.filter f (map g l)) = length (List.filter (λ x, f (g x)) l).
Proof.
  induction l as [|x l IH]; simpl; [done|].
  destruct (f (g x)); simpl; by rewrite IH.
Qed.

Lemma count_infectious_pens_run (w : World) :
  has_pens 4 15 (herds w) →
  count_infectious_pens w = Ok (infectious_pens (herds w), w).
Proof.
  intros Hpens. unfold count_infectious_pens.
  rewrite count_loop.
  - unfold infectious_pens.
    change (py_range 4 16) with (map (λ i, i + 4) (py_range 0 12)).
    by rewrite length_filter_map.
  - intros i Hi. apply elem_of_py_range in Hi. apply Hpens. lia.
Qed.

Lemma infectious_pens_range (hs : gmap Z Herd) : 0 ≤ infectious_pens hs ≤ 12.
Proof.
  unfold infectious_pens.
  pose proof (List.filter_length_le (λ i, 0 <? total_I_at hs i) (py_range 4 16)) as H.
  change (length (py_range 4 16)) with 12%nat in H. lia.
Qed.

(** The counter of pen 4 is set to the number of infectious pens, whatever
    it was; animals and rates are left as they are. *)
Lemma sample_infectious_pens_run (w : World) :
  has_pens 4 15 (herds w) →
  ∃ hs1, sample_infectious_pens w = Ok (tt, mkWorld hs1 (rng_tape w) (rng_pos w))
    ∧ same_animals (herds w) hs1
    ∧ nb_sampled_at hs1 4 = infectious_pens (herds w)
    ∧ ∀ i, trans_of hs1 i = trans_of (herds w) i.
Proof.
  intros Hpens. destruct (Hpens 4) as [h4 H4]; [lia|].
  unfold sample_infectious_pens, set_nb_sampled.
  erewrite bind_Ok by (by apply update_herd_Some).
  set (w1 := mkWorld _ _ _).
  assert (Hsame1 : same_animals (herds w) (herds w1))
    by (by apply same_animals_insert with h4).
  assert (H41 : herds w1 !! 4 = Some (set_nb_of_sampled_I_Jf 0 h4))
    by apply lookup_insert_eq.
  erewrite bind_Ok by (by apply get_herd_Some).
  erewrite bind_Ok
    by (apply count_infectious_pens_run; by apply same_animals_has_pens with (herds w)).
  erewrite update_herd_Some by exact H41.
  eexists. split; [reflexivity|]. split; [|split].
  - eapply same_animals_trans; [exact Hsame1|].
    by eapply same_animals_insert.
  - unfold nb_sampled_at. rewrite lookup_insert_eq. simpl.
    by rewrite (same_animals_infectious_pens (herds w)).
  - intros i. unfold trans_of. subst w1. simpl.
    destruct (decide (i = 4)) as [->|Hne].
    + by rewrite lookup_insert_eq, H4.
    + by rewrite !lookup_insert_ne.
Qed.

(** ** Loops with an invariant *)

Lemma for_each_invariant {A} (Inv : World → Prop) (body : A → M unit) (l : list A) :
  (∀ x w, x ∈ l → Inv w → ∃ w', body x w = Ok (tt, w') ∧ Inv w') →
  ∀ w, Inv w → ∃ w', for_each l body w = Ok (tt, w') ∧ Inv w'.
Proof.
  unfold for_each. induction l as [|x l IH]; intros Hbody w Hw; simpl.
  - by exists w.
  - destruct (Hbody x w) as (w1 & Hrun & Hw1); [by left | done |].
    erewrite bind_Ok by exact Hrun.
    apply IH; [|done]. intros y w2 Hy. apply Hbody. by right.
Qed.

Lemma foldM_invariant_or_raise {A B} (Inv : World → Prop) (e : exn)
    (body : B → A → M B) (l : list A) :
  (∀ b x w, x ∈ l → Inv w →
     (∃ b' w', body b x w = Ok (b', w') ∧ Inv w') ∨ body b x w = Raise e) →
  ∀ b w, Inv w →
    (∃ b' w', foldM body b l w = Ok (b', w') ∧ Inv w') ∨ foldM body b l w = Raise e.
Proof.
  induction l as [|x l IH]; intros Hbody b w Hw; simpl.
  - left. by exists b, w.
  - destruct (Hbody b x w) as [(b1 & w1 & Hrun & Hw1) | Hraise]; [by left | done | |].
    + erewrite bind_Ok by exact Hrun.
      apply IH; [|done]. intros b2 y w2 Hy. apply Hbody. by right.
    + right. by apply bind_Raise.
Qed.

(** ** The full-pairwise variant *)

Lemma other_pens_totals_loop (i : Z) (l : list Z) :
  ∀ (acc : Z * Z) (w : World),
    (∀ j, j ∈ l → is_Some (herds w !! j)) →
    ∃ totals,
      foldM (λ totals j,
               if negb (j =? i) then
                 h ← get_herd j;
                 mret (totals.1 + total_I h, totals.2 + total_herd h)
               else mret totals) acc l w
      = Ok (totals, w).
Proof.
  induction l as [|x l IH]; intros acc w Hl; simpl.
  - by exists acc.
  - destruct (Hl x) as [h Hh]; [by left|].
    destruct (negb (x =? i)).
    + erewrite bind_Ok
        by (erewrite bind_Ok by (by apply get_herd_Some); reflexivity).
      apply IH. intros j Hj. apply Hl. by right.
    + erewrite bind_Ok by reflexivity.
      apply IH. intros j Hj. apply Hl. by right.
Qed.

(** One round returns for every population: an empty denominator leaves
    the portion at 0. *)
Lemma pairwise_round_run (p : Parameters) (i : Z) (w : World) :
  has_pens 4 15 (herds w) → 4 ≤ i ≤ 15 →
  ∃ hs', SwIAVs.pairwise_round p i w = Ok (tt, mkWorld hs' (rng_tape w) (rng_pos w))
    ∧ only_rates_differ (herds w) hs'.
Proof.
  intros Hpens Hi. unfold SwIAVs.pairwise_round, SwIAVs.other_pens_totals.
  destruct (other_pens_totals_loop i (py_range 4 16) (0, 0) w) as [totals Htotals].
  { intros j Hj. apply elem_of_py_range in Hj. apply Hpens. lia. }
  erewrite bind_Ok by exact Htotals. cbv zeta.
  destruct (Hpens i Hi) as [h Hh].
  assert (Hportion : ∃ portion,
            (if negb (totals.2 =? 0)
             then lift (py_truediv (float_of_int totals.1) (float_of_int totals.2))
             else mret 0%Qc) w = Ok (portion, w)).
  { destruct (totals.2 =? 0) eqn:E; simpl.
    - by eexists.
    - unfold lift. rewrite py_truediv_nonzero; [by eexists|].
      rewrite float_of_int_0_iff. lia. }
  destruct Hportion as [portion Hportion].
  erewrite bind_Ok by exact Hportion.
  erewrite update_herd_Some by exact Hh.
  eexists. split; [reflexivity|]. by apply only_rates_differ_insert.
Qed.

(** The whole process returns for every population of the fattening
    pens, and leaves the count of the infectious pens in the counter. *)
Lemma swIAVs_sample_run (p : Parameters) (w : World) :
  has_pens 4 15 (herds w) →
  ∃ hs', SwIAVs.sample_I_from_fatteners p w
         = Ok (tt, mkWorld hs' (rng_tape w) (rng_pos w))
    ∧ same_animals (herds w) hs'
    ∧ nb_sampled_at hs' 4 = infectious_pens (herds w).
Proof.
  intros Hpens.
  destruct (sample_infectious_pens_run w Hpens) as (hs1 & Hrun1 & Hsame & Hnb & _).
  unfold SwIAVs.sample_I_from_fatteners.
  erewrite bind_Ok by exact Hrun1.
  destruct (for_each_invariant
              (λ w', has_pens 4 15 (herds w') ∧ only_rates_differ hs1 (herds w')
                     ∧ rng_tape w' = rng_tape w ∧ rng_pos w' = rng_pos w)
              (SwIAVs.pairwise_round p) (py_range 4 16))
    with (w := mkWorld hs1 (rng_tape w) (rng_pos w))
    as (w' & Hrun & _ & Hdiff & Htape & Hpos).
  - intros i w1 Hi (Hp1 & Hd1 & Ht1 & Hpos1). apply elem_of_py_range in Hi.
    destruct (pairwise_round_run p i w1 Hp1) as (hs' & Hrun & Hd); [lia|].
    eexists. split; [exact Hrun|]. simpl. split; [|split; [|done]].
    + eapply same_animals_has_pens; [|exact Hp1].
      by apply only_rates_differ_same_animals.
    + by eapply only_rates_differ_trans.
  - simpl. split; [by eapply same_animals_has_pens|].
    split; [apply only_rates_differ_refl | done].
  - exists (herds w'). rewrite Hrun. split; [|split].
    + destruct w'; simpl in *; subst. done.
    + eapply same_animals_trans; [exact Hsame|].
      by apply only_rates_differ_same_animals.
    + by rewrite (only_rates_differ_nb hs1).
Qed.

(** ** The line variant *)

Lemma pressure_ratio_run (p : Parameters) (n d : Z) (w : World) :
  pressure_ratio p n d w
  = if d =? 0 then Raise ZeroDivisionError
    else Ok ((neighboring_herd_trans p * float_of_int n / float_of_int d)%Qc, w).
Proof.
  unfold pressure_ratio, lift, py_truediv.
  destruct (d =? 0) eqn:E.
  - assert (d = 0) as -> by lia. reflexivity.
  - rewrite bool_decide_eq_false_2; [done|]. rewrite float_of_int_0_iff. lia.
Qed.

(** The term of pen [i]: the value of [line_term_value], or a division by
    zero when its denominator is empty. *)
Lemma line_term_run (p : Parameters) (i : Z) (w : World) :
  has_pens 4 15 (herds w) → 4 ≤ i ≤ 15 →
  Outrans.line_term p i w
  = if line_denominator (herds w) i =? 0 then Raise ZeroDivisionError
    else Ok (line_term_value p (herds w) i, w).
Proof.
  intros Hpens Hi.
  unfold Outrans.line_term, line_term_value, line_numerator, line_denominator.
  unfold total_I_at, total_herd_at.
  destruct (i =? 4) eqn:E4; [|destruct (i =? 5) eqn:E5;
    [|destruct (i =? 14) eqn:E14; [|destruct (i =? 15) eqn:E15]]]; cbn [orb].
  - destruct (Hpens (i + 2)) as [h Hh]; [lia|]. rewrite Hh.
    unfold Outrans.one_sided_term.
    erewrite bind_Ok by (by apply get_herd_Some). apply pressure_ratio_run.
  - destruct (Hpens (i + 2)) as [h Hh]; [lia|]. rewrite Hh.
    unfold Outrans.one_sided_term.
    erewrite bind_Ok by (by apply get_herd_Some). apply pressure_ratio_run.
  - destruct (Hpens (i - 2)) as [h Hh]; [lia|]. rewrite Hh.
    unfold Outrans.one_sided_term.
    erewrite bind_Ok by (by apply get_herd_Some). apply pressure_ratio_run.
  - destruct (Hpens (i - 2)) as [h Hh]; [lia|]. rewrite Hh.
    unfold Outrans.one_sided_term.
    erewrite bind_Ok by (by apply get_herd_Some). apply pressure_ratio_run.
  - destruct (Hpens (i - 2)) as [a Ha]; [lia|].
    destruct (Hpens (i + 2)) as [b Hb]; [lia|]. rewrite Ha, Hb.
    unfold Outrans.two_sided_term.
    erewrite bind_Ok by (by apply get_herd_Some).
    erewrite bind_Ok by (by apply get_herd_Some). apply pressure_ratio_run.
Qed.

(** One round: the running total grows by the term and is added to the
    rate of the pen. *)
Lemma line_round_run (p : Parameters) (tbp : Qc) (i : Z) (w : World) (h : Herd) :
  has_pens 4 15 (herds w) → 4 ≤ i ≤ 15 → herds w !! i = Some h →
  Outrans.line_round p tbp i w
  = if line_denominator (herds w) i =? 0 then Raise ZeroDivisionError
    else Ok ((tbp + line_term_value p (herds w) i)%Qc,
             mkWorld (<[i := set_trans (trans_btwn_pens_frm_movement (statevars h)
                                        + (tbp + line_term_value p (herds w) i))%Qc h]>
                        (herds w))
                     (rng_tape w) (rng_pos w)).
Proof.
  intros Hpens Hi Hh. unfold Outrans.line_round.
  pose proof (line_term_run p i w Hpens Hi) as Hterm.
  destruct (line_denominator (herds w) i =? 0).
  - by apply bind_Raise.
  - erewrite bind_Ok by exact Hterm. cbv zeta. unfold add_trans.
    erewrite bind_Ok by (by apply update_herd_Some). reflexivity.
Qed.

(** The loop either divides by zero or changes rates only. *)
Lemma line_loop_or_raise (p : Parameters) (w : World) :
  has_pens 4 15 (herds w) →
  (∃ tbp w', foldM (Outrans.line_round p) 0%Qc (py_range 4 16) w = Ok (tbp, w')
             ∧ only_rates_differ (herds w) (herds w'))
  ∨ foldM (Outrans.line_round p) 0%Qc (py_range 4 16) w = Raise ZeroDivisionError.
Proof.
  intros Hpens.
  destruct (foldM_invariant_or_raise
              (λ w', has_pens 4 15 (herds w') ∧ only_rates_differ (herds w) (herds w'))
              ZeroDivisionError (Outrans.line_round p) (py_range 4 16))
    with (b := 0%Qc) (w := w) as [(tbp & w' & Hrun & _ & Hdiff) | Hraise].
  - intros tbp i w1 Hi (Hp1 & Hd1). apply elem_of_py_range in Hi.
    destruct (Hp1 i) as [h Hh]; [lia|].
    rewrite (line_round_run p tbp i w1 h Hp1) by (lia || done).
    destruct (_ =? 0); [by right|]. left.
    eexists _, _. split; [reflexivity|]. simpl. split.
    + by apply has_pens_insert.
    + eapply only_rates_differ_trans; [exact Hd1|].
      by apply only_rates_differ_insert.
  - split; [done | apply only_rates_differ_refl].
  - left. eauto.
  - by right.
Qed.

(** The line variant, as written, stops at its first statement, whatever
    the farm. *)
Lemma outrans_sample_raises (p : Parameters) (w : World) :
  Outrans.sample_I_from_fatteners p w = Raise AttributeError.
Proof. reflexivity. Qed.

Lemma pen_after_nb (A : Type) (m : M A) (w w' : World) (a : A) :
  m w = Ok (a, w') → is_Some (herds w' !! 4) →
  pen_after 4 (λ h, nb_of_sampled_I_Jf (statevars h)) m w
  = Ok (nb_sampled_at (herds w') 4).
Proof.
  intros Hrun [h Hh]. unfold pen_after, nb_sampled_at. by rewrite Hrun, Hh.
Qed.

(** C10 (the full-pairwise file, and the code of the line file at any
    farm).  After [sample_I_from_fatteners] of the full-pairwise file the
    counter [nb_of_sampled_I_Jf] of pen 4 is the number of fattening pens
    (4 to 15) with at least one infectious animal, whatever the counter was
    before, and so lies between 0 and 12.  The function of the line file
    addresses the counter as [herds.statevars], without the pen: the call
    stops on [AttributeError] and sets no counter. *)
Theorem nb_of_sampled_I_Jf_counts_infectious_pens (p : Parameters) (w : World) :
  has_pens 4 15 (herds w) →
  pen_after 4 (λ h, nb_of_sampled_I_Jf (statevars h)) (SwIAVs.sample_I_from_fatteners p) w
  = Ok (infectious_pens (herds w))
  ∧ 0 ≤ infectious_pens (herds w) ≤ 12
  ∧ pen_after 4 (λ h, nb_of_sampled_I_Jf (statevars h))
      (Outrans.sample_I_from_fatteners p) w
    = Raise AttributeError.
Proof.
  intros Hpens. split; [|split; [apply infectious_pens_range|]].
  - destruct (swIAVs_sample_run p w Hpens) as (hs' & Hrun & Hsame & Hnb).
    erewrite pen_after_nb by
      (first [exact Hrun
             | apply (same_animals_has_pens 4 15 _ _ Hsame Hpens); lia]).
    simpl. by rewrite Hnb.
  - unfold pen_after. by rewrite outrans_sample_raises.
Qed.

(** The same at the example farm, where pen 6 alone has an infectious
    animal. *)
Lemma nb_of_sampled_I_Jf_counts_infectious_pens_witness :
  has_pens 4 15 (herds (world_of example_farm (λ _, 0%Qc)))
  ∧ pen_after 4 (λ h, nb_of_sampled_I_Jf (statevars h))
      (SwIAVs.sample_I_from_fatteners (example_parameters 0))
      (world_of example_farm (λ _, 0%Qc))
    = Ok 1
  ∧ pen_after 4 (λ h, nb_of_sampled_I_Jf (statevars h))
      (Outrans.sample_I_from_fatteners (example_parameters 0))
      (world_of example_farm (λ _, 0%Qc))
    = Raise AttributeError.
Proof.
  assert (H : has_pens 4 15 (herds (world_of example_farm (λ _, 0%Qc))))
    by (apply has_pens_check_sound; vm_compute; reflexivity).
  split; [exact H|].
  destruct (nb_of_sampled_I_Jf_counts_infectious_pens (example_parameters 0) _ H)
    as (H1 & _ & H2).
  split; [exact H1 | exact H2].
Defined.

(** C2 (the code at a farm with empty fattening pens).  With animals in
    pens 4 and 5 only, the update of the line file does not return: the
    function stops on [AttributeError] at its first statement, and its
    loop, run from the same farm, divides by the animals of the empty pen
    6, without a guard, and stops on [ZeroDivisionError].  At the same
    farm the full-pairwise variant and a movement from pen 4 return. *)
Theorem line_adjacency_divides_by_empty_pen :
  Outrans.sample_I_from_fatteners (example_parameters 0) (world_of sparse_farm (λ _, 0%Qc))
  = Raise AttributeError
  ∧ Outrans.line_adjacency (example_parameters 0) (world_of sparse_farm (λ _, 0%Qc))
    = Raise ZeroDivisionError
  ∧ total_herd_at (herds (world_of sparse_farm (λ _, 0%Qc))) 6 = 0
  ∧ is_Ok (SwIAVs.sample_I_from_fatteners (example_parameters 0)
             (world_of sparse_farm (λ _, 0%Qc))) = true
  ∧ is_Ok (movement_edge (example_parameters 0) 4 1 (float_of_int 10080)
             (world_of sparse_farm (λ _, 0%Qc))) = true.
Proof. repeat split; vm_compute; reflexivity. Qed.

Lemma line_denominators_check_sound (hs : gmap Z Herd) :
  line_denominators_check hs = true →
  ∀ k, 4 ≤ k ≤ 15 → line_denominator hs k ≠ 0.
Proof.
  unfold line_denominators_check. rewrite forallb_forall. intros H k Hk.
  specialize (H k). rewrite negb_true_iff, Z.eqb_neq in H. apply H.
  apply list_elem_of_In, elem_of_py_range. lia.
Qed.

Lemma prefix_sum_ext (t t' : Z → Qc) (l : list Z) (j : Z) :
  (∀ k, t k = t' k) → prefix_sum t l j = prefix_sum t' l j.
Proof.
  intros H. induction l as [|k l IH]; simpl; [done|].
  rewrite H. destruct (k =? j); by rewrite ?IH.
Qed.

Lemma trans_of_insert (hs : gmap Z Herd) (i j : Z) (h : Herd) (v : Qc) :
  trans_of (<[i := set_trans v h]> hs) j = if bool_decide (i = j) then v else trans_of hs j.
Proof.
  unfold trans_of. case_bool_decide as E.
  - subst. by rewrite lookup_insert_eq.
  - by rewrite lookup_insert_ne.
Qed.

(** The rates after the loop over a list of pens: each pen of the list has
    received the running total as it was when its round ended. *)
Lemma line_loop_rates (p : Parameters) (l : list Z) :
  ∀ (tbp : Qc) (w : World),
    NoDup l → (∀ i, i ∈ l → 4 ≤ i ≤ 15) →
    has_pens 4 15 (herds w) →
    (∀ i, i ∈ l → line_denominator (herds w) i ≠ 0) →
    ∃ tbp' hs',
      foldM (Outrans.line_round p) tbp l w
      = Ok (tbp', mkWorld hs' (rng_tape w) (rng_pos w))
      ∧ only_rates_differ (herds w) hs'
      ∧ ∀ j, trans_of hs' j
             = (trans_of (herds w) j
                + (if bool_decide (j ∈ l)
                   then tbp + prefix_sum (line_term_value p (herds w)) l j
                   else 0))%Qc.
Proof.
  induction l as [|k l IH]; intros tbp w Hnodup Hrange Hpens Hden.
  - exists tbp, (herds w). split; [by destruct w|].
    split; [apply only_rates_differ_refl|].
    intros j. rewrite bool_decide_eq_false_2 by apply not_elem_of_nil.
    by rewrite Qcplus_0_r.
  - apply NoDup_cons in Hnodup as [Hk Hnodup].
    destruct (Hpens k) as [h Hh]; [apply Hrange; by left|].
    cbn [foldM].
    pose proof (line_round_run p tbp k w h Hpens (Hrange k ltac:(by left)) Hh) as Hround.
    replace (line_denominator (herds w) k =? 0) with false in Hround
      by (symmetry; apply Z.eqb_neq, Hden; by left).
    erewrite bind_Ok by exact Hround.
    set (t := line_term_value p (herds w) k) in *.
    set (w1 := mkWorld _ _ _).
    assert (Hdiff1 : only_rates_differ (herds w) (herds w1))
      by (by apply only_rates_differ_insert).
    pose proof (only_rates_differ_same_animals _ _ Hdiff1) as Hsame1.
    destruct (IH (tbp + t)%Qc w1) as (tbp' & hs' & Hrun & Hdiff & Hrates).
    + done.
    + intros i Hi. apply Hrange. by right.
    + by apply has_pens_insert.
    + intros i Hi. rewrite (same_animals_line_denominator (herds w)) by done.
      apply Hden. by right.
    + exists tbp', hs'. split; [exact Hrun|].
      split; [by eapply only_rates_differ_trans|].
      intros j. rewrite Hrates.
      rewrite (prefix_sum_ext _ (line_term_value p (herds w)))
        by (intros; by apply same_animals_line_term_value).
      subst w1. cbn [herds]. rewrite trans_of_insert.
      cbn [prefix_sum]. fold t.
      assert (Hold : trans_btwn_pens_frm_movement (statevars h) = trans_of (herds w) k)
        by (unfold trans_of; by rewrite Hh).
      case_bool_decide as Ekj.
      * subst j. rewrite Z.eqb_refl.
        rewrite (bool_decide_eq_false_2 (k ∈ l)) by done.
        rewrite (bool_decide_eq_true_2 (k ∈ k :: l)) by (by left).
        rewrite Hold. ring.
      * replace (k =? j) with false by lia.
        destruct (decide (j ∈ l)) as [Hin|Hnin].
        -- rewrite (bool_decide_eq_true_2 (j ∈ l)) by done.
           rewrite (bool_decide_eq_true_2 (j ∈ k :: l)) by (by right).
           ring.
        -- rewrite (bool_decide_eq_false_2 (j ∈ l)) by done.
           rewrite (bool_decide_eq_false_2 (j ∈ k :: l)); [done|].
           intros [?|?]%elem_of_cons; congruence.
Qed.

Lemma prefix_sum_running_total (t : Z → Qc) (j : Z) :
  4 ≤ j ≤ 15 → prefix_sum t (py_range 4 16) j = running_total t j.
Proof.
  intros Hj.
  assert (j = 4 ∨ j = 5 ∨ j = 6 ∨ j = 7 ∨ j = 8 ∨ j = 9 ∨ j = 10 ∨ j = 11
          ∨ j = 12 ∨ j = 13 ∨ j = 14 ∨ j = 15) as Hcases by lia.
  repeat (destruct Hcases as [-> | Hcases]; [reflexivity|]).
  subst. reflexivity.
Qed.

(** The loop of the line variant: when no term divides by an empty
    denominator, the loop returns and each fattening pen [i] (4 to 15) has
    had added to its rate (not written over it) the running total of the
    terms of pens 4 to [i], where the term of a pen at an end of its line
    (4, 5, 14, 15) is the rate times the share of infectious animals of its
    one neighbour two pens away, and the term of a pen inside a line is the
    rate times the pooled share of its two neighbours; the other pens keep
    their rates, and every pen its animals. *)
Lemma line_loop_adds_running_total (p : Parameters) (w : World) :
  has_pens 4 15 (herds w) →
  (∀ k, 4 ≤ k ≤ 15 → line_denominator (herds w) k ≠ 0) →
  ∃ w', Outrans.line_adjacency p w = Ok (tt, w')
    ∧ same_animals (herds w) (herds w')
    ∧ (∀ i, 4 ≤ i ≤ 15 →
         trans_of (herds w') i
         = (trans_of (herds w) i
            + running_total (line_term_value p (herds w)) i)%Qc)
    ∧ (∀ i, ¬ 4 ≤ i ≤ 15 → trans_of (herds w') i = trans_of (herds w) i).
Proof.
  intros Hpens Hden. unfold Outrans.line_adjacency.
  destruct (line_loop_rates p (py_range 4 16) 0%Qc w)
    as (tbp & hs' & Hrun & Hdiff & Hrates).
  - apply NoDup_seqZ.
  - intros i Hi. apply elem_of_py_range in Hi. lia.
  - done.
  - intros i Hi. apply elem_of_py_range in Hi. apply Hden. lia.
  - erewrite bind_Ok by exact Hrun.
    eexists. split; [reflexivity|]. cbn [herds] in *.
    split; [|split].
    + by apply only_rates_differ_same_animals.
    + intros i Hi. rewrite Hrates.
      rewrite bool_decide_eq_true_2 by (apply elem_of_py_range; lia).
      rewrite prefix_sum_running_total by done.
      by rewrite Qcplus_0_l.
    + intros i Hi. rewrite Hrates.
      rewrite bool_decide_eq_false_2 by (rewrite elem_of_py_range; lia).
      by rewrite Qcplus_0_r.
Qed.

(** C3 (the code at the example farm, where only pen 6 has an infectious
    animal, one of three).  The function of the line file stops on
    [AttributeError] at its first statement, so no pen receives any
    pressure.  Its loop, run from the same farm, does not give the
    pressure of the claim either: pen 5 has no infectious neighbour in its
    line, so the claimed pressure on it is 0, and the loop adds 1/3 to its
    rate, the term of pen 4 (of the other line) carried over in the running
    total, which is never reset; and pen 8, between pens 6 and 10, is
    claimed 1/3 + 0 and receives the running total 1/3 + 1/6 = 1/2, the
    last term being the pooled share 1/6 of its two neighbours. *)
Theorem line_adjacency_is_not_per_neighbour :
  Outrans.sample_I_from_fatteners (example_parameters 0) (world_of example_farm (λ _, 0%Qc))
  = Raise AttributeError
  ∧ pen_after 5 rate (Outrans.line_adjacency (example_parameters 0))
      (world_of example_farm (λ _, 0%Qc)) = Ok (1 # 3)%Q
  ∧ this (trans_of (herds (world_of example_farm (λ _, 0%Qc))) 5
          + claimed_line_pressure (example_parameters 0)
              (herds (world_of example_farm (λ _, 0%Qc))) 5)%Qc = 0%Q
  ∧ pen_after 8 rate (Outrans.line_adjacency (example_parameters 0))
      (world_of example_farm (λ _, 0%Qc)) = Ok (1 # 2)%Q
  ∧ this (trans_of (herds (world_of example_farm (λ _, 0%Qc))) 8
          + claimed_line_pressure (example_parameters 0)
              (herds (world_of example_farm (λ _, 0%Qc))) 8)%Qc = (1 # 3)%Q
  ∧ this (line_term_value (example_parameters 0)
            (herds (world_of example_farm (λ _, 0%Qc))) 8) = (1 # 6)%Q.
Proof. repeat split; vm_compute; reflexivity. Qed.

(** ** The external pathway *)

(** With [P2 = 1] the contact risk is [P1 * (1 - 1) = 0], below which no
    draw of [np.random.random()] lies: the animal is returned as it is. *)
Lemma expose_perfect_biosecurity
    (draw_P2 : M Qc) (p : Parameters) (pig : Atom)
    (hs : gmap Z Herd) (tape : nat → Qc) (pos : nat) :
  (∀ n, 0 ≤ tape n)%Qc →
  always_draws 1%Qc tape draw_P2 →
  ∃ pos', expose draw_P2 p pig (mkWorld hs tape pos) = Ok (pig, mkWorld hs tape pos').
Proof.
  intros Htape Hdraw. unfold expose.
  unfold np_random_uniform, random_random.
  do 3 (erewrite bind_Ok by (erewrite bind_Ok by reflexivity; reflexivity));
    cbn [herds rng_tape rng_pos].
  destruct (Hdraw hs (S (S (S pos)))) as [pos' Hp2].
  erewrite bind_Ok by exact Hp2. cbv zeta.
  erewrite bind_Ok by reflexivity. cbn [herds rng_tape rng_pos].
  rewrite bool_decide_eq_false_2; [by eexists|].
  replace (_ * (1 - 1))%Qc with 0%Qc by ring.
  apply Qcle_not_lt, Htape.
Qed.

Lemma exposures_perfect_biosecurity
    (draw_P2 : M Qc) (p : Parameters) (tape : nat → Qc) (l : list Atom) :
  (∀ n, 0 ≤ tape n)%Qc →
  always_draws 1%Qc tape draw_P2 →
  ∀ (hs : gmap Z Herd) (pos : nat),
    ∃ pos', mapM (λ pig, if is_in_state pig hs_S then expose draw_P2 p pig else mret pig)
              l (mkWorld hs tape pos)
            = Ok (l, mkWorld hs tape pos').
Proof.
  intros Htape Hdraw. induction l as [|pig l IH]; intros hs pos; simpl.
  - by eexists.
  - assert (∃ pos1, (if is_in_state pig hs_S then expose draw_P2 p pig else mret pig)
                      (mkWorld hs tape pos) = Ok (pig, mkWorld hs tape pos1))
      as [pos1 Hpig].
    { destruct (is_in_state pig hs_S); [|by eexists].
      by apply expose_perfect_biosecurity. }
    erewrite bind_Ok by exact Hpig.
    destruct (IH hs pos1) as [pos2 Hl].
    erewrite bind_Ok by exact Hl. by eexists.
Qed.

(** C8. When every draw of the biosecurity success [P2] is 1, the external
    pathway runs over pens 0 to 15 and leaves every pen, and so the state
    of every animal, as it was, whatever [proba_encounter], [proba_trans]
    and [proba_ext_I] are; the draws of [np.random.random()] are taken
    from the tape, and are not negative. *)
Theorem perfect_biosecurity_infects_nobody
    (draw_P2 : M Qc) (p : Parameters) (w : World) :
  has_pens 0 15 (herds w) →
  (∀ n, 0 ≤ rng_tape w n)%Qc →
  always_draws 1%Qc (rng_tape w) draw_P2 →
  ∃ w', external_pathway_with draw_P2 p w = Ok (tt, w')
        ∧ herds w' = herds w.
Proof.
  intros Hpens Htape Hdraw. unfold external_pathway_with.
  destruct (for_each_invariant
              (λ w', herds w' = herds w ∧ rng_tape w' = rng_tape w)
              (λ h, herd ← get_herd h;
                    atoms' ← mapM (λ pig, if is_in_state pig hs_S
                                          then expose draw_P2 p pig else mret pig)
                                  (atoms herd);
                    update_herd h (set_atoms atoms'))
              (py_range 0 16)) with (w := w) as (w' & Hrun & Hh & _).
  - intros h [hs tape pos] Hh [Hhs Ht]. simpl in Hhs, Ht. subst hs tape.
    apply elem_of_py_range in Hh.
    destruct (Hpens h) as [herd Hherd]; [lia|].
    erewrite bind_Ok by (by apply get_herd_Some).
    destruct (exposures_perfect_biosecurity draw_P2 p (rng_tape w) (atoms herd)
                Htape Hdraw (herds w) pos) as [pos' Hl].
    erewrite bind_Ok by exact Hl.
    erewrite update_herd_Some by exact Hherd.
    eexists. split; [reflexivity|]. simpl. split; [|done].
    apply insert_id. rewrite Hherd. by destruct herd.
  - done.
  - by exists w'.
Qed.

(** The uniform draw between equal bounds 1 is always 1. *)
Lemma uniform_P2_perfect (p : Parameters) (tape : nat → Qc) :
  proba_success_biosec_pes p = 1%Qc →
  proba_success_biosec_opt p = 1%Qc →
  always_draws 1%Qc tape (uniform_P2 p).
Proof.
  intros Hpes Hopt hs pos. unfold uniform_P2, np_random_uniform.
  rewrite Hpes, Hopt. exists (S pos).
  erewrite bind_Ok by reflexivity. unfold mret, M_ret. cbn [herds rng_tape rng_pos].
  f_equal; f_equal; ring.
Qed.

(** The same for the uniform draw between 1 and 1 at the example farm, on
    a tape of halves. *)
Lemma perfect_biosecurity_infects_nobody_witness :
  has_pens 0 15 (herds (world_of example_farm (λ _, Q2Qc (1 # 2))))
  ∧ ∃ w', swIAVs_external_pathway (example_parameters 0)
            (world_of example_farm (λ _, Q2Qc (1 # 2))) = Ok (tt, w')
          ∧ herds w' = herds (world_of example_farm (λ _, Q2Qc (1 # 2))).
Proof.
  assert (H1 : has_pens 0 15 (herds (world_of example_farm (λ _, Q2Qc (1 # 2)))))
    by (apply has_pens_check_sound; vm_compute; reflexivity).
  assert (H2 : ∀ n : nat,
             (0 ≤ rng_tape (world_of example_farm (λ _, Q2Qc (1 # 2))) n)%Qc)
    by (intros n; vm_compute; discriminate).
  assert (H3 : always_draws 1%Qc
                 (rng_tape (world_of example_farm (λ _, Q2Qc (1 # 2))))
                 (uniform_P2 (example_parameters 0)))
    by (apply uniform_P2_perfect; reflexivity).
  split; [exact H1|].
  exact (perfect_biosecurity_infects_nobody (uniform_P2 (example_parameters 0))
           (example_parameters 0) _ H1 H2 H3).
Defined.

(** With a biosecurity success of 0, and a tape on which the draws of
    [np.random.random()] are 0 and the others 1/2, the contact risk is 1/8
    and the susceptible animal of pen 3 is infected. *)
Example imperfect_biosecurity_infects :
  pen_after 3 (λ h, length (select_atoms_health hs_S h))
    (external_pathway_with (mret 0%Qc) (example_parameters 0))
    (world_of example_farm
       (λ n, if (n `mod` 4 =? 3)%nat then 0%Qc else Q2Qc (1 # 2)))
  = Ok 0%nat
  ∧ pen_after 3 (λ h, length (select_atoms_health hs_S h))
      (mret tt)
      (world_of example_farm
         (λ n, if (n `mod` 4 =? 3)%nat then 0%Qc else Q2Qc (1 # 2)))
    = Ok 1%nat.
Proof. split; vm_compute; reflexivity. Qed.

(** ** The process on a schedule *)

(** One movement of half a week from pen 3, where 10 animals of 100 are
    infectious, to pen 1, without biosecurity and with a rate of 1: the
    rates are reset, and pen 1 ends at 1/2 * 1 * 1/10. *)
Example farmer_moves_scenario :
  map (λ i, pen_after i rate
              (farmer_moves (example_parameters 0)
                 [(0, [(3, [(1, float_of_int 5040)])])] 0)
              (world_of ([([], 0%Qc); ([], float_of_int 7); ([], 0%Qc);
                          (pigs age_Jn 100 10, float_of_int 3)]
                         ++ replicate 14 ([], 0%Qc))
                        (λ _, 0%Qc)))
      [0; 1; 2; 3]
  = [Ok 0%Q; Ok (1 # 20)%Q; Ok 0%Q; Ok 0%Q].
Proof. vm_compute. reflexivity. Qed.

(** A step without movements only resets the rates. *)
Example farmer_moves_no_movement :
  map (λ i, pen_after i rate
              (farmer_moves (example_parameters 0)
                 [(0, [(3, [(1, float_of_int 5040)])])] 1)
              (world_of ([([], 0%Qc); ([], float_of_int 7); ([], 0%Qc);
                          (pigs age_Jn 100 10, float_of_int 3)]
                         ++ replicate 14 ([], 0%Qc))
                        (λ _, 0%Qc)))
      [0; 1; 2; 3]
  = [Ok 0%Q; Ok 0%Q; Ok 0%Q; Ok 0%Q].
Proof. vm_compute. reflexivity. Qed.

(** The schedule of a file of three rows, the first before the origin. *)
Example restructure_moves_example :
  restructure_moves 10 7
    [mkRow 3 1 2 0%Qc; mkRow 18 3 4 1%Qc; mkRow 12 3 1 0%Qc; mkRow 19 3 4 1%Qc]
  = Ok [(1, [(3, [(4, 1%Qc); (4, 1%Qc)])]); (0, [(3, [(1, 0%Qc)])])].
Proof. reflexivity. Qed.

(* ===================================================================== *)
(** * Part III: further properties of the code                            *)
(* ===================================================================== *)

(** ** More on the preprocessor *)

(** X1. Once [run_preprocessor] has returned, the shared data hold a
    schedule, and a later run, whatever the files, the origin and the step
    duration, returns the same shared data: the file is read once. *)
Theorem run_preprocessor_runs_once
    (fs fs' : FileSystem) (input_files input_files' : InputFiles)
    (origin step_duration origin' step_duration' : Z) (shared shared' : SharedData) :
  run_preprocessor fs input_files origin step_duration shared = Ok shared' →
  (∃ moves, shared_moves shared' = Some moves)
  ∧ run_preprocessor fs' input_files' origin' step_duration' shared' = Ok shared'.
Proof.
  unfold run_preprocessor. intros Hrun.
  destruct (shared_moves shared) as [moves|] eqn:Hm.
  - injection Hrun as <-. rewrite Hm. eauto.
  - destruct (read_trade_file fs input_files) as [rows|]; [|done]. simpl in Hrun.
    destruct (restructure_moves origin step_duration rows) as [moves|]; [|done].
    injection Hrun as <-. simpl. eauto.
Qed.

Lemma run_preprocessor_runs_once_witness :
  run_preprocessor {["moves.csv"%string := [mkRow 12 3 1 0%Qc]]}
    (Some {["trade_file"%string := "moves.csv"%string]}) 10 7 (mkShared None)
  = Ok (mkShared (Some [(0, [(3, [(1, 0%Qc)])])]))
  ∧ run_preprocessor ∅ None 0 0 (mkShared (Some [(0, [(3, [(1, 0%Qc)])])]))
    = Ok (mkShared (Some [(0, [(3, [(1, 0%Qc)])])])).
Proof.
  assert (H : run_preprocessor {["moves.csv"%string := [mkRow 12 3 1 0%Qc]]}
                (Some {["trade_file"%string := "moves.csv"%string]}) 10 7 (mkShared None)
              = Ok (mkShared (Some [(0, [(3, [(1, 0%Qc)])])])))
    by (vm_compute; reflexivity).
  split; [exact H|].
  exact (proj2 (run_preprocessor_runs_once _ ∅ _ None 10 7 0 0 _ _ H)).
Defined.

Lemma restructure_rows_zero_duration (origin : Z) (rows : list Row) (moves : Schedule) :
  restructure_rows origin 0 moves rows
  = if existsb (λ r, origin <=? row_date r) rows
    then Raise ZeroDivisionError else Ok moves.
Proof.
  induction rows as [|r rows IH]; simpl; [done|].
  unfold restructure_row at 1.
  destruct (row_date r <? origin) eqn:E.
  - replace (origin <=? row_date r) with false by lia. simpl. apply IH.
  - replace (origin <=? row_date r) with true by lia. reflexivity.
Qed.

(** X2. [restructure_moves] fails in one way only: on a division by zero,
    which happens exactly when the step duration is zero and some row is
    not before the origin (rows before the origin are skipped before the
    division). *)
Theorem restructure_moves_raises_iff (origin step_duration : Z) (rows : list Row) :
  (restructure_moves origin step_duration rows = Raise ZeroDivisionError
   ↔ step_duration = 0 ∧ ∃ r, r ∈ rows ∧ origin ≤ row_date r)
  ∧ ((∃ moves, restructure_moves origin step_duration rows = Ok moves)
     ∨ restructure_moves origin step_duration rows = Raise ZeroDivisionError).
Proof.
  unfold restructure_moves.
  destruct (decide (step_duration = 0)) as [->|Hsd].
  - rewrite restructure_rows_zero_duration.
    destruct (existsb _ rows) eqn:E.
    + split; [|by right]. split; [|done]. intros _. split; [done|].
      apply existsb_exists in E as (r & Hin & Hr).
      exists r. split; [by apply list_elem_of_In | lia].
    + split; [|left; eauto]. split; [done|].
      intros (_ & r & Hin & Hr).
      assert (existsb (λ r, origin <=? row_date r) rows = true) as E'.
      { apply existsb_exists. exists r. split; [by apply list_elem_of_In | lia]. }
      congruence.
  - destruct (restructure_rows_entries origin step_duration rows Hsd [])
      as (moves & Hrun & _).
    rewrite Hrun. split; [|left; eauto].
    split; [done | intros [? _]; done].
Qed.

(** *** Dictionaries, continued *)

Lemma dict_set_set {V} (k : Z) (v v0 : V) (d : dict V) :
  dict_set k v (dict_set k v0 d) = dict_set k v d.
Proof.
  induction d as [|[k' v'] d IH]; simpl.
  - by rewrite Z.eqb_refl.
  - destruct (k' =? k) eqn:E; simpl; rewrite ?Z.eqb_refl, ?E, ?IH; done.
Qed.

Lemma dict_get_None_keys {V} (k : Z) (d : dict V) :
  dict_get k d = None ↔ k ∉ dict_keys d.
Proof.
  unfold dict_keys. induction d as [|[k' v'] d IH]; simpl.
  - split; [intros _; apply not_elem_of_nil | done].
  - rewrite not_elem_of_cons. destruct (k' =? k) eqn:E.
    + split; [done | intros [? _]; lia].
    + rewrite IH. split; [intros ?; split; [lia | done] | by intros [_ ?]].
Qed.

Lemma dict_keys_set {V} (k : Z) (v : V) (d : dict V) :
  dict_keys (dict_set k v d)
  = match dict_get k d with Some _ => dict_keys d | None => dict_keys d ++ [k] end.
Proof.
  unfold dict_keys. induction d as [|[k' v'] d IH]; simpl; [done|].
  destruct (k' =? k) eqn:E; simpl.
  - f_equal. lia.
  - rewrite IH. by destruct (dict_get k d).
Qed.

Lemma NoDup_dict_set {V} (k : Z) (v : V) (d : dict V) :
  NoDup (dict_keys d) → NoDup (dict_keys (dict_set k v d)).
Proof.
  intros H. rewrite dict_keys_set. destruct (dict_get k d) eqn:E; [done|].
  apply NoDup_app. split; [done|]. split; [|apply NoDup_singleton].
  intros x Hx ->%list_elem_of_singleton. by apply dict_get_None_keys in E.
Qed.

Lemma Forall_dict_set {V} (P : Z * V → Prop) (k : Z) (v : V) (d : dict V) :
  P (k, v) → Forall P d → Forall P (dict_set k v d).
Proof.
  intros Hv H. induction H as [|[k' v'] d Hx Hd IH]; simpl.
  - by constructor.
  - destruct (k' =? k); constructor; done.
Qed.

Lemma Forall_dict_get {V} (P : Z * V → Prop) (k : Z) (v : V) (d : dict V) :
  Forall P d → dict_get k d = Some v → P (k, v).
Proof.
  intros H. induction H as [|[k' v'] d Hx _ IH]; simpl; [done|].
  destruct (k' =? k) eqn:E; [|done]. intros [= <-].
  assert (k' = k) as <- by lia. done.
Qed.

Lemma dict_sum_set {V} (f : V → nat) (k : Z) (v : V) (d : dict V) :
  (dict_sum f (dict_set k v d)
   + match dict_get k d with Some old => f old | None => 0 end
   = dict_sum f d + f v)%nat.
Proof.
  unfold dict_sum. induction d as [|[k' v'] d IH]; simpl; [lia|].
  destruct (k' =? k); simpl; lia.
Qed.

Lemma dict_set_nonempty {V} (k : Z) (v : V) (d : dict V) : dict_set k v d ≠ [].
Proof. destruct d as [|[k' v'] d]; simpl; [done|]. by destruct (k' =? k). Qed.

(** *** The schedule as a whole *)

(** A row that is not before the origin is appended under its step and its
    source, which are created when they are missing. *)
Lemma restructure_row_upsert (origin step_duration : Z) (moves : Schedule) (r : Row) :
  step_duration ≠ 0 → origin ≤ row_date r →
  restructure_row origin step_duration moves r
  = Ok (dict_set ((row_date r - origin) / step_duration)
          (dict_set (row_source r)
             (default [] (dict_get ((row_date r - origin) / step_duration) moves
                          ≫= dict_get (row_source r))
              ++ [(row_dest r, row_duration r)])
             (default [] (dict_get ((row_date r - origin) / step_duration) moves)))
          moves).
Proof.
  intros Hsd Hdate. unfold restructure_row.
  replace (row_date r <? origin) with false by lia.
  unfold py_floordiv. replace (step_duration =? 0) with false by lia. simpl.
  set (k0 := (row_date r - origin) / step_duration). set (s0 := row_source r).
  unfold dict_mem, dict_item.
  destruct (dict_get k0 moves) as [bs|] eqn:Hk; simpl.
  - rewrite Hk. simpl. destruct (dict_get s0 bs) as [l|] eqn:Hs; simpl.
    + rewrite Hs. done.
    + rewrite dict_get_set_eq. simpl. by rewrite (dict_set_set s0).
  - rewrite dict_get_set_eq. simpl. rewrite Z.eqb_refl. simpl.
    by rewrite (dict_set_set k0).
Qed.

Lemma restructure_row_wf (origin step_duration : Z) (moves : Schedule) (r : Row) :
  step_duration ≠ 0 →
  schedule_wf moves →
  ∃ moves', restructure_row origin step_duration moves r = Ok moves'
    ∧ schedule_wf moves'
    ∧ schedule_size moves'
      = (schedule_size moves + if (origin <=? row_date r)%Z then 1 else 0)%nat
    ∧ (0 < step_duration → Forall (λ kv, 0 ≤ kv.1) moves → Forall (λ kv, 0 ≤ kv.1) moves').
Proof.
  intros Hsd [Hkeys Hinner].
  destruct (origin <=? row_date r) eqn:Hdate.
  2:{ exists moves. unfold restructure_row.
      replace (row_date r <? origin) with true by lia.
      split; [done|]. split; [done|]. split; [lia | done]. }
  rewrite restructure_row_upsert by lia.
  set (k0 := (row_date r - origin) / step_duration). set (s0 := row_source r).
  set (bs := default [] (dict_get k0 moves)).
  set (old := default [] (dict_get k0 moves ≫= dict_get s0)).
  assert (Hbs : NoDup (dict_keys bs) ∧ Forall (λ sl : Z * list (Z * Qc), sl.2 ≠ []) bs).
  { subst bs. destruct (dict_get k0 moves) as [b|] eqn:Hk; simpl.
    - by destruct (Forall_dict_get _ _ _ _ Hinner Hk) as (? & _ & ?).
    - split; [apply NoDup_nil_2 | constructor]. }
  destruct Hbs as [Hbs1 Hbs2].
  eexists. split; [reflexivity|]. split; [|split].
  - split; [by apply NoDup_dict_set|].
    apply Forall_dict_set; [|done]. simpl.
    split; [by apply NoDup_dict_set|]. split; [apply dict_set_nonempty|].
    apply Forall_dict_set; [|done]. simpl. by destruct old.
  - unfold schedule_size.
    pose proof (dict_sum_set (dict_sum (λ l : list (Z * Qc), length l)) k0
                  (dict_set s0 (old ++ [(row_dest r, row_duration r)]) bs) moves) as H1.
    pose proof (dict_sum_set (λ l : list (Z * Qc), length l) s0
                  (old ++ [(row_dest r, row_duration r)]) bs) as H2.
    rewrite length_app in H2. simpl in H2.
    subst bs old. destruct (dict_get k0 moves) as [b|] eqn:Hk; simpl in *.
    + destruct (dict_get s0 b); simpl in *; lia.
    + change (dict_sum (λ l : list (Z * Qc), length l)
                [(s0, [(row_dest r, row_duration r)])]) with 1%nat in H1.
      lia.
  - intros Hpos Hnonneg. apply Forall_dict_set; [|done]. simpl.
    subst k0. apply Z.div_pos; lia.
Qed.

(** X3. For a step duration that is not zero the schedule is a well-formed
    pair of nested dictionaries (no step twice, no source twice under a
    step, nothing empty) that holds as many movements as the file has rows
    not before the origin: none is lost, none is counted twice; and for a
    positive step duration no step is negative. *)
Theorem restructure_moves_wf (origin step_duration : Z) (rows : list Row) :
  step_duration ≠ 0 →
  ∃ moves, restructure_moves origin step_duration rows = Ok moves
    ∧ schedule_wf moves
    ∧ schedule_size moves = length (retained origin rows)
    ∧ (0 < step_duration → Forall (λ kv, 0 ≤ kv.1) moves).
Proof.
  intros Hsd. unfold restructure_moves.
  assert (Hgen : ∀ moves0, schedule_wf moves0 →
            ∃ moves, restructure_rows origin step_duration moves0 rows = Ok moves
              ∧ schedule_wf moves
              ∧ schedule_size moves
                = (schedule_size moves0 + length (retained origin rows))%nat
              ∧ (0 < step_duration → Forall (λ kv, 0 ≤ kv.1) moves0
                 → Forall (λ kv, 0 ≤ kv.1) moves)).
  { induction rows as [|r rows IH]; intros moves0 Hwf; simpl.
    - exists moves0. split; [done|]. split; [done|]. split; [lia | done].
    - destruct (restructure_row_wf origin step_duration moves0 r Hsd Hwf)
        as (moves1 & -> & Hwf1 & Hsize1 & Hpos1). simpl.
      destruct (IH moves1 Hwf1) as (moves2 & -> & Hwf2 & Hsize2 & Hpos2).
      exists moves2. split; [done|]. split; [done|]. split; [|auto].
      rewrite Hsize2, Hsize1. destruct (origin <=? row_date r); simpl; lia. }
  destruct (Hgen []) as (moves & Hrun & Hwf & Hsize & Hpos).
  { split; [apply NoDup_nil_2 | constructor]. }
  exists moves. split; [done|]. split; [done|]. split; [exact Hsize|].
  intros H. apply Hpos; [done | constructor].
Qed.

Lemma restructure_moves_wf_witness :
  7 ≠ 0
  ∧ ∃ moves,
      restructure_moves 10 7
        [mkRow 3 1 2 0%Qc; mkRow 10 1 2 1%Qc; mkRow 18 3 4 1%Qc;
         mkRow 12 1 5 0%Qc; mkRow 18 3 4 1%Qc] = Ok moves
      ∧ schedule_wf moves
      ∧ schedule_size moves = 4%nat.
Proof.
  assert (H : 7 ≠ 0) by lia.
  split; [exact H|].
  destruct (restructure_moves_wf 10 7
              [mkRow 3 1 2 0%Qc; mkRow 10 1 2 1%Qc; mkRow 18 3 4 1%Qc;
               mkRow 12 1 5 0%Qc; mkRow 18 3 4 1%Qc] H)
    as (moves & Hrun & Hwf & Hsize & _).
  exists moves. split; [exact Hrun|]. split; [exact Hwf | exact Hsize].
Defined.

(** ** More on the movement of the farmers *)

Lemma sum_reads (l : list Z) :
  ∀ (acc : Z * Z) (w : World),
    (∀ i, i ∈ l → is_Some (herds w !! i)) →
    foldM (λ totals i, h ← get_herd i;
                       mret (totals.1 + total_I h, totals.2 + total_herd h)) acc l w
    = Ok ((acc.1 + sum_Z (map (total_I_at (herds w)) l),
           acc.2 + sum_Z (map (total_herd_at (herds w)) l)), w).
Proof.
  induction l as [|x l IH]; intros [a b] w Hl; simpl.
  - by rewrite !Z.add_0_r.
  - destruct (Hl x) as [h Hh]; [by left|].
    erewrite bind_Ok
      by (erewrite bind_Ok by (by apply get_herd_Some); reflexivity).
    rewrite IH by (intros i Hi; apply Hl; by right).
    unfold total_I_at at 2, total_herd_at at 2. rewrite Hh. simpl.
    do 3 f_equal; lia.
Qed.

Lemma risky_tests (p : Parameters) (source dest : Z) (dur : Qc) :
  (if (4 <=? source) && (source <=? 15) && ((1 <=? dest) && (dest <=? 3))
      && (biosec_remove_risky_move p =? 1)
   then 0%Qc
   else if (((source =? 1) && (dest =? 2))
            || ((source =? 3) && ((1 <=? dest) && (dest <=? 2))))
           && (biosec_remove_risky_move p =? 1)
   then 0%Qc
   else dur)
  = if risky_move source dest && (biosec_remove_risky_move p =? 1) then 0%Qc else dur.
Proof.
  unfold risky_move.
  destruct (4 <=? source), (source <=? 15), (1 <=? dest), (dest <=? 3),
    (source =? 1), (dest =? 2), (source =? 3), (dest <=? 2),
    (biosec_remove_risky_move p =? 1); reflexivity.
Qed.

(** The value computed for a movement is the contribution read off the
    animals; the animals and the rates are only read. *)
Lemma source_pressure_value (p : Parameters) (source dest : Z) (dur : Qc) (w : World) :
  has_pens 4 15 (herds w) →
  is_Some (herds w !! source) →
  source_pressure p source dest dur w
  = Ok (pressure_value p (herds w) source dest dur, w).
Proof.
  intros Hpens [src Hsrc]. unfold source_pressure, pressure_value.
  erewrite bind_Ok by (by apply get_herd_Some).
  unfold total_herd_at at 1. rewrite Hsrc.
  destruct ((0 <? total_herd src) && negb (dest =? 16) && negb (dest =? 17)) eqn:Hguard;
    [|reflexivity].
  cbv zeta. rewrite risky_tests.
  destruct (source =? 4) eqn:E4; cbn [negb].
  - erewrite bind_Ok
      by (apply sum_reads; intros i Hi; apply elem_of_py_range in Hi;
          apply Hpens; lia).
    cbn [fst snd]. rewrite !Z.add_0_l.
    fold (pooled_I (herds w)) (pooled_herd (herds w)).
    unfold lift. rewrite py_truediv_nonzero; [done|].
    rewrite float_of_int_0_iff. destruct (pooled_herd (herds w) =? 0) eqn:E; lia.
  - unfold total_I_at, total_herd_at. rewrite Hsrc.
    unfold lift. rewrite py_truediv_nonzero; [done|].
    rewrite float_of_int_0_iff. lia.
Qed.

Lemma same_animals_pressure_value (p : Parameters) (hs hs' : gmap Z Herd)
    (source dest : Z) (dur : Qc) :
  same_animals hs hs' →
  pressure_value p hs' source dest dur = pressure_value p hs source dest dur.
Proof.
  intros H. unfold pressure_value, pooled_I, pooled_herd.
  rewrite !(same_animals_total_I hs hs'), !(same_animals_total_herd hs hs') by done.
  assert (map (total_I_at hs') (py_range 4 16) = map (total_I_at hs) (py_range 4 16)) as ->
    by (apply map_ext; intros; by apply same_animals_total_I).
  assert (map (total_herd_at hs') (py_range 4 16) = map (total_herd_at hs) (py_range 4 16))
    as -> by (apply map_ext; intros; by apply same_animals_total_herd).
  done.
Qed.

Lemma same_animals_edge_contribution (p : Parameters) (hs hs' : gmap Z Herd)
    (j : Z) (e : Z * Z * Qc) :
  same_animals hs hs' → edge_contribution p hs' j e = edge_contribution p hs j e.
Proof.
  intros H. unfold edge_contribution.
  by rewrite (same_animals_pressure_value p hs hs').
Qed.

Lemma float_of_int_add (a b : Z) :
  float_of_int (a + b) = (float_of_int a + float_of_int b)%Qc.
Proof.
  unfold float_of_int. apply Qc_is_canon. unfold Qcplus, Q2Qc. cbn [this].
  rewrite !Qred_correct, inject_Z_plus. reflexivity.
Qed.

(** Adding the same value to the rate of a pen, once for each element of a
    list. *)
Lemma repeated_add_trans {A} (l : list A) (d : Z) (v : Qc) :
  ∀ (w : World) (h : Herd),
    herds w !! d = Some h →
    ∃ hs', for_each l (λ _, add_trans d v) w
           = Ok (tt, mkWorld hs' (rng_tape w) (rng_pos w))
      ∧ only_rates_differ (herds w) hs'
      ∧ ∀ j, trans_of hs' j
             = if bool_decide (d = j)
               then (trans_of (herds w) j + float_of_int (Z.of_nat (length l)) * v)%Qc
               else trans_of (herds w) j.
Proof.
  unfold for_each. induction l as [|x l IH]; intros w h Hh.
  - exists (herds w). split; [by destruct w|]. split; [apply only_rates_differ_refl|].
    intros j. case_bool_decide; [|done].
    change (float_of_int (Z.of_nat (length (@nil A)))) with 0%Qc. ring.
  - cbn [foldM]. unfold add_trans at 1.
    erewrite bind_Ok by (by apply update_herd_Some).
    set (w1 := mkWorld _ _ _).
    destruct (IH w1 (set_trans (trans_btwn_pens_frm_movement (statevars h) + v)%Qc h))
      as (hs' & Hrun & Hdiff & Hrates); [apply lookup_insert_eq|].
    exists hs'. split; [exact Hrun|]. split.
    + eapply only_rates_differ_trans; [|exact Hdiff].
      by apply only_rates_differ_insert.
    + intros j. rewrite Hrates. subst w1. cbn [herds]. rewrite trans_of_insert.
      case_bool_decide as E; [|done]. subst j.
      assert (trans_of (herds w) d = trans_btwn_pens_frm_movement (statevars h)) as ->
        by (unfold trans_of; by rewrite Hh).
      assert (float_of_int (Z.of_nat (length (x :: l)))
              = (1 + float_of_int (Z.of_nat (length l)))%Qc) as ->.
      { simpl length. rewrite Nat2Z.inj_succ, <- Z.add_1_l.
        apply float_of_int_add. }
      ring.
Qed.

Lemma only_rates_differ_has_pens (lo hi : Z) (hs hs' : gmap Z Herd) :
  only_rates_differ hs hs' → has_pens lo hi hs → has_pens lo hi hs'.
Proof.
  intros H. apply same_animals_has_pens. by apply only_rates_differ_same_animals.
Qed.

Lemma sum_Qc_app (l k : list Qc) : sum_Qc (l ++ k) = (sum_Qc l + sum_Qc k)%Qc.
Proof. unfold sum_Qc. induction l as [|x l IH]; simpl; [ring|]. rewrite IH. ring. Qed.

(** One movement between pens that exist: every rate grows by what the
    movement contributes to it, and nothing else changes but the position
    on the tape. *)
Lemma movement_edge_rates (p : Parameters) (source dest : Z) (dur : Qc) (w : World) :
  gamma_parameters_ok p →
  has_pens 0 17 (herds w) →
  0 ≤ source ≤ 17 → 0 ≤ dest ≤ 17 →
  ∃ hs' pos',
    movement_edge p source dest dur w = Ok (tt, mkWorld hs' (rng_tape w) pos')
    ∧ only_rates_differ (herds w) hs'
    ∧ ∀ j, trans_of hs' j
           = (trans_of (herds w) j
              + edge_contribution p (herds w) j (source, dest, dur))%Qc.
Proof.
  intros [Hbp Hpos] Hpens Hs Hd.
  destruct (gamma_parameters_usable p Hbp Hpos) as (Hsd & Hmean & Hscale).
  unfold movement_edge, edge_contribution. cbn [fst snd].
  destruct (source =? dest) eqn:Esd; cbn [negb orb].
  { exists (herds w), (rng_pos w). split; [by destruct w|].
    split; [apply only_rates_differ_refl|]. intros j. by rewrite Qcplus_0_r. }
  erewrite bind_Ok
    by (unfold lift; rewrite py_truediv_nonzero;
        [reflexivity | rewrite float_of_int_0_iff; lia]).
  erewrite bind_Ok by (unfold lift; rewrite py_truediv_nonzero by exact Hsd; reflexivity).
  cbv zeta.
  erewrite bind_Ok by (unfold lift; rewrite py_truediv_nonzero by exact Hmean; reflexivity).
  erewrite bind_Ok by (apply random_gamma_run; [apply Qc_square_nonneg | apply Hscale]).
  set (w1 := mkWorld (herds w) (rng_tape w) (S (rng_pos w))).
  erewrite bind_Ok
    by (apply source_pressure_value;
        [intros i Hi; apply Hpens; lia | apply Hpens; exact Hs]).
  cbn [herds w1]. set (v := pressure_value p (herds w) source dest dur).
  destruct (Hpens dest Hd) as [h Hh]. unfold add_trans at 1.
  erewrite bind_Ok by (apply update_herd_Some; exact Hh).
  set (w2 := mkWorld _ _ _).
  assert (Hold : trans_btwn_pens_frm_movement (statevars h) = trans_of (herds w) dest)
    by (unfold trans_of; by rewrite Hh).
  destruct (dest =? 4) eqn:E4.
  - destruct (repeated_add_trans (py_range 5 16) dest v w2
                (set_trans (trans_btwn_pens_frm_movement (statevars h) + v)%Qc h))
      as (hs' & Hrun & Hdiff & Hrates); [apply lookup_insert_eq|].
    exists hs', (S (rng_pos w)). split; [exact Hrun|]. split.
    + eapply only_rates_differ_trans; [|exact Hdiff].
      by apply only_rates_differ_insert.
    + intros j. rewrite Hrates. subst w2. cbn [herds]. rewrite trans_of_insert.
      case_bool_decide as E.
      * subst j. rewrite Z.eqb_refl, E4. cbn [negb]. rewrite Hold.
        change (float_of_int (Z.of_nat (length (py_range 5 16)))) with (float_of_int 11).
        change (float_of_int 12) with (float_of_int (1 + 11)).
        rewrite float_of_int_add. change (float_of_int 1) with 1%Qc. ring.
      * replace (dest =? j) with false by lia. cbn [negb]. by rewrite Qcplus_0_r.
  - eexists _, _. split; [reflexivity|]. split.
    + by apply only_rates_differ_insert.
    + intros j. cbn [herds]. rewrite trans_of_insert.
      case_bool_decide as E.
      * subst j. rewrite Z.eqb_refl, E4. cbn [negb]. by rewrite Hold.
      * replace (dest =? j) with false by lia. cbn [negb]. by rewrite Qcplus_0_r.
Qed.

(** The movements from one source, in order. *)
Lemma edges_loop_rates (p : Parameters) (source : Z) (edges : list (Z * Qc)) :
  gamma_parameters_ok p →
  0 ≤ source ≤ 17 →
  Forall (λ dd : Z * Qc, 0 ≤ dd.1 ≤ 17) edges →
  ∀ w, has_pens 0 17 (herds w) →
    ∃ hs' pos',
      for_each edges (λ '(dest, dur), movement_edge p source dest dur) w
      = Ok (tt, mkWorld hs' (rng_tape w) pos')
      ∧ only_rates_differ (herds w) hs'
      ∧ ∀ j, trans_of hs' j
             = (trans_of (herds w) j
                + sum_Qc (map (edge_contribution p (herds w) j)
                            (map (λ dd : Z * Qc, (source, dd.1, dd.2)) edges)))%Qc.
Proof.
  intros Hok Hs Hedges. unfold for_each.
  induction Hedges as [|[dest dur] edges Hd _ IH]; intros w Hpens.
  - exists (herds w), (rng_pos w). split; [by destruct w|].
    split; [apply only_rates_differ_refl|]. intros j. simpl.
    change (sum_Qc []) with 0%Qc. by rewrite Qcplus_0_r.
  - cbn [foldM].
    destruct (movement_edge_rates p source dest dur w Hok Hpens Hs Hd)
      as (hs1 & pos1 & Hrun1 & Hdiff1 & Hrates1).
    erewrite bind_Ok by exact Hrun1.
    destruct (IH (mkWorld hs1 (rng_tape w) pos1)) as (hs' & pos' & Hrun & Hdiff & Hrates).
    { by apply only_rates_differ_has_pens with (herds w). }
    exists hs', pos'. split; [exact Hrun|]. split.
    + by eapply only_rates_differ_trans.
    + intros j. rewrite Hrates. cbn [herds]. rewrite Hrates1.
      cbn [map]. unfold sum_Qc at 2. cbn [foldr]. fold (sum_Qc).
      assert (map (edge_contribution p hs1 j)
                (map (λ dd : Z * Qc, (source, dd.1, dd.2)) edges)
              = map (edge_contribution p (herds w) j)
                  (map (λ dd : Z * Qc, (source, dd.1, dd.2)) edges)) as ->.
      { apply map_ext. intros e. apply same_animals_edge_contribution.
        by apply only_rates_differ_same_animals. }
      cbn [fst snd]. unfold sum_Qc. ring.
Qed.

(** The movements of a step, source after source. *)
Lemma sources_loop_rates (p : Parameters) (by_source : dict (list (Z * Qc))) :
  gamma_parameters_ok p →
  Forall (λ se : Z * list (Z * Qc),
            0 ≤ se.1 ≤ 17 ∧ Forall (λ dd : Z * Qc, 0 ≤ dd.1 ≤ 17) se.2) by_source →
  ∀ w, has_pens 0 17 (herds w) →
    ∃ hs' pos',
      for_each by_source (λ '(source, edges),
        for_each edges (λ '(dest, dur), movement_edge p source dest dur)) w
      = Ok (tt, mkWorld hs' (rng_tape w) pos')
      ∧ only_rates_differ (herds w) hs'
      ∧ ∀ j, trans_of hs' j
             = (trans_of (herds w) j
                + sum_Qc (map (edge_contribution p (herds w) j)
                            (flat_map (λ se : Z * list (Z * Qc),
                                         map (λ dd : Z * Qc, (se.1, dd.1, dd.2)) se.2)
                                      by_source)))%Qc.
Proof.
  intros Hok Hall. unfold for_each at 1.
  induction Hall as [|[source edges] by_source [Hs Hedges] _ IH]; intros w Hpens.
  - exists (herds w), (rng_pos w). split; [by destruct w|].
    split; [apply only_rates_differ_refl|]. intros j. simpl.
    change (sum_Qc []) with 0%Qc. by rewrite Qcplus_0_r.
  - cbn [foldM]. cbn [fst snd] in Hs, Hedges.
    destruct (edges_loop_rates p source edges Hok Hs Hedges w Hpens)
      as (hs1 & pos1 & Hrun1 & Hdiff1 & Hrates1).
    erewrite bind_Ok by exact Hrun1.
    destruct (IH (mkWorld hs1 (rng_tape w) pos1)) as (hs' & pos' & Hrun & Hdiff & Hrates).
    { by apply only_rates_differ_has_pens with (herds w). }
    exists hs', pos'. split; [exact Hrun|]. split.
    + by eapply only_rates_differ_trans.
    + intros j. rewrite Hrates. cbn [herds]. rewrite Hrates1.
      cbn [flat_map fst snd]. rewrite map_app, sum_Qc_app.
      assert (∀ l, map (edge_contribution p hs1 j) l
                   = map (edge_contribution p (herds w) j) l) as ->.
      { intros l. apply map_ext. intros e. apply same_animals_edge_contribution.
        by apply only_rates_differ_same_animals. }
      ring.
Qed.

(** The reset of the rates of a list of pens that exist. *)
Lemma reset_loop (l : list Z) :
  ∀ w, (∀ i, i ∈ l → is_Some (herds w !! i)) →
    ∃ hs', for_each l (λ i, update_herd i (set_trans 0%Qc)) w
           = Ok (tt, mkWorld hs' (rng_tape w) (rng_pos w))
      ∧ only_rates_differ (herds w) hs'
      ∧ ∀ j, trans_of hs' j = if bool_decide (j ∈ l) then 0%Qc else trans_of (herds w) j.
Proof.
  unfold for_each. induction l as [|i l IH]; intros w Hl.
  - exists (herds w). split; [by destruct w|]. split; [apply only_rates_differ_refl|].
    intros j. by rewrite bool_decide_eq_false_2 by apply not_elem_of_nil.
  - destruct (Hl i) as [h Hh]; [by left|]. cbn [foldM].
    erewrite bind_Ok by (apply update_herd_Some; exact Hh).
    set (w1 := mkWorld _ _ _).
    assert (Hdiff1 : only_rates_differ (herds w) (herds w1))
      by (by apply only_rates_differ_insert).
    destruct (IH w1) as (hs' & Hrun & Hdiff & Hrates).
    { intros k Hk. apply (only_rates_differ_has_pens k k _ _ Hdiff1); [|lia].
      intros k' Hk'. assert (k' = k) as -> by lia. apply Hl. by right. }
    exists hs'. split; [exact Hrun|]. split; [by eapply only_rates_differ_trans|].
    intros j. rewrite Hrates. subst w1. cbn [herds]. rewrite trans_of_insert.
    destruct (decide (j ∈ l)) as [Hin|Hnin].
    + rewrite (bool_decide_eq_true_2 (j ∈ l)) by done.
      by rewrite (bool_decide_eq_true_2 (j ∈ i :: l)) by (by right).
    + rewrite (bool_decide_eq_false_2 (j ∈ l)) by done.
      case_bool_decide as E.
      * subst. by rewrite (bool_decide_eq_true_2 (j ∈ j :: l)) by (by left).
      * rewrite (bool_decide_eq_false_2 (j ∈ i :: l)); [done|].
        intros [?|?]%elem_of_cons; congruence.
Qed.

(** X4. On a farm of 18 pens, with parameters that the gamma draw accepts
    (a range of [bp_trans] that is not empty, a positive mean) and
    movements between pens 0 to 17, the process of the movements returns;
    it changes rates only, and the rate of every pen ends as the sum, over
    the movements of the step in order, of what each contributes to the
    pen, whatever the rate was before: zero for a step without
    movements. *)
Theorem farmer_moves_rates (p : Parameters) (moves : Schedule) (step : Z) (w : World) :
  nb_herds p = 18 →
  gamma_parameters_ok p →
  has_pens 0 17 (herds w) →
  step_in_range moves step →
  ∃ w', farmer_moves p moves step w = Ok (tt, w')
    ∧ only_rates_differ (herds w) (herds w')
    ∧ ∀ j, 0 ≤ j ≤ 17 →
        trans_of (herds w') j
        = sum_Qc (map (edge_contribution p (herds w) j) (step_edges moves step)).
Proof.
  intros Hnb Hok Hpens Hrange. unfold farmer_moves, step_edges, step_in_range in *.
  rewrite Hnb.
  destruct (reset_loop (py_range 0 18) w) as (hs0 & Hrun0 & Hdiff0 & Hrates0).
  { intros i Hi. apply elem_of_py_range in Hi. apply Hpens. lia. }
  erewrite bind_Ok by exact Hrun0.
  assert (Hzero : ∀ j, 0 ≤ j ≤ 17 → trans_of hs0 j = 0%Qc).
  { intros j Hj. rewrite Hrates0.
    by rewrite bool_decide_eq_true_2 by (apply elem_of_py_range; lia). }
  destruct (dict_get step moves) as [by_source|].
  - destruct (sources_loop_rates p by_source Hok Hrange
                (mkWorld hs0 (rng_tape w) (rng_pos w)))
      as (hs' & pos' & Hrun & Hdiff & Hrates).
    { by apply only_rates_differ_has_pens with (herds w). }
    eexists. split; [exact Hrun|]. cbn [herds] in *. split.
    + by eapply only_rates_differ_trans.
    + intros j Hj. rewrite Hrates, (Hzero j Hj), Qcplus_0_l.
      f_equal. apply map_ext. intros e. apply same_animals_edge_contribution.
      by apply only_rates_differ_same_animals.
  - eexists. split; [reflexivity|]. cbn [herds]. split; [done|].
    intros j Hj. by rewrite (Hzero j Hj).
Qed.

Lemma farmer_moves_rates_witness :
  has_pens 0 17 (herds (world_of example_farm (λ _, 0%Qc)))
  ∧ ∃ w', farmer_moves (example_parameters 0)
            [(0, [(3, [(1, float_of_int 5040); (3, float_of_int 60)]);
                  (6, [(16, float_of_int 30); (7, float_of_int 10080)])])] 0
            (world_of example_farm (λ _, 0%Qc)) = Ok (tt, w')
      ∧ this (trans_of (herds w') 1) = (1 # 4)%Q
      ∧ this (trans_of (herds w') 7) = (1 # 3)%Q.
Proof.
  assert (H1 : nb_herds (example_parameters 0) = 18) by reflexivity.
  assert (H2 : gamma_parameters_ok (example_parameters 0))
    by (split; [apply (bool_decide_eq_false_1 _) |]; vm_compute; reflexivity).
  assert (H3 : has_pens 0 17 (herds (world_of example_farm (λ _, 0%Qc))))
    by (apply has_pens_check_sound; vm_compute; reflexivity).
  assert (H4 : step_in_range
                 [(0, [(3, [(1, float_of_int 5040); (3, float_of_int 60)]);
                       (6, [(16, float_of_int 30); (7, float_of_int 10080)])])] 0)
    by (unfold step_in_range; simpl; repeat constructor; simpl; lia).
  split; [exact H3|].
  destruct (farmer_moves_rates (example_parameters 0) _ 0 _ H1 H2 H3 H4)
    as (w' & Hrun & _ & Hrates).
  exists w'. split; [exact Hrun|].
  rewrite (Hrates 1), (Hrates 7) by lia.
  split; vm_compute; reflexivity.
Defined.

(** X5. A movement from a pen to itself, out of an empty pen, or into a
    dressing room (pens 16 and 17) is processed, with parameters that the
    gamma draw accepts (a range of [bp_trans] that is not empty, a
    positive mean), and leaves every pen of the farm exactly as it was. *)
Theorem movement_without_contribution
    (p : Parameters) (source dest : Z) (dur : Qc) (w : World) :
  gamma_parameters_ok p →
  has_pens 0 17 (herds w) →
  0 ≤ source ≤ 17 → 0 ≤ dest ≤ 17 →
  source = dest ∨ total_herd_at (herds w) source = 0 ∨ dest = 16 ∨ dest = 17 →
  ∃ w', movement_edge p source dest dur w = Ok (tt, w') ∧ herds w' = herds w.
Proof.
  intros Hok Hpens Hs Hd Hcase.
  destruct (decide (source = dest)) as [->|Hne].
  { exists w. unfold movement_edge. by rewrite Z.eqb_refl. }
  destruct (movement_edge_rates p source dest dur w Hok Hpens Hs Hd)
    as (hs' & pos' & Hrun & Hdiff & Hrates).
  eexists. split; [exact Hrun|]. cbn [herds].
  assert (Hv : pressure_value p (herds w) source dest dur = 0%Qc).
  { unfold pressure_value.
    destruct Hcase as [?|[H0|[->| ->]]]; [done| | |].
    - rewrite H0. reflexivity.
    - by rewrite andb_false_r.
    - by rewrite andb_false_r. }
  apply map_eq. intros j. specialize (Hdiff j). specialize (Hrates j).
  unfold edge_contribution in Hrates. cbn [fst snd] in Hrates. rewrite Hv in Hrates.
  assert (trans_of hs' j = trans_of (herds w) j) as Hsame.
  { rewrite Hrates. destruct (_ || _); [ring|]. destruct (j =? 4); ring. }
  unfold trans_of in Hsame.
  destruct (hs' !! j) as [[l' [t' a' b']]|], (herds w !! j) as [[l [t a b]]|];
    simpl in *; try done.
  injection Hdiff as -> -> ->. by subst.
Qed.

Lemma movement_without_contribution_witness :
  has_pens 0 17 (herds (world_of example_farm (λ _, 0%Qc)))
  ∧ ∃ w', movement_edge (example_parameters 0) 6 16 (float_of_int 10080)
            (world_of example_farm (λ _, 0%Qc)) = Ok (tt, w')
          ∧ herds w' = herds (world_of example_farm (λ _, 0%Qc)).
Proof.
  assert (H2 : gamma_parameters_ok (example_parameters 0))
    by (split; [apply (bool_decide_eq_false_1 _) |]; vm_compute; reflexivity).
  assert (H3 : has_pens 0 17 (herds (world_of example_farm (λ _, 0%Qc))))
    by (apply has_pens_check_sound; vm_compute; reflexivity).
  split; [exact H3|].
  apply (movement_without_contribution (example_parameters 0) 6 16 (float_of_int 10080)
           _ H2 H3); [lia | lia | right; right; left; reflexivity].
Defined.

(** ** More on the full-pairwise variant *)

Lemma other_pens_totals_value (i : Z) (l : list Z) :
  ∀ (acc : Z * Z) (w : World),
    (∀ j, j ∈ l → is_Some (herds w !! j)) →
    foldM (λ totals j,
             if negb (j =? i) then
               h ← get_herd j;
               mret (totals.1 + total_I h, totals.2 + total_herd h)
             else mret totals) acc l w
    = Ok ((acc.1 + sum_Z (map (total_I_at (herds w))
                            (List.filter (λ j, negb (j =? i)) l)),
           acc.2 + sum_Z (map (total_herd_at (herds w))
                            (List.filter (λ j, negb (j =? i)) l))), w).
Proof.
  induction l as [|x l IH]; intros [a b] w Hl; simpl.
  - by rewrite !Z.add_0_r.
  - destruct (Hl x) as [h Hh]; [by left|].
    destruct (negb (x =? i)); simpl.
    + erewrite bind_Ok
        by (erewrite bind_Ok by (by apply get_herd_Some); reflexivity).
      rewrite IH by (intros j Hj; apply Hl; by right).
      unfold total_I_at at 2, total_herd_at at 2. rewrite Hh. simpl.
      do 3 f_equal; lia.
    + erewrite bind_Ok by reflexivity.
      apply IH. intros j Hj. apply Hl. by right.
Qed.

Lemma pairwise_round_value (p : Parameters) (i : Z) (w : World) (h : Herd) :
  has_pens 4 15 (herds w) → herds w !! i = Some h →
  SwIAVs.pairwise_round p i w
  = Ok (tt, mkWorld (<[i := set_trans (pairwise_value p (herds w) i) h]> (herds w))
                    (rng_tape w) (rng_pos w)).
Proof.
  intros Hpens Hh. unfold SwIAVs.pairwise_round, SwIAVs.other_pens_totals.
  erewrite bind_Ok
    by (apply other_pens_totals_value; intros j Hj; apply elem_of_py_range in Hj;
        apply Hpens; lia).
  cbv zeta. cbn [fst snd]. rewrite !Z.add_0_l.
  fold (others_I (herds w) i) (others_herd (herds w) i). unfold pairwise_value.
  destruct (others_herd (herds w) i =? 0) eqn:E; cbn [negb].
  - erewrite bind_Ok by reflexivity. by erewrite update_herd_Some by exact Hh.
  - erewrite bind_Ok
      by (unfold lift; rewrite py_truediv_nonzero;
          [reflexivity | rewrite float_of_int_0_iff; lia]).
    by erewrite update_herd_Some by exact Hh.
Qed.

Lemma same_animals_pairwise_value (p : Parameters) (hs hs' : gmap Z Herd) (i : Z) :
  same_animals hs hs' → pairwise_value p hs' i = pairwise_value p hs i.
Proof.
  intros H. unfold pairwise_value, others_I, others_herd.
  assert (∀ l, map (total_I_at hs') l = map (total_I_at hs) l) as ->
    by (intros; apply map_ext; intros; by apply same_animals_total_I).
  assert (∀ l, map (total_herd_at hs') l = map (total_herd_at hs) l) as ->
    by (intros; apply map_ext; intros; by apply same_animals_total_herd).
  done.
Qed.

Lemma pairwise_loop_rates (p : Parameters) (l : list Z) :
  ∀ w, (∀ i, i ∈ l → 4 ≤ i ≤ 15) → has_pens 4 15 (herds w) →
    ∃ hs', for_each l (SwIAVs.pairwise_round p) w
           = Ok (tt, mkWorld hs' (rng_tape w) (rng_pos w))
      ∧ only_rates_differ (herds w) hs'
      ∧ ∀ j, trans_of hs' j
             = if bool_decide (j ∈ l) then pairwise_value p (herds w) j
               else trans_of (herds w) j.
Proof.
  unfold for_each. induction l as [|i l IH]; intros w Hl Hpens.
  - exists (herds w). split; [by destruct w|]. split; [apply only_rates_differ_refl|].
    intros j. by rewrite bool_decide_eq_false_2 by apply not_elem_of_nil.
  - destruct (Hpens i) as [h Hh]; [apply Hl; by left|]. cbn [foldM].
    erewrite bind_Ok by (by apply pairwise_round_value).
    set (w1 := mkWorld _ _ _).
    assert (Hdiff1 : only_rates_differ (herds w) (herds w1))
      by (by apply only_rates_differ_insert).
    destruct (IH w1) as (hs' & Hrun & Hdiff & Hrates).
    { intros k Hk. apply Hl. by right. }
    { by apply only_rates_differ_has_pens with (herds w). }
    exists hs'. split; [exact Hrun|]. split; [by eapply only_rates_differ_trans|].
    intros j. rewrite Hrates.
    rewrite (same_animals_pairwise_value p (herds w))
      by (by apply only_rates_differ_same_animals).
    subst w1. cbn [herds]. rewrite trans_of_insert.
    destruct (decide (j ∈ l)) as [Hin|Hnin].
    + rewrite (bool_decide_eq_true_2 (j ∈ l)) by done.
      by rewrite (bool_decide_eq_true_2 (j ∈ i :: l)) by (by right).
    + rewrite (bool_decide_eq_false_2 (j ∈ l)) by done.
      case_bool_decide as E.
      * subst. by rewrite (bool_decide_eq_true_2 (j ∈ j :: l)) by (by left).
      * rewrite (bool_decide_eq_false_2 (j ∈ i :: l)); [done|].
        intros [?|?]%elem_of_cons; congruence.
Qed.

(** X6. The full-pairwise variant returns for every population of the
    fattening pens and writes over the rate of each pen 4 to 15, whatever
    it was (the contribution of the movements of the step included): the
    new rate is the rate of transmission times the share of infectious
    animals among the other fattening pens taken together, zero when these
    are all empty.  The other pens keep their rate, every pen its
    animals. *)
Theorem pairwise_adjacency_overwrites (p : Parameters) (w : World) :
  has_pens 4 15 (herds w) →
  ∃ w', SwIAVs.sample_I_from_fatteners p w = Ok (tt, w')
    ∧ same_animals (herds w) (herds w')
    ∧ (∀ i, 4 ≤ i ≤ 15 → trans_of (herds w') i = pairwise_value p (herds w) i)
    ∧ (∀ i, ¬ 4 ≤ i ≤ 15 → trans_of (herds w') i = trans_of (herds w) i).
Proof.
  intros Hpens.
  destruct (sample_infectious_pens_run w Hpens) as (hs1 & Hrun1 & Hsame & _ & Htrans).
  unfold SwIAVs.sample_I_from_fatteners.
  erewrite bind_Ok by exact Hrun1.
  destruct (pairwise_loop_rates p (py_range 4 16) (mkWorld hs1 (rng_tape w) (rng_pos w)))
    as (hs' & Hrun & Hdiff & Hrates).
  { intros i Hi. apply elem_of_py_range in Hi. lia. }
  { by eapply same_animals_has_pens. }
  eexists. split; [exact Hrun|]. cbn [herds] in *. split; [|split].
  - eapply same_animals_trans; [exact Hsame|].
    by apply only_rates_differ_same_animals.
  - intros i Hi. rewrite Hrates.
    rewrite bool_decide_eq_true_2 by (apply elem_of_py_range; lia).
    by apply same_animals_pairwise_value.
  - intros i Hi. rewrite Hrates, Htrans.
    by rewrite bool_decide_eq_false_2 by (rewrite elem_of_py_range; lia).
Qed.

Lemma pairwise_adjacency_overwrites_witness :
  has_pens 4 15 (herds (world_of (map (λ al, (al.1, float_of_int 5)) example_farm)
                          (λ _, 0%Qc)))
  ∧ ∃ w', SwIAVs.sample_I_from_fatteners (example_parameters 0)
            (world_of (map (λ al, (al.1, float_of_int 5)) example_farm) (λ _, 0%Qc))
          = Ok (tt, w')
    ∧ this (trans_of (herds w') 6) = 0%Q
    ∧ this (trans_of (herds w') 7) = (1 # 33)%Q
    ∧ this (trans_of (herds w') 3) = (5 # 1)%Q.
Proof.
  assert (H : has_pens 4 15
                (herds (world_of (map (λ al, (al.1, float_of_int 5)) example_farm)
                          (λ _, 0%Qc))))
    by (apply has_pens_check_sound; vm_compute; reflexivity).
  split; [exact H|].
  destruct (pairwise_adjacency_overwrites (example_parameters 0) _ H)
    as (w' & Hrun & _ & Hin & Hout).
  exists w'. split; [exact Hrun|].
  rewrite (Hin 6), (Hin 7), (Hout 3) by lia.
  repeat split; vm_compute; reflexivity.
Defined.

(** *** The rate is a share of the rate of transmission *)

Lemma float_of_int_le (a b : Z) : a ≤ b → (float_of_int a ≤ float_of_int b)%Qc.
Proof.
  intros H. unfold float_of_int, Qcle, Q2Qc. cbn [this].
  rewrite !Qred_correct. by rewrite <- Zle_Qle.
Qed.

Lemma float_of_int_pos (a : Z) : 0 < a → (0 < float_of_int a)%Qc.
Proof.
  intros H. change 0%Qc with (float_of_int 0).
  unfold float_of_int, Qclt, Q2Qc. cbn [this].
  rewrite !Qred_correct. by rewrite <- Zlt_Qlt.
Qed.

Lemma share_bounds (a b : Z) :
  0 ≤ a ≤ b → 0 < b →
  (0 ≤ float_of_int a / float_of_int b)%Qc ∧ (float_of_int a / float_of_int b ≤ 1)%Qc.
Proof.
  intros Ha Hb. pose proof (float_of_int_pos b Hb) as Hpos.
  assert (Hne : float_of_int b ≠ 0%Qc) by (rewrite float_of_int_0_iff; lia).
  assert (Hmul : (float_of_int a / float_of_int b * float_of_int b)%Qc = float_of_int a)
    by (field; exact Hne).
  split.
  - apply (Qcmult_lt_0_le_reg_r _ _ (float_of_int b) Hpos).
    rewrite Hmul, Qcmult_0_l. change 0%Qc with (float_of_int 0).
    apply float_of_int_le. lia.
  - apply (Qcmult_lt_0_le_reg_r _ _ (float_of_int b) Hpos).
    rewrite Hmul, Qcmult_1_l. apply float_of_int_le. lia.
Qed.

Lemma total_I_le_total_herd (hs : gmap Z Herd) (i : Z) :
  0 ≤ total_I_at hs i ≤ total_herd_at hs i.
Proof.
  unfold total_I_at, total_herd_at. destruct (hs !! i) as [h|]; [|lia].
  unfold total_I, count_atoms, total_herd.
  pose proof (List.filter_length_le (λ a, is_in_state a hs_I) (atoms h)). lia.
Qed.

Lemma sums_I_le_herd (hs : gmap Z Herd) (l : list Z) :
  0 ≤ sum_Z (map (total_I_at hs) l) ≤ sum_Z (map (total_herd_at hs) l).
Proof.
  induction l as [|i l IH]; simpl; [lia|].
  pose proof (total_I_le_total_herd hs i). lia.
Qed.

(** X7. The rate that the full-pairwise variant gives a pen lies between 0
    and the rate of transmission [neighboring_herd_trans], when this is not
    negative: the portion of infectious animals is a share, between 0 and
    1. *)
Theorem pairwise_value_bounds (p : Parameters) (hs : gmap Z Herd) (i : Z) :
  (0 ≤ neighboring_herd_trans p)%Qc →
  (0 ≤ pairwise_value p hs i)%Qc
  ∧ (pairwise_value p hs i ≤ neighboring_herd_trans p)%Qc.
Proof.
  intros Hnht. unfold pairwise_value.
  pose proof (sums_I_le_herd hs (List.filter (λ j, negb (j =? i)) (py_range 4 16))) as Hsum.
  fold (others_I hs i) (others_herd hs i) in Hsum.
  assert (Hshare : (0 ≤ (if others_herd hs i =? 0 then 0
                         else float_of_int (others_I hs i)
                              / float_of_int (others_herd hs i)))%Qc
                   ∧ ((if others_herd hs i =? 0 then 0
                       else float_of_int (others_I hs i)
                            / float_of_int (others_herd hs i)) ≤ 1)%Qc).
  { destruct (others_herd hs i =? 0) eqn:E.
    - split; [apply Qcle_refl | done].
    - apply share_bounds; lia. }
  destruct Hshare as [H0 H1].
  set (x := if others_herd hs i =? 0 then 0%Qc
            else (float_of_int (others_I hs i) / float_of_int (others_herd hs i))%Qc) in *.
  rewrite (Qcmult_comm (neighboring_herd_trans p)). split.
  - apply Qcle_trans with (0 * neighboring_herd_trans p)%Qc.
    + rewrite Qcmult_0_l. apply Qcle_refl.
    + by apply Qcmult_le_compat_r.
  - apply Qcle_trans with (1 * neighboring_herd_trans p)%Qc.
    + by apply Qcmult_le_compat_r.
    + rewrite Qcmult_1_l. apply Qcle_refl.
Qed.

Lemma pairwise_value_bounds_witness :
  (0 ≤ neighboring_herd_trans (example_parameters 0))%Qc
  ∧ (0 ≤ pairwise_value (example_parameters 0) (farm_of example_farm) 7)%Qc
  ∧ (pairwise_value (example_parameters 0) (farm_of example_farm) 7
     ≤ neighboring_herd_trans (example_parameters 0))%Qc.
Proof.
  assert (H : (0 ≤ neighboring_herd_trans (example_parameters 0))%Qc)
    by (vm_compute; discriminate).
  split; [exact H|].
  exact (pairwise_value_bounds (example_parameters 0) (farm_of example_farm) 7 H).
Defined.

(** ** The third pathway *)

Lemma last_nonempty_cons (hs : gmap Z Herd) (x : Z) (l : list Z) :
  last_nonempty hs (x :: l)
  = match last_nonempty hs l with
    | Some j => Some j
    | None => if total_herd_at hs x =? 0 then None else Some x
    end.
Proof.
  unfold last_nonempty. simpl.
  destruct (total_herd_at hs x =? 0); simpl; [by destruct (last _)|].
  destruct (List.filter _ l) as [|y k]; [done|].
  change (last (x :: y :: k)) with (last (y :: k)).
  destruct (last (y :: k)) eqn:E; [done|].
  by apply last_None in E.
Qed.

Lemma last_nonempty_None_I (hs : gmap Z Herd) (l : list Z) :
  last_nonempty hs l = None → sum_Z (map (total_I_at hs) l) = 0.
Proof.
  induction l as [|x l IH]; [done|]. rewrite last_nonempty_cons.
  destruct (last_nonempty hs l); [done|].
  destruct (total_herd_at hs x =? 0) eqn:E; [|done]. intros _. simpl.
  pose proof (total_I_le_total_herd hs x). rewrite IH by done. lia.
Qed.

(** The inner loop from any of its states: the sum of the infectious
    animals goes on, and the portion is renewed at each pen that is not
    empty. *)
Lemma third_path_rounds (i : Z) (l : list Z) :
  ∀ (st : Z * Z * Qc) (w : World),
    (∀ j, j ∈ l → is_Some (herds w !! j)) →
    ∃ total_herd',
      foldM (third_path_round i) st l w
      = Ok ((st.1.1 + sum_Z (map (total_I_at (herds w))
                               (List.filter (λ j, negb (i =? j)) l)),
             total_herd',
             match last_nonempty (herds w) (List.filter (λ j, negb (i =? j)) l) with
             | Some j =>
                 (float_of_int (st.1.1 + sum_Z (map (total_I_at (herds w))
                                                  (List.filter (λ j, negb (i =? j)) l)))
                  / float_of_int (total_herd_at (herds w) j))%Qc
             | None => st.2
             end), w).
Proof.
  induction l as [|x l IH]; intros [[tI tH] por] w Hl.
  - exists tH. simpl. by rewrite Z.add_0_r.
  - destruct (Hl x) as [h Hh]; [by left|].
    cbn [foldM List.filter].
    destruct (negb (i =? x)) eqn:Ex.
    + assert (HI : total_I_at (herds w) x = total_I h)
        by (unfold total_I_at; by rewrite Hh).
      assert (HH : total_herd_at (herds w) x = total_herd h)
        by (unfold total_herd_at; by rewrite Hh).
      assert (Hround :
                third_path_round i (tI, tH, por) x w
                = Ok ((tI + total_I h, total_herd h,
                       if total_herd h =? 0 then por
                       else (float_of_int (tI + total_I h)
                             / float_of_int (total_herd h))%Qc), w)).
      { unfold third_path_round. rewrite Ex.
        erewrite bind_Ok by (by apply get_herd_Some). cbv zeta. cbn [fst snd].
        destruct (total_herd h =? 0) eqn:E; cbn [negb].
        - by erewrite bind_Ok by reflexivity.
        - erewrite bind_Ok
            by (unfold lift; rewrite py_truediv_nonzero;
                [reflexivity | rewrite float_of_int_0_iff; lia]).
          reflexivity. }
      erewrite bind_Ok by exact Hround.
      destruct (IH (tI + total_I h, total_herd h,
                    if total_herd h =? 0 then por
                    else (float_of_int (tI + total_I h)
                          / float_of_int (total_herd h))%Qc) w) as [tH' Hrun].
      { intros j Hj. apply Hl. by right. }
      exists tH'. rewrite Hrun. cbn [fst snd map].
      rewrite last_nonempty_cons, HI, HH.
      change (sum_Z (total_I h :: ?l)) with (total_I h + sum_Z l).
      rewrite Z.add_assoc.
      destruct (last_nonempty (herds w) (List.filter (λ j, negb (i =? j)) l)) eqn:El;
        [done|].
      destruct (total_herd h =? 0); [done|].
      by rewrite (last_nonempty_None_I _ _ El), Z.add_0_r, HH.
    + assert (Hround : third_path_round i (tI, tH, por) x w = Ok ((tI, tH, por), w))
        by (unfold third_path_round; by rewrite Ex).
      erewrite bind_Ok by exact Hround.
      apply IH. intros j Hj. apply Hl. by right.
Qed.

Lemma third_path_portion_run (i : Z) (w : World) :
  has_pens 0 4 (herds w) →
  third_path_portion i w = Ok (third_portion (herds w) i, w).
Proof.
  intros Hpens. unfold third_path_portion.
  destruct (third_path_rounds i (py_range 0 5) (0, 0, 0%Qc) w) as [tH Hrun].
  { intros j Hj. apply elem_of_py_range in Hj. apply Hpens. lia. }
  erewrite bind_Ok by exact Hrun. cbn [fst snd]. unfold third_portion, other_areas.
  by rewrite Z.add_0_l.
Qed.

Lemma set_third_loop (v : Qc) (l : list Z) :
  ∀ (rates : gmap Z Qc) (w : World),
    (∀ k, k ∈ l → is_Some (herds w !! k)) →
    ∃ rates', foldM (λ rates k, set_trans_frm_3rd_path k v rates) rates l w
              = Ok (rates', w)
      ∧ ∀ j, rates' !! j = if bool_decide (j ∈ l) then Some v else rates !! j.
Proof.
  induction l as [|k l IH]; intros rates w Hl.
  - exists rates. split; [done|]. intros j.
    by rewrite bool_decide_eq_false_2 by apply not_elem_of_nil.
  - destruct (Hl k) as [h Hh]; [by left|]. cbn [foldM].
    assert (Hset : set_trans_frm_3rd_path k v rates w = Ok (<[k := v]> rates, w))
      by (unfold set_trans_frm_3rd_path;
          by erewrite bind_Ok by (by apply get_herd_Some)).
    erewrite bind_Ok by exact Hset.
    destruct (IH (<[k := v]> rates) w) as (rates' & Hrun & Hlook).
    { intros j Hj. apply Hl. by right. }
    exists rates'. split; [exact Hrun|]. intros j. rewrite Hlook.
    destruct (decide (j ∈ l)) as [Hin|Hnin].
    + rewrite (bool_decide_eq_true_2 (j ∈ l)) by done.
      by rewrite (bool_decide_eq_true_2 (j ∈ k :: l)) by (by right).
    + rewrite (bool_decide_eq_false_2 (j ∈ l)) by done.
      destruct (decide (k = j)) as [->|Hne].
      * rewrite lookup_insert_eq.
        by rewrite (bool_decide_eq_true_2 (j ∈ j :: l)) by (by left).
      * rewrite lookup_insert_ne by done.
        rewrite (bool_decide_eq_false_2 (j ∈ k :: l)); [done|].
        intros [?|?]%elem_of_cons; congruence.
Qed.

(** One area: pens 0 to 3 are written one by one, area 4 writes the same
    value to pens 4 to 15. *)
Lemma third_path_area_run (tpt : Qc) (rates : gmap Z Qc) (i : Z) (w : World) :
  has_pens 0 15 (herds w) → 0 ≤ i ≤ 4 →
  ∃ rates', third_path_area tpt rates i w = Ok (rates', w)
    ∧ ∀ j, rates' !! j
           = if bool_decide (Z.min j 4 = i ∧ 0 ≤ j ≤ 15)
             then Some (tpt * third_portion (herds w) i)%Qc
             else rates !! j.
Proof.
  intros Hpens Hi. unfold third_path_area.
  erewrite bind_Ok
    by (apply third_path_portion_run; intros j Hj; apply Hpens; lia).
  destruct (i =? 4) eqn:E4.
  - destruct (set_third_loop (tpt * third_portion (herds w) i)%Qc (py_range 4 16) rates w)
      as (rates' & Hrun & Hlook).
    { intros k Hk. apply elem_of_py_range in Hk. apply Hpens. lia. }
    exists rates'. split; [exact Hrun|]. intros j. rewrite Hlook.
    rewrite (bool_decide_ext (j ∈ py_range 4 16) (Z.min j 4 = i ∧ 0 ≤ j ≤ 15));
      [done|].
    rewrite elem_of_py_range. lia.
  - destruct (Hpens i) as [h Hh]; [lia|]. unfold set_trans_frm_3rd_path.
    erewrite bind_Ok by (by apply get_herd_Some).
    eexists. split; [reflexivity|]. intros j.
    destruct (decide (i = j)) as [->|Hne].
    + rewrite lookup_insert_eq. rewrite bool_decide_eq_true_2; [done|]. lia.
    + rewrite lookup_insert_ne by done. rewrite bool_decide_eq_false_2; [done|]. lia.
Qed.

(** X8. The third pathway returns for every population of pens 0 to 15 (an
    empty pen never divides) and leaves the world as it was; it writes the
    rate [trans_frm_3rd_path] of pens 0 to 15 and of no other pen: pen [j]
    of 0 to 3 receives the rate of its own area, and the twelve fattening
    pens 4 to 15 all receive the rate of area 4.  The rate of area [i] is
    [third_path_trans] times the infectious animals of the other areas
    among pens 0 to 4, over the animals of the last of these areas that is
    not empty (and not over the animals of all of them). *)
Theorem third_trans_pathway_rates (tpt : Qc) (rates : gmap Z Qc) (w : World) :
  has_pens 0 15 (herds w) →
  ∃ rates',
    third_trans_pathway tpt rates w = Ok (rates', w)
    ∧ (∀ j, 0 ≤ j ≤ 15 →
         rates' !! j = Some (tpt * third_portion (herds w) (Z.min j 4))%Qc)
    ∧ (∀ j, ¬ 0 ≤ j ≤ 15 → rates' !! j = rates !! j).
Proof.
  intros Hpens. unfold third_trans_pathway.
  change (py_range 0 5) with [0; 1; 2; 3; 4]. cbn [foldM].
  destruct (third_path_area_run tpt rates 0 w Hpens) as (r0 & Hrun0 & Hl0); [lia|].
  erewrite bind_Ok by exact Hrun0.
  destruct (third_path_area_run tpt r0 1 w Hpens) as (r1 & Hrun1 & Hl1); [lia|].
  erewrite bind_Ok by exact Hrun1.
  destruct (third_path_area_run tpt r1 2 w Hpens) as (r2 & Hrun2 & Hl2); [lia|].
  erewrite bind_Ok by exact Hrun2.
  destruct (third_path_area_run tpt r2 3 w Hpens) as (r3 & Hrun3 & Hl3); [lia|].
  erewrite bind_Ok by exact Hrun3.
  destruct (third_path_area_run tpt r3 4 w Hpens) as (r4 & Hrun4 & Hl4); [lia|].
  erewrite bind_Ok by exact Hrun4.
  exists r4. split; [reflexivity|]. split.
  - intros j Hj. rewrite Hl4, Hl3, Hl2, Hl1, Hl0.
    repeat case_bool_decide;
      first [ exfalso; lia
            | match goal with
              | H : Z.min j 4 = _ ∧ _ |- _ => destruct H as [-> _]; reflexivity
              end ].
  - intros j Hj. rewrite Hl4, Hl3, Hl2, Hl1, Hl0.
    repeat case_bool_decide; first [reflexivity | exfalso; lia].
Qed.

(** On a farm where pen 0 holds 100 animals, 50 of them infectious, pen 4
    a single healthy one and the others none, the rate of area 1 is
    50 / 1: the share is taken over the last area that is not empty. *)
Lemma third_trans_pathway_rates_witness :
  has_pens 0 15
    (herds (world_of ([(pigs age_A 100 50, 0%Qc); ([], 0%Qc); ([], 0%Qc); ([], 0%Qc);
                       (pigs age_Jf 1 0, 0%Qc)] ++ replicate 13 ([], 0%Qc))
              (λ _, 0%Qc)))
  ∧ ∃ rates',
      value_of (third_trans_pathway 1%Qc ∅)
        (world_of ([(pigs age_A 100 50, 0%Qc); ([], 0%Qc); ([], 0%Qc); ([], 0%Qc);
                    (pigs age_Jf 1 0, 0%Qc)] ++ replicate 13 ([], 0%Qc))
           (λ _, 0%Qc)) = Ok rates'
      ∧ this <$> rates' !! 1 = Some (50 # 1)%Q
      ∧ this <$> rates' !! 0 = Some 0%Q
      ∧ this <$> rates' !! 9 = Some (1 # 2)%Q
      ∧ rates' !! 16 = None.
Proof.
  assert (H : has_pens 0 15
    (herds (world_of ([(pigs age_A 100 50, 0%Qc); ([], 0%Qc); ([], 0%Qc); ([], 0%Qc);
                       (pigs age_Jf 1 0, 0%Qc)] ++ replicate 13 ([], 0%Qc))
              (λ _, 0%Qc))))
    by (apply has_pens_check_sound; vm_compute; reflexivity).
  split; [exact H|].
  destruct (third_trans_pathway_rates 1%Qc ∅ _ H) as (rates' & Hrun & Hin & Hout).
  exists rates'. split; [unfold value_of; by rewrite Hrun|].
  rewrite (Hin 1), (Hin 0), (Hin 9), (Hout 16) by lia.
  repeat split; vm_compute; reflexivity.
Defined.

(** ** More on the external pathway *)

Lemma exposed_from_refl (a : Atom) : exposed_from a a.
Proof. by left. Qed.

Lemma exposed_from_trans (a b c : Atom) :
  exposed_from a b → exposed_from b c → exposed_from a c.
Proof.
  intros [->|[Ha ->]] [->|[Hb ->]]; [by left | by right | by right |].
  by destruct a.
Qed.

Lemma pen_exposed_from_refl (h : Herd) : pen_exposed_from h h.
Proof.
  split; [done|]. induction (atoms h); constructor; [apply exposed_from_refl | done].
Qed.

Lemma pen_exposed_from_trans (h1 h2 h3 : Herd) :
  pen_exposed_from h1 h2 → pen_exposed_from h2 h3 → pen_exposed_from h1 h3.
Proof.
  intros [Hs12 Ha12] [Hs23 Ha23]. split; [congruence|].
  revert Ha23. generalize (atoms h3). induction Ha12 as [|a b l k Hab _ IH].
  - intros l3 H. by inversion H.
  - intros l3 H. inversion H as [|b' c k' m Hbc Hkm]; subst.
    constructor; [by eapply exposed_from_trans | by apply IH].
Qed.

Lemma expose_run (draw_P2 : M Qc) (p : Parameters) (pig : Atom) (w : World) :
  draws_only draw_P2 →
  ∃ pig' w', expose draw_P2 p pig w = Ok (pig', w')
    ∧ herds w' = herds w
    ∧ (pig' = pig ∨ pig' = apply_prototype infected_outside_farm pig).
Proof.
  intros Hdraw. unfold expose, np_random_uniform, random_random.
  do 3 (erewrite bind_Ok by (erewrite bind_Ok by reflexivity; reflexivity)).
  match goal with |- context [(draw_P2 ≫= _) ?w0] =>
    destruct (Hdraw w0) as (v & w1 & Hv & Hh) end.
  erewrite bind_Ok by exact Hv. cbv zeta.
  erewrite bind_Ok by reflexivity.
  case_bool_decide; eexists _, _; (split; [reflexivity|]); cbn [herds];
    (split; [exact Hh | auto]).
Qed.

Lemma exposures_run (draw_P2 : M Qc) (p : Parameters) (l : list Atom) :
  draws_only draw_P2 →
  ∀ w, ∃ l' w',
    mapM (λ pig, if is_in_state pig hs_S then expose draw_P2 p pig else mret pig) l w
    = Ok (l', w')
    ∧ herds w' = herds w
    ∧ Forall2 exposed_from l l'.
Proof.
  intros Hdraw. induction l as [|pig l IH]; intros w; cbn [mapM].
  - exists [], w. split; [done|]. split; [done | constructor].
  - assert (∃ pig' w1,
              (if is_in_state pig hs_S then expose draw_P2 p pig else mret pig) w
              = Ok (pig', w1)
              ∧ herds w1 = herds w ∧ exposed_from pig pig')
      as (pig' & w1 & Hpig & Hh1 & Hrel).
    { destruct (is_in_state pig hs_S) eqn:ES.
      - destruct (expose_run draw_P2 p pig w Hdraw) as (pig' & w1 & Hrun & Hh & Hcase).
        exists pig', w1. split; [done|]. split; [done|].
        destruct Hcase as [->| ->]; [by left|]. right. split; [|done].
        unfold is_in_state in ES. by apply bool_decide_eq_true in ES.
      - exists pig, w. split; [done|]. split; [done | by left]. }
    erewrite bind_Ok by exact Hpig.
    destruct (IH w1) as (l' & w2 & Hl & Hh2 & Hrel2).
    erewrite bind_Ok by exact Hl.
    exists (pig' :: l'), w2. split; [done|]. split; [congruence|].
    by constructor.
Qed.

(** X9. Whatever the random draws, the external pathway returns on a farm
    with pens 0 to 15, for a draw of [P2] that always returns and touches
    no pen (the uniform draw is such); it leaves the state variables of every
    pen and the pens 16 and above as they were, and in pens 0 to 15 it
    keeps the animals in number and order, each one either as it was or,
    if it was susceptible, infected from outside: no animal that is not
    susceptible is ever changed, none is added or removed. *)
Theorem external_pathway_changes_susceptibles_only
    (draw_P2 : M Qc) (p : Parameters) (w : World) :
  draws_only draw_P2 →
  has_pens 0 15 (herds w) →
  ∃ w', external_pathway_with draw_P2 p w = Ok (tt, w')
    ∧ (∀ i, option_Forall2 pen_exposed_from (herds w !! i) (herds w' !! i))
    ∧ (∀ i, ¬ 0 ≤ i ≤ 15 → herds w' !! i = herds w !! i).
Proof.
  intros Hdraw Hpens. unfold external_pathway_with.
  destruct (for_each_invariant
              (λ w', (∀ i, option_Forall2 pen_exposed_from (herds w !! i) (herds w' !! i))
                     ∧ (∀ i, ¬ 0 ≤ i ≤ 15 → herds w' !! i = herds w !! i))
              (λ h, herd ← get_herd h;
                    atoms' ← mapM (λ pig, if is_in_state pig hs_S
                                          then expose draw_P2 p pig else mret pig)
                                  (atoms herd);
                    update_herd h (set_atoms atoms'))
              (py_range 0 16)) with (w := w) as (w' & Hrun & Hrel & Hout).
  - intros h w1 Hh [Hrel1 Hout1]. apply elem_of_py_range in Hh.
    assert (is_Some (herds w1 !! h)) as [herd Hherd].
    { destruct (Hpens h) as [h0 Hh0]; [lia|]. specialize (Hrel1 h).
      rewrite Hh0 in Hrel1. inversion Hrel1. eauto. }
    erewrite bind_Ok by (by apply get_herd_Some).
    destruct (exposures_run draw_P2 p (atoms herd) Hdraw w1)
      as (l' & w2 & Hl & Hh2 & Hrel2).
    erewrite bind_Ok by exact Hl.
    erewrite update_herd_Some by (rewrite Hh2; exact Hherd).
    eexists. split; [reflexivity|]. cbn [herds]. rewrite Hh2. split.
    + intros i. destruct (decide (h = i)) as [<-|Hne].
      * rewrite lookup_insert_eq. specialize (Hrel1 h). rewrite Hherd in Hrel1.
        inversion Hrel1 as [h0 ? Hpen|]; subst. constructor.
        eapply pen_exposed_from_trans; [exact Hpen|]. by split.
      * by rewrite lookup_insert_ne.
    + intros i Hi. rewrite lookup_insert_ne by lia. by apply Hout1.
  - split; [|done]. intros i. destruct (herds w !! i); constructor.
    apply pen_exposed_from_refl.
  - exists w'. done.
Qed.

Lemma draws_only_uniform_P2 (p : Parameters) : draws_only (uniform_P2 p).
Proof. intros w. by eexists _, _. Qed.

(** The PERT draw of the other file is made when its parameters are
    accepted, and refused otherwise, as when the three are equal. *)
Lemma draws_only_pert_P2 (p : Parameters) :
  (proba_success_biosec_pes p < proba_success_biosec_ml p)%Qc →
  (proba_success_biosec_ml p < proba_success_biosec_opt p)%Qc →
  draws_only (pert_P2 p).
Proof.
  intros Hlo Hhi w. unfold pert_P2, pert_rvs.
  rewrite !bool_decide_eq_true_2 by done. by eexists _, _.
Qed.

Lemma pert_P2_refused (p : Parameters) (w : World) :
  proba_success_biosec_pes p = proba_success_biosec_opt p →
  pert_P2 p w = Raise ValueError.
Proof.
  intros Heq. unfold pert_P2, pert_rvs. rewrite Heq.
  destruct (bool_decide (_ < proba_success_biosec_ml p)%Qc) eqn:E1; [|done].
  destruct (bool_decide (proba_success_biosec_ml p < _)%Qc) eqn:E2; [|done].
  apply bool_decide_eq_true_1 in E1, E2.
  exfalso. exact (Qclt_not_le _ _ E1 (Qclt_le_weak _ _ E2)).
Qed.

Lemma external_pathway_changes_susceptibles_only_witness :
  has_pens 0 15 (herds (world_of example_farm (λ _, 0%Qc)))
  ∧ ∃ w', swIAVs_external_pathway (example_parameters 0)
            (world_of example_farm (λ _, 0%Qc)) = Ok (tt, w')
    ∧ (∀ i, option_Forall2 pen_exposed_from
              (herds (world_of example_farm (λ _, 0%Qc)) !! i) (herds w' !! i))
    ∧ (∀ i, ¬ 0 ≤ i ≤ 15 →
            herds w' !! i = herds (world_of example_farm (λ _, 0%Qc)) !! i).
Proof.
  assert (H : has_pens 0 15 (herds (world_of example_farm (λ _, 0%Qc))))
    by (apply has_pens_check_sound; vm_compute; reflexivity).
  split; [exact H|].
  exact (external_pathway_changes_susceptibles_only (uniform_P2 (example_parameters 0))
           (example_parameters 0) _ (draws_only_uniform_P2 _) H).
Defined.

(** ** More on the split of the growers *)

Lemma section_sizes_upper (T N : nat) :
  Forall (λ s, s ≤ T / N + (if (T `mod` N =? 0)%nat then 0 else 1))%nat
         (section_sizes T N).
Proof.
  unfold section_sizes. apply Forall_app. split.
  - destruct (T `mod` N)%nat as [|e] eqn:E; [constructor|].
    apply Forall_replicate. simpl. lia.
  - apply Forall_replicate. lia.
Qed.

Lemma section_sizes_lower (T N : nat) :
  Forall (λ s, T / N ≤ s)%nat (section_sizes T N).
Proof.
  unfold section_sizes. apply Forall_app. split; apply Forall_replicate; lia.
Qed.

Lemma reshape_lengths_Forall {A} (P : nat → Prop) (szs : list nat) (l : list A) :
  (sum_list szs ≤ length l)%nat → Forall P szs →
  Forall (λ part, P (length part)) (reshape szs l).
Proof.
  intros Hsum HP. rewrite <- (lengths_reshape szs l Hsum) in HP.
  by apply (Forall_fmap length P) in HP.
Qed.

(** X10. The sizes of the parts that go to the fattening pens.  A pool of
    fewer than 12 growers goes to pen 4 in one part.  From 12 growers on
    every part has at least 12 animals, and up to 155 growers (the process
    keeps at most 144) none has more than 23; the parts have 12 animals
    each exactly when the pool is a multiple of 12 up to 144. *)
Theorem fattening_part_sizes (growers : list Atom) :
  ∃ pens, array_split growers (nb_parts growers) = Ok pens
    ∧ ((length growers < 12)%nat → pens = [growers])
    ∧ ((12 ≤ length growers)%nat → Forall (λ pen, 12 ≤ length pen)%nat pens)
    ∧ ((length growers ≤ 155)%nat → Forall (λ pen, length pen ≤ 23)%nat pens)
    ∧ ((12 ≤ length growers ≤ 144)%nat →
       (Forall (λ pen, length pen = 12%nat) pens
        ↔ (length growers `mod` 12 = 0)%nat)).
Proof.
  pose proof (nb_parts_range growers) as Hn.
  set (P := length growers).
  set (n := Z.to_nat (nb_parts growers)).
  assert (Hsplit : array_split growers (nb_parts growers)
                   = Ok (reshape (section_sizes P n) growers))
    by (apply array_split_reshape; lia).
  assert (Hsum : sum_list (section_sizes P n) = P) by (apply sum_section_sizes; lia).
  assert (Hnval : n = if (P <? 12)%nat then 1%nat
                      else if (156 <=? P)%nat then 12%nat else (P / 12)%nat).
  { subst n. unfold nb_parts. fold P.
    destruct (P <? 12)%nat eqn:E1.
    - apply Nat.ltb_lt in E1.
      destruct (0 <? Z.of_nat P) eqn:E0; [|done].
      rewrite Z.div_small by lia. done.
    - apply Nat.ltb_ge in E1. replace (0 <? Z.of_nat P) with true by lia.
      assert (Z.of_nat P / 12 = Z.of_nat (P / 12)) as -> by (by rewrite Nat2Z.inj_div).
      pose proof (Nat.div_le_lower_bound P 12 1 ltac:(lia) ltac:(lia)).
      replace (Z.of_nat (P / 12) =? 0) with false by lia.
      destruct (156 <=? P)%nat eqn:E2.
      + apply Nat.leb_le in E2.
        pose proof (Nat.div_le_lower_bound P 12 13 ltac:(lia) ltac:(lia)).
        replace (12 <? Z.of_nat (P / 12)) with true by lia. done.
      + apply Nat.leb_gt in E2.
        pose proof (Nat.Div0.div_lt_upper_bound P 12 13 ltac:(lia)).
        replace (12 <? Z.of_nat (P / 12)) with false by lia. lia. }
  exists (reshape (section_sizes P n) growers). split; [exact Hsplit|].
  split; [|split; [|split]].
  - intros Hlt. rewrite Hnval. replace (P <? 12)%nat with true
      by (symmetry; apply Nat.ltb_lt; lia).
    unfold section_sizes. rewrite Nat.mod_1_r, Nat.div_1_r. simpl.
    by rewrite take_ge by (subst P; lia).
  - intros Hge. apply (reshape_lengths_Forall (λ s, 12 ≤ s)%nat); [lia|].
    eapply Forall_impl; [apply section_sizes_lower|]. simpl. intros s Hs.
    assert (12 ≤ P / n)%nat; [|lia].
    apply Nat.div_le_lower_bound; [lia|].
    rewrite Hnval. replace (P <? 12)%nat with false
      by (symmetry; apply Nat.ltb_ge; lia).
    destruct (156 <=? P)%nat eqn:E2; [apply Nat.leb_le in E2; lia|].
    pose proof (Nat.Div0.mul_div_le P 12). lia.
  - intros Hle. apply (reshape_lengths_Forall (λ s, s ≤ 23)%nat); [lia|].
    eapply Forall_impl; [apply section_sizes_upper|]. simpl. intros s Hs.
    rewrite Hnval in Hs.
    destruct (P <? 12)%nat eqn:E1.
    + apply Nat.ltb_lt in E1. rewrite Nat.mod_1_r, Nat.div_1_r in Hs. simpl in Hs. lia.
    + apply Nat.ltb_ge in E1.
      replace (156 <=? P)%nat with false in Hs by (symmetry; apply Nat.leb_gt; lia).
      pose proof (Nat.div_mod_eq P 12) as Hdm.
      pose proof (Nat.mod_upper_bound P 12 ltac:(lia)) as Hmod.
      set (k := (P / 12)%nat) in *.
      assert (1 ≤ k)%nat by (subst k; apply Nat.div_le_lower_bound; lia).
      destruct (decide (k = 1%nat)) as [Hk|Hk].
      * rewrite Hk, Nat.mod_1_r, Nat.div_1_r in Hs. simpl in Hs. lia.
      * assert (P / k ≤ 17)%nat.
        { apply Nat.lt_succ_r. apply Nat.Div0.div_lt_upper_bound. nia. }
        destruct (P `mod` k =? 0)%nat; lia.
  - intros [Hge Hle].
    assert (Hn' : n = (P / 12)%nat).
    { rewrite Hnval.
      replace (P <? 12)%nat with false by (symmetry; apply Nat.ltb_ge; lia).
      by replace (156 <=? P)%nat with false by (symmetry; apply Nat.leb_gt; lia). }
    pose proof (Nat.div_mod_eq P 12) as Hdm.
    pose proof (Nat.mod_upper_bound P 12 ltac:(lia)) as Hmod.
    assert (1 ≤ n)%nat by lia.
    split.
    + intros Hall.
      assert (sum_list (length <$> reshape (section_sizes P n) growers)
              = (length (reshape (section_sizes P n) growers) * 12)%nat) as Hs
        by (by apply sum_list_fmap_same).
      rewrite lengths_reshape, Hsum, length_reshape, length_section_sizes in Hs
        by lia.
      rewrite Hn' in Hs. lia.
    + intros Hmod0.
      assert (HP : P = (12 * n)%nat) by lia.
      apply (reshape_lengths_Forall (λ s, s = 12%nat)); [lia|].
      assert (Hq : (P / n = 12)%nat).
      { rewrite HP at 1. apply Nat.div_mul. lia. }
      assert (Hr : (P `mod` n = 0)%nat).
      { rewrite HP at 1. apply Nat.Div0.mod_mul. }
      pose proof (section_sizes_upper P n) as Hup.
      pose proof (section_sizes_lower P n) as Hlo.
      rewrite Hq in Hup, Hlo. rewrite Hr in Hup. simpl in Hup.
      pose proof (proj2 (Forall_and _ _) (conj Hlo Hup)) as Hboth.
      eapply Forall_impl; [exact Hboth|]. simpl. lia.
Qed.

(** ** The transfers between the pens *)

Lemma filter_partition (P : Atom → bool) (l : list Atom) :
  List.filter P l ++ List.filter (λ a, negb (P a)) l ≡ₚ l.
Proof.
  induction l as [|a l IH]; simpl; [done|].
  destruct (P a); simpl.
  - by rewrite IH.
  - rewrite <- Permutation_middle. by rewrite IH.
Qed.

Lemma select_all_of_age (g : AgeGroup) (h : Herd) :
  all_of_age g (select_atoms_age g h).
Proof.
  unfold all_of_age, select_atoms_age. apply Forall_forall. intros a Ha.
  apply list_elem_of_In, filter_In in Ha as [_ Ha]. by apply bool_decide_eq_true in Ha.
Qed.

Lemma remove_none_of_age (g : AgeGroup) (h : Herd) :
  none_of_age g (atoms (remove_atoms_age g h)).
Proof.
  unfold none_of_age, remove_atoms_age. simpl. apply Forall_forall. intros a Ha.
  apply list_elem_of_In, filter_In in Ha as [_ Ha].
  apply negb_true_iff in Ha. by apply bool_decide_eq_false in Ha.
Qed.

Lemma select_remove_partition (g : AgeGroup) (h : Herd) :
  select_atoms_age g h ++ atoms (remove_atoms_age g h) ≡ₚ atoms h.
Proof. unfold select_atoms_age, remove_atoms_age. simpl. apply filter_partition. Qed.

(** The animals of a group leave the source for the destination. *)
Lemma move_age_group_run (g : AgeGroup) (src dst : Z) (w : World) (hs hd : Herd) :
  src ≠ dst → herds w !! src = Some hs → herds w !! dst = Some hd →
  move_age_group g src dst w
  = Ok (select_atoms_age g hs,
        mkWorld (<[dst := add_atoms (select_atoms_age g hs) hd]>
                   (<[src := remove_atoms_age g hs]> (herds w)))
                (rng_tape w) (rng_pos w)).
Proof.
  intros Hne Hs Hd. unfold move_age_group.
  erewrite bind_Ok by (by apply get_herd_Some). cbv zeta.
  erewrite bind_Ok by (by apply update_herd_Some).
  erewrite bind_Ok
    by (apply update_herd_Some; cbn [herds]; rewrite lookup_insert_ne by done;
        exact Hd).
  reflexivity.
Qed.

(** X11. The transfer of the sows, on a farm with pens 0, 1 and 2: it
    returns the farrowing sows, all of group F, and records their number in
    pen 1; afterwards pen 0 holds no gestating animal and pen 1 no
    farrowing one; pen 2 holds the animals it held and the farrowing sows,
    in some order; the animals of the three pens taken together are the
    same as before, none lost and none made; and the other pens are as
    they were. *)
Theorem transfer_sows_moves_sows (w : World) :
  has_pens 0 2 (herds w) →
  ∃ sows w',
    transfer_sows w = Ok (sows, w')
    ∧ all_of_age age_F sows
    ∧ nb_new_farrowing_sows_at (herds w') 1 = Z.of_nat (length sows)
    ∧ none_of_age age_G (atoms_at (herds w') 0)
    ∧ none_of_age age_F (atoms_at (herds w') 1)
    ∧ atoms_at (herds w') 0 ++ atoms_at (herds w') 1 ++ atoms_at (herds w') 2
      ≡ₚ atoms_at (herds w) 0 ++ atoms_at (herds w) 1 ++ atoms_at (herds w) 2
    ∧ atoms_at (herds w') 2 ≡ₚ atoms_at (herds w) 2 ++ sows
    ∧ ∀ i, ¬ 0 ≤ i ≤ 2 → herds w' !! i = herds w !! i.
Proof.
  intros Hpens.
  destruct (Hpens 0) as [h0 H0]; [lia|]. destruct (Hpens 1) as [h1 H1]; [lia|].
  destruct (Hpens 2) as [h2 H2]; [lia|].
  unfold transfer_sows.
  erewrite bind_Ok by (by apply (move_age_group_run age_G 0 1 w h0 h1)).
  set (pen1 := add_atoms (select_atoms_age age_G h0) h1).
  set (w1 := mkWorld _ _ _).
  assert (Hw1 : herds w1 !! 1 = Some pen1) by apply lookup_insert_eq.
  erewrite bind_Ok by (by apply get_herd_Some). cbv zeta.
  set (sows := select_atoms_age age_F pen1).
  erewrite bind_Ok by (by apply update_herd_Some).
  erewrite bind_Ok by (apply update_herd_Some; apply lookup_insert_eq).
  erewrite bind_Ok
    by (apply update_herd_Some; cbn [herds]; subst w1; cbn [herds];
        rewrite !lookup_insert_ne by done; exact H2).
  eexists _, _. split; [reflexivity|]. cbn [herds]. subst w1. cbn [herds].
  unfold atoms_at, nb_new_farrowing_sows_at.
  rewrite lookup_insert_eq.
  rewrite !(lookup_insert_ne _ 2 1), !(lookup_insert_ne _ 2 0) by done.
  rewrite !lookup_insert_eq.
  rewrite !(lookup_insert_ne _ 1 0) by done. rewrite lookup_insert_eq, H0, H1, H2.
  split; [apply select_all_of_age|]. split; [reflexivity|].
  split; [apply remove_none_of_age|].
  split; [apply (remove_none_of_age age_F (set_nb_new_farrowing_sows _ pen1))|].
  split; [|split; [reflexivity|]].
  - cbn [atoms add_atoms set_atoms]. fold sows.
    change (atoms (remove_atoms_age age_F (set_nb_new_farrowing_sows
                     (Z.of_nat (length sows)) pen1)))
      with (atoms (remove_atoms_age age_F pen1)).
    rewrite (Permutation_app_comm (atoms h2) sows), (app_assoc _ sows),
      (Permutation_app_comm (atoms (remove_atoms_age age_F pen1)) sows).
    unfold sows. rewrite select_remove_partition.
    subst pen1. cbn [atoms add_atoms set_atoms].
    rewrite (app_assoc (atoms (remove_atoms_age age_G h0))),
      (Permutation_app_comm (atoms (remove_atoms_age age_G h0))),
      <- !app_assoc, (app_assoc (select_atoms_age age_G h0)),
      select_remove_partition.
    rewrite (app_assoc (atoms h1)), (Permutation_app_comm (atoms h1)),
      <- app_assoc. done.
  - intros i Hi. rewrite !lookup_insert_ne by lia. done.
Qed.

Lemma transfer_sows_moves_sows_witness :
  has_pens 0 2 (herds (world_of
     [([mkAtom age_G hs_S; mkAtom age_A hs_I], 0%Qc);
      ([mkAtom age_F hs_E; mkAtom age_G hs_S], 0%Qc);
      ([mkAtom age_Jnb hs_M], 0%Qc)] (λ _, 0%Qc)))
  ∧ value_of transfer_sows (world_of
     [([mkAtom age_G hs_S; mkAtom age_A hs_I], 0%Qc);
      ([mkAtom age_F hs_E; mkAtom age_G hs_S], 0%Qc);
      ([mkAtom age_Jnb hs_M], 0%Qc)] (λ _, 0%Qc))
    = Ok [mkAtom age_F hs_E].
Proof.
  assert (H : has_pens 0 2 (herds (world_of
     [([mkAtom age_G hs_S; mkAtom age_A hs_I], 0%Qc);
      ([mkAtom age_F hs_E; mkAtom age_G hs_S], 0%Qc);
      ([mkAtom age_Jnb hs_M], 0%Qc)] (λ _, 0%Qc))))
    by (apply has_pens_check_sound; vm_compute; reflexivity).
  split; [exact H|].
  destruct (transfer_sows_moves_sows _ H) as (sows & w' & Hrun & _).
  unfold value_of. rewrite Hrun. revert Hrun. vm_compute.
  intros [= <- _]. reflexivity.
Defined.

Lemma remove_keeps_none_of_age (g g' : AgeGroup) (h : Herd) :
  none_of_age g (atoms h) → none_of_age g (atoms (remove_atoms_age g' h)).
Proof.
  unfold none_of_age, remove_atoms_age. simpl. rewrite !Forall_forall.
  intros H a Ha. apply H. apply list_elem_of_In.
  apply list_elem_of_In, filter_In in Ha as [Ha _]. done.
Qed.

(** X12. The transfer of the young, on a farm with pens 0 to 3: it returns
    the growers, all of group Jf, taken out of the nursery; afterwards pen
    2 holds no animal of group A or Jn and pen 3 none of group Jf; the
    animals of pens 0, 2 and 3 together with the growers are the animals
    that pens 0, 2 and 3 held before; the other pens are as they were. *)
Theorem transfer_young_takes_growers (w : World) :
  has_pens 0 3 (herds w) →
  ∃ growers w',
    transfer_young w = Ok (growers, w')
    ∧ all_of_age age_Jf growers
    ∧ none_of_age age_A (atoms_at (herds w') 2)
    ∧ none_of_age age_Jn (atoms_at (herds w') 2)
    ∧ none_of_age age_Jf (atoms_at (herds w') 3)
    ∧ atoms_at (herds w') 0 ++ atoms_at (herds w') 2 ++ atoms_at (herds w') 3 ++ growers
      ≡ₚ atoms_at (herds w) 0 ++ atoms_at (herds w) 2 ++ atoms_at (herds w) 3
    ∧ ∀ i, i ≠ 0 → i ≠ 2 → i ≠ 3 → herds w' !! i = herds w !! i.
Proof.
  intros Hpens.
  destruct (Hpens 0) as [h0 H0]; [lia|]. destruct (Hpens 2) as [h2 H2]; [lia|].
  destruct (Hpens 3) as [h3 H3]; [lia|].
  unfold transfer_young.
  erewrite bind_Ok by (by apply (move_age_group_run age_A 2 0 w h2 h0)).
  set (w1 := mkWorld _ _ _).
  assert (H21 : herds w1 !! 2 = Some (remove_atoms_age age_A h2))
    by (subst w1; cbn [herds]; rewrite lookup_insert_ne by done;
        apply lookup_insert_eq).
  assert (H31 : herds w1 !! 3 = Some h3)
    by (subst w1; cbn [herds]; by rewrite !lookup_insert_ne by done).
  erewrite bind_Ok
    by (by apply (move_age_group_run age_Jn 2 3 w1 (remove_atoms_age age_A h2) h3)).
  set (pen3 := add_atoms (select_atoms_age age_Jn (remove_atoms_age age_A h2)) h3).
  set (w2 := mkWorld _ _ _).
  assert (H32 : herds w2 !! 3 = Some pen3) by apply lookup_insert_eq.
  erewrite bind_Ok by (by apply get_herd_Some). cbv zeta.
  erewrite bind_Ok by (by apply update_herd_Some).
  eexists _, _. split; [reflexivity|]. cbn [herds]. subst w2 w1. cbn [herds].
  unfold atoms_at.
  rewrite lookup_insert_eq.
  rewrite !(lookup_insert_ne _ 3 2), !(lookup_insert_ne _ 3 0) by done.
  rewrite lookup_insert_eq.
  rewrite !(lookup_insert_ne _ 2 0) by done.
  rewrite lookup_insert_eq, H0, H2, H3.
  split; [apply select_all_of_age|].
  split; [apply remove_keeps_none_of_age, remove_none_of_age|].
  split; [apply remove_none_of_age|].
  split; [apply remove_none_of_age|]. split.
  - rewrite (Permutation_app_comm (atoms (remove_atoms_age age_Jf pen3))),
      select_remove_partition.
    subst pen3. cbn [atoms add_atoms set_atoms].
    rewrite (Permutation_app_comm (atoms h3)), (app_assoc _ _ (atoms h3)),
      (Permutation_app_comm (atoms (remove_atoms_age age_Jn _))),
      select_remove_partition.
    rewrite <- (app_assoc (atoms h0)), (app_assoc (select_atoms_age age_A h2)),
      select_remove_partition. done.
  - intros i Hi0 Hi2 Hi3. by rewrite !lookup_insert_ne by done.
Qed.

Lemma transfer_young_takes_growers_witness :
  has_pens 0 3 (herds (world_of
     [([], 0%Qc); ([], 0%Qc);
      ([mkAtom age_A hs_S; mkAtom age_Jn hs_I; mkAtom age_Jnb hs_M], 0%Qc);
      ([mkAtom age_Jf hs_E; mkAtom age_Jn hs_S], 0%Qc)] (λ _, 0%Qc)))
  ∧ value_of transfer_young (world_of
     [([], 0%Qc); ([], 0%Qc);
      ([mkAtom age_A hs_S; mkAtom age_Jn hs_I; mkAtom age_Jnb hs_M], 0%Qc);
      ([mkAtom age_Jf hs_E; mkAtom age_Jn hs_S], 0%Qc)] (λ _, 0%Qc))
    = Ok [mkAtom age_Jf hs_E].
Proof.
  assert (H : has_pens 0 3 (herds (world_of
     [([], 0%Qc); ([], 0%Qc);
      ([mkAtom age_A hs_S; mkAtom age_Jn hs_I; mkAtom age_Jnb hs_M], 0%Qc);
      ([mkAtom age_Jf hs_E; mkAtom age_Jn hs_S], 0%Qc)] (λ _, 0%Qc))))
    by (apply has_pens_check_sound; vm_compute; reflexivity).
  split; [exact H|].
  destruct (transfer_young_takes_growers _ H) as (growers & w' & Hrun & _).
  unfold value_of. rewrite Hrun. revert Hrun. vm_compute.
  intros [= <- _]. reflexivity.
Defined.

Lemma survives_test_run (s : HealthState) (p : Qc) (a : Atom) (w : World) :
  survives_test s p a w
  = if is_in_state a s
    then Ok (negb (bool_decide (rng_tape w (rng_pos w) < p)%Qc),
             mkWorld (herds w) (rng_tape w) (S (rng_pos w)))
    else Ok (true, w).
Proof. unfold survives_test. by destruct (is_in_state a s). Qed.

Lemma filterM_cons {A} (keep : A → M bool) (x : A) (l ys : list A) (b : bool)
    (w w1 w2 : World) :
  keep x w = Ok (b, w1) → filterM keep l w1 = Ok (ys, w2) →
  filterM keep (x :: l) w = Ok (if b then x :: ys else ys, w2).
Proof.
  intros H1 H2. cbn [filterM].
  erewrite bind_Ok by exact H1. by erewrite bind_Ok by exact H2.
Qed.

Lemma filterM_survives_run (s : HealthState) (p : Qc) (l : list Atom) (w : World) :
  ∃ kept w',
    filterM (survives_test s p) l w = Ok (kept, w')
    ∧ herds w' = herds w ∧ rng_tape w' = rng_tape w
    ∧ rng_pos w' = (rng_pos w + in_state_count s l)%nat
    ∧ sublist kept l
    ∧ ∀ P : Atom → bool, (∀ a, P a = true → is_in_state a s = false) →
        List.filter P kept = List.filter P l.
Proof.
  revert w. induction l as [|a l IH]; intros w.
  - exists [], w. unfold in_state_count. simpl.
    repeat split; [lia | constructor].
  - pose proof (survives_test_run s p a w) as Ha.
    unfold in_state_count. cbn [List.filter].
    destruct (is_in_state a s) eqn:Hs.
    + set (w1 := mkWorld (herds w) (rng_tape w) (S (rng_pos w))) in *.
      destruct (IH w1) as (kept & w' & Hrun & Hh & Ht & Hp & Hsub & Hf).
      assert (Hnot : ∀ P : Atom → bool,
                 (∀ a, P a = true → is_in_state a s = false) → P a = false).
      { intros P HP. destruct (P a) eqn:E; [|done]. apply HP in E. congruence. }
      eexists _, w'. split; [exact (filterM_cons _ _ _ _ _ _ _ _ Ha Hrun)|].
      split; [done|]. split; [done|]. split; [|split].
      * rewrite Hp. unfold in_state_count. cbn. lia.
      * destruct (bool_decide _); cbn; by constructor.
      * intros P HP. rewrite (Hnot P HP), <- (Hf P HP).
        destruct (bool_decide _); cbn; [done|]. by rewrite (Hnot P HP).
    + destruct (IH w) as (kept & w' & Hrun & Hh & Ht & Hp & Hsub & Hf).
      eexists _, w'. split; [exact (filterM_cons _ _ _ _ _ _ _ _ Ha Hrun)|].
      split; [done|]. split; [done|]. split; [done|]. split; [by constructor|].
      intros P HP. cbn. by rewrite (Hf P HP).
Qed.

(** X13. The random testing of the growers always returns; what it keeps
    is a sublist of the growers, in their order, with every animal that is
    neither infectious nor exposed; it changes no pen, and it draws one
    number for each infectious and one for each exposed grower. *)
Theorem random_testing_removes_only_tested
    (proba_removal_if_I proba_removal_if_E : Qc) (growers : list Atom) (w : World) :
  ∃ kept w',
    random_testing proba_removal_if_I proba_removal_if_E growers w = Ok (kept, w')
    ∧ sublist kept growers
    ∧ List.filter untested kept = List.filter untested growers
    ∧ herds w' = herds w
    ∧ rng_pos w'
      = (rng_pos w + in_state_count hs_I growers + in_state_count hs_E growers)%nat.
Proof.
  unfold random_testing.
  destruct (filterM_survives_run hs_I proba_removal_if_I growers w)
    as (k1 & w1 & Hrun1 & Hh1 & Ht1 & Hp1 & Hsub1 & Hf1).
  destruct (filterM_survives_run hs_E proba_removal_if_E k1 w1)
    as (k2 & w2 & Hrun2 & Hh2 & Ht2 & Hp2 & Hsub2 & Hf2).
  exists k2, w2. split; [by erewrite bind_Ok by exact Hrun1|].
  split; [by etrans|]. split; [|split; [congruence|]].
  - rewrite Hf2, Hf1; [done | |]; intros a; unfold untested;
      intros [H1 H2]%andb_prop; by apply negb_true_iff.
  - rewrite Hp2, Hp1. f_equal. unfold in_state_count. f_equal. apply Hf1.
    intros a. unfold is_in_state. intros ->%bool_decide_eq_true_1.
    by apply bool_decide_eq_false_2.
Qed.

Lemma filter_filter_andb {A} (f g : A → bool) (l : list A) :
  List.filter f (List.filter g l) = List.filter (λ a, g a && f a) l.
Proof.
  induction l as [|a l IH]; [done|]. cbn.
  destruct (g a); cbn; [destruct (f a)|]; by rewrite IH.
Qed.

Lemma filterM_survives_certain (s : HealthState) (p : Qc) (l : list Atom) (w : World) :
  (∀ n, (rng_tape w n < 1)%Qc) → (1 ≤ p)%Qc →
  ∃ w', filterM (survives_test s p) l w
        = Ok (List.filter (λ a, negb (is_in_state a s)) l, w')
        ∧ rng_tape w' = rng_tape w.
Proof.
  intros Htape Hp. revert w Htape. induction l as [|a l IH]; intros w Htape.
  - by exists w.
  - pose proof (survives_test_run s p a w) as Ha. cbn [List.filter].
    destruct (is_in_state a s) eqn:Hs.
    + rewrite (bool_decide_eq_true_2 (rng_tape w (rng_pos w) < p)%Qc) in Ha
        by (eapply Qclt_le_trans; [apply Htape | exact Hp]).
      destruct (IH (mkWorld (herds w) (rng_tape w) (S (rng_pos w))) Htape)
        as (w' & Hrun & Ht).
      exists w'. split; [exact (filterM_cons _ _ _ _ _ _ _ _ Ha Hrun) | done].
    + destruct (IH w Htape) as (w' & Hrun & Ht).
      exists w'. split; [exact (filterM_cons _ _ _ _ _ _ _ _ Ha Hrun) | done].
Qed.

Lemma filterM_survives_never (s : HealthState) (p : Qc) (l : list Atom) (w : World) :
  (∀ n, (0 ≤ rng_tape w n)%Qc) → (p ≤ 0)%Qc →
  ∃ w', filterM (survives_test s p) l w = Ok (l, w') ∧ rng_tape w' = rng_tape w.
Proof.
  intros Htape Hp. revert w Htape. induction l as [|a l IH]; intros w Htape.
  - by exists w.
  - pose proof (survives_test_run s p a w) as Ha.
    destruct (is_in_state a s) eqn:Hs.
    + rewrite (bool_decide_eq_false_2 (rng_tape w (rng_pos w) < p)%Qc) in Ha
        by (apply Qcle_not_lt; eapply Qcle_trans; [exact Hp | apply Htape]).
      destruct (IH (mkWorld (herds w) (rng_tape w) (S (rng_pos w))) Htape)
        as (w' & Hrun & Ht).
      exists w'. split; [exact (filterM_cons _ _ _ _ _ _ _ _ Ha Hrun) | done].
    + destruct (IH w Htape) as (w' & Hrun & Ht).
      exists w'. split; [exact (filterM_cons _ _ _ _ _ _ _ _ Ha Hrun) | done].
Qed.

(** X14. The two ends of the random testing, when the draws lie in
    [0, 1) as those of [np.random.rand()] do: with both removal
    probabilities at least 1, exactly the growers that are neither
    infectious nor exposed are kept; with both at most 0, every grower is
    kept. *)
Theorem random_testing_extremes
    (proba_removal_if_I proba_removal_if_E : Qc) (growers : list Atom) (w : World) :
  unit_interval_tape w →
  ((1 ≤ proba_removal_if_I)%Qc → (1 ≤ proba_removal_if_E)%Qc →
     value_of (random_testing proba_removal_if_I proba_removal_if_E growers) w
     = Ok (List.filter untested growers))
  ∧ ((proba_removal_if_I ≤ 0)%Qc → (proba_removal_if_E ≤ 0)%Qc →
     value_of (random_testing proba_removal_if_I proba_removal_if_E growers) w
     = Ok growers).
Proof.
  intros Htape. unfold value_of, random_testing. split; intros HI HE.
  - destruct (filterM_survives_certain hs_I proba_removal_if_I growers w)
      as (w1 & Hrun1 & Ht1); [intros n; apply Htape | done |].
    erewrite bind_Ok by exact Hrun1.
    destruct (filterM_survives_certain hs_E proba_removal_if_E
                (List.filter (λ a, negb (is_in_state a hs_I)) growers) w1)
      as (w2 & Hrun2 & Ht2); [intros n; rewrite Ht1; apply Htape | done |].
    rewrite Hrun2. by rewrite filter_filter_andb.
  - destruct (filterM_survives_never hs_I proba_removal_if_I growers w)
      as (w1 & Hrun1 & Ht1); [intros n; apply Htape | done |].
    erewrite bind_Ok by exact Hrun1.
    destruct (filterM_survives_never hs_E proba_removal_if_E growers w1)
      as (w2 & Hrun2 & Ht2); [intros n; rewrite Ht1; apply Htape | done |].
    by rewrite Hrun2.
Qed.

Lemma random_testing_extremes_witness :
  unit_interval_tape (world_of [] (λ _, Q2Qc (1 # 2)))
  ∧ value_of (random_testing 1 1
                [mkAtom age_Jf hs_I; mkAtom age_Jf hs_S; mkAtom age_Jf hs_E])
      (world_of [] (λ _, Q2Qc (1 # 2)))
    = Ok [mkAtom age_Jf hs_S]
  ∧ value_of (random_testing 0 0
                [mkAtom age_Jf hs_I; mkAtom age_Jf hs_S; mkAtom age_Jf hs_E])
      (world_of [] (λ _, Q2Qc (1 # 2)))
    = Ok [mkAtom age_Jf hs_I; mkAtom age_Jf hs_S; mkAtom age_Jf hs_E].
Proof.
  assert (H : unit_interval_tape (world_of [] (λ _, Q2Qc (1 # 2))))
    by (intros n; split; vm_compute; congruence).
  split; [exact H|]. split.
  - rewrite (proj1 (random_testing_extremes 1 1
               [mkAtom age_Jf hs_I; mkAtom age_Jf hs_S; mkAtom age_Jf hs_E] _ H));
      [vm_compute; reflexivity | vm_compute; congruence ..].
  - apply (proj2 (random_testing_extremes 0 0 _ _ H)); vm_compute; congruence.
Defined.

Lemma litter_born (p : Parameters) (sow : Atom) (w : World) :
  ∃ n proto w',
    litter p sow w = Ok (replicate n (new_atom proto), w')
    ∧ herds w' = herds w ∧ rng_tape w' = rng_tape w
    ∧ born_to p (rng_tape w) sow (new_atom proto).
Proof.
  unfold litter, newborn_prototype, random_gauss, random_random, random_draw.
  unfold mbind, M_bind, mret, M_ret. unfold born_to.
  destruct (is_in_state sow hs_I || is_in_state sow hs_E) eqn:HIE.
  - destruct (bool_decide (rng_tape w (rng_pos w) < vert_trans p)%Qc) eqn:Hu.
    + eexists _, newborn_E, _. split; [reflexivity|]. split; [done|]. split; [done|].
      left. split; [done|]. split; [done|].
      exists (rng_pos w). by apply bool_decide_eq_true_1 in Hu.
    + destruct (is_in_state sow hs_S) eqn:HS.
      * eexists _, newborn_S, _. split; [reflexivity|]. split; [done|]. split; [done|].
        right. left. done.
      * eexists _, newborn_M, _. split; [reflexivity|]. split; [done|]. split; [done|].
        right. right. done.
  - destruct (is_in_state sow hs_S) eqn:HS.
    + eexists _, newborn_S, _. split; [reflexivity|]. split; [done|]. split; [done|].
      right. left. done.
    + eexists _, newborn_M, _. split; [reflexivity|]. split; [done|]. split; [done|].
      right. right. done.
Qed.

Lemma all_litters_born (p : Parameters) (tape : nat → Qc) (sows : list Atom) :
  ∀ (acc : list Atom) (w : World),
    rng_tape w = tape →
    ∃ l w',
      foldM (λ newborn sow, l ← litter p sow; mret (newborn ++ l)) acc sows w
      = Ok (acc ++ l, w')
      ∧ Forall (λ a, Exists (λ sow, born_to p tape sow a) sows) l.
Proof.
  induction sows as [|sow sows IH]; intros acc w Htape; cbn [foldM].
  - exists [], w. by rewrite app_nil_r.
  - destruct (litter_born p sow w) as (n & proto & w1 & Hl & _ & Ht & Hborn).
    erewrite bind_Ok by (erewrite bind_Ok by exact Hl; reflexivity).
    destruct (IH (acc ++ replicate n (new_atom proto)) w1) as (l & w2 & Hrun & HF);
      [congruence|].
    exists (replicate n (new_atom proto) ++ l), w2. rewrite Hrun, app_assoc.
    split; [done|]. apply Forall_app. split.
    + apply Forall_replicate. apply Exists_cons_hd. by rewrite <- Htape.
    + eapply Forall_impl; [exact HF|]. intros a Ha. by apply Exists_cons_tl.
Qed.

(** X15. The loop over the farrowing sows, on a farm with pen 2, returns;
    every newborn is the piglet of one of the sows: made from newborn_E
    only for an infectious or exposed sow and after a draw under
    [vert_trans], from newborn_S only for a susceptible sow, from
    newborn_M only for a sow that is not susceptible.  When no draw is
    under [vert_trans], no newborn is made from newborn_E. *)
Theorem newborns_follow_their_sow
    (p : Parameters) (sows : list Atom) (w : World) (pen : Herd) :
  herds w !! 2 = Some pen →
  ∃ newborn w',
    newborn_loop p sows w = Ok (newborn, w')
    ∧ Forall (λ a, Exists (λ sow, born_to p (rng_tape w) sow a) sows) newborn
    ∧ ((∀ k, (vert_trans p ≤ rng_tape w k)%Qc) →
       Forall (λ a, a ≠ new_atom newborn_E) newborn).
Proof.
  intros Hpen.
  assert (Hloop : ∃ newborn w',
            newborn_loop p sows w = Ok (newborn, w')
            ∧ Forall (λ a, Exists (λ sow, born_to p (rng_tape w) sow a) sows) newborn).
  { unfold newborn_loop.
    destruct (decide (float_of_int (total_Jnb pen) < K_herd p)%Qc) as [Hcap|Hcap].
    - rewrite (newborn_loop_under_cap p pen sows Hcap [] w Hpen).
      destruct (all_litters_born p (rng_tape w) sows [] w) as (l & w' & Hrun & HF);
        [done|].
      by exists l, w'.
    - rewrite (newborn_loop_at_cap p pen sows Hcap [] w Hpen). by exists [], w. }
  destruct Hloop as (newborn & w' & Hrun & HF).
  exists newborn, w'. split; [done|]. split; [done|].
  intros Hnever. eapply Forall_impl; [exact HF|]. intros a Ha ->.
  apply Exists_exists in Ha as (sow & _ & [(_ & _ & k & Hk)|[[H _]|[H _]]]).
  - exact (Qclt_not_le _ _ Hk (Hnever k)).
  - discriminate H.
  - discriminate H.
Qed.

Lemma newborns_follow_their_sow_witness :
  herds (world_of (replicate 18 ([], 0%Qc)) (λ _, 1%Qc)) !! 2
  = Some (mkHerd [] (mkStateVars 0%Qc 0 0))
  ∧ ∃ newborn w',
      newborn_loop (example_parameters 0) [mkAtom age_F hs_I; mkAtom age_F hs_S]
        (world_of (replicate 18 ([], 0%Qc)) (λ _, 1%Qc)) = Ok (newborn, w')
      ∧ newborn = replicate 12 (mkAtom age_Jnb hs_M) ++ replicate 12 (mkAtom age_Jnb hs_S).
Proof.
  assert (H : herds (world_of (replicate 18 ([], 0%Qc)) (λ _, 1%Qc)) !! 2
              = Some (mkHerd [] (mkStateVars 0%Qc 0 0)))
    by (vm_compute; reflexivity).
  split; [exact H|].
  destruct (newborns_follow_their_sow (example_parameters 0)
              [mkAtom age_F hs_I; mkAtom age_F hs_S] _ _ H)
    as (newborn & w' & Hrun & _ & _).
  exists newborn, w'. split; [exact Hrun|].
  revert Hrun. vm_compute. intros [= <- _]. reflexivity.
Defined.
